(** * Seafile HTTP upload endpoint (httpserver/upload-file.c)

    A shallow embedding of the streaming multipart receive state machine,
    the request life cycle around it, the unique-name generator and the
    progress endpoint, together with the properties of the specification
    that were checked against it.

    Conventions.
    - A C string ([char *]) and a byte buffer are both a [string]; a byte
      buffer may hold NUL bytes, and [cstr] gives what a C string function
      sees of it.
    - A nullable [char *] is an [option string].
    - [gint64] is a [Z] with the wrap-around written out ([wrap64]).
    - libc, GLib, libevent and libevhtp functions are modelled after their
      documented behaviour and keep their C names.
    - [update_cb], the twin of [upload_cb] for the route /update/, takes the
      back end's [seafile_put_file] as a parameter of its own, and the
      Location of its error page is kept beside the request.
    - [upload_file_init], which sets the callbacks on the routes of
      libevhtp, is not modelled. *)

From Stdlib Require Import ZArith Ascii String List Lia Bool.
From stdpp Require Import base option list gmap strings pretty.

Local Open Scope stdpp_scope.

(** ** Characters and C strings *)

Definition NUL : ascii := "000"%char.
Definition CR : ascii := "013"%char.
Definition LF : ascii := "010"%char.
Definition DQUOTE : ascii := "034"%char.
Definition CRLF : string := String CR (String LF "").

(** The C string held by a byte buffer: everything before the first NUL. *)
Fixpoint cstr (s : string) : string :=
  match s with
  | "" => ""
  | String c r => if Ascii.eqb c NUL then "" else String c (cstr r)
  end.

Fixpoint has_prefix (p s : string) : bool :=
  match p, s with
  | "", _ => true
  | String a p', String b s' => Ascii.eqb a b && has_prefix p' s'
  | String _ _, "" => false
  end.

(** [strstr hay needle != NULL]. *)
Fixpoint strstr (hay needle : string) : bool :=
  has_prefix needle hay ||
  match hay with
  | "" => false
  | String _ hay' => strstr hay' needle
  end.

(** [strchr s c]: offset of the first [c] in [s], if any. *)
Fixpoint strchr (s : string) (c : ascii) : option nat :=
  match s with
  | "" => None
  | String a r => if Ascii.eqb a c then Some 0 else S <$> strchr r c
  end.

(** [strrchr s c]: offset of the last [c] in [s], if any. *)
Fixpoint strrchr (s : string) (c : ascii) : option nat :=
  match s with
  | "" => None
  | String a r =>
      match strrchr r c with
      | Some i => Some (S i)
      | None => if Ascii.eqb a c then Some 0 else None
      end
  end.

Fixpoint str_take (n : nat) (s : string) : string :=
  match n, s with
  | S n', String c r => String c (str_take n' r)
  | _, _ => ""
  end.

Fixpoint str_drop (n : nat) (s : string) : string :=
  match n, s with
  | S n', String _ r => str_drop n' r
  | _, _ => s
  end.

(** [g_strndup (s + from, len)]. *)
Definition g_strndup (s : string) (from len : nat) : string :=
  str_take len (str_drop from s).

Definition tolower (c : ascii) : ascii :=
  let n := N_of_ascii c in
  if ((65 <=? n) && (n <=? 90))%N then ascii_of_N (n + 32) else c.

(** [strcasecmp (a, b) == 0]. *)
Fixpoint strcasecmp_eq (a b : string) : bool :=
  match a, b with
  | "", "" => true
  | String x a', String y b' => Ascii.eqb (tolower x) (tolower y) && strcasecmp_eq a' b'
  | _, _ => false
  end.

(** [strncasecmp (a, b, n) == 0]. *)
Fixpoint strncasecmp_eq (a b : string) (n : nat) {struct n} : bool :=
  match n with
  | 0 => true
  | S n' =>
      match a, b with
      | "", "" => true
      | String x a', String y b' =>
          Ascii.eqb (tolower x) (tolower y) && strncasecmp_eq a' b' n'
      | _, _ => false
      end
  end.

(** GLib's [g_ascii_isspace]: space, TAB, LF, FF and CR (not VT). *)
Definition g_ascii_isspace (c : ascii) : bool :=
  match c with
  | "009" | "010" | "012" | "013" | " " => true
  | _ => false
  end%char.

(** libc's [isspace] in the C locale. *)
Definition isspace (c : ascii) : bool :=
  match c with
  | "009" | "010" | "011" | "012" | "013" | " " => true
  | _ => false
  end%char.

Fixpoint g_strchug (s : string) : string :=
  match s with
  | "" => ""
  | String c r => if g_ascii_isspace c then g_strchug r else s
  end.

Fixpoint g_strchomp (s : string) : string :=
  match s with
  | "" => ""
  | String c r =>
      match g_strchomp r with
      | "" => if g_ascii_isspace c then "" else String c ""
      | r' => String c r'
      end
  end.

Definition g_strstrip (s : string) : string := g_strchomp (g_strchug s).

Fixpoint split_on (d : ascii) (s : string) : list string :=
  match s with
  | "" => [""]
  | String c r =>
      if Ascii.eqb c d then "" :: split_on d r
      else match split_on d r with
           | x :: xs => String c x :: xs
           | [] => [String c ""]
           end
  end.

(** [g_strsplit (s, d, 0)] for a one-character delimiter; the empty string
    gives the empty vector. *)
Definition g_strsplit (s : string) (d : ascii) : list string :=
  match s with
  | "" => []
  | _ => split_on d s
  end.

(** ** 64-bit integers *)

Definition INT64_MIN : Z := - 2 ^ 63.
Definition INT64_MAX : Z := 2 ^ 63 - 1.
Definition wrap64 (x : Z) : Z := (x + 2 ^ 63) mod 2 ^ 64 - 2 ^ 63.

Definition digit_val (c : ascii) : option Z :=
  let n := N_of_ascii c in
  if ((48 <=? n) && (n <=? 57))%N then Some (Z.of_N n - 48)%Z else None.

Fixpoint skip_space (s : string) : string :=
  match s with
  | "" => ""
  | String c r => if isspace c then skip_space r else s
  end.

(** The digits at the head of [s], accumulated in base 10. *)
Fixpoint strtoll_digits (acc : Z) (s : string) : Z :=
  match s with
  | "" => acc
  | String c r =>
      match digit_val c with
      | Some d => strtoll_digits (10 * acc + d) r
      | None => acc
      end
  end.

(** [strtoll (s, NULL, 10)]: leading white space, an optional sign, decimal
    digits; clamped to the range of [long long]; 0 when there is no digit. *)
Definition strtoll (s : string) : Z :=
  let s1 := skip_space s in
  let '(neg, s2) :=
    match s1 with
    | String "-" r => (true, r)
    | String "+" r => (false, r)
    | _ => (false, s1)
    end in
  let v := strtoll_digits 0 s2 in
  if neg then Z.max INT64_MIN (- v) else Z.min INT64_MAX v.


(** ** Data model *)

Inductive RecvState := RECV_INIT | RECV_HEADERS | RECV_CONTENT | RECV_ERROR.

Inductive UploadError :=
  | ERROR_FILENAME
  | ERROR_EXISTS
  | ERROR_NOT_EXIST
  | ERROR_SIZE
  | ERROR_QUOTA
  | ERROR_RECV
  | ERROR_INTERNAL.

(** The value of the enumerator, as printed by [err=%d]. *)
Definition error_code (e : UploadError) : Z :=
  match e with
  | ERROR_FILENAME => 0
  | ERROR_EXISTS => 1
  | ERROR_NOT_EXIST => 2
  | ERROR_SIZE => 3
  | ERROR_QUOTA => 4
  | ERROR_RECV => 5
  | ERROR_INTERNAL => 6
  end.

Inductive evhtp_res :=
  | EVHTP_RES_OK
  | EVHTP_RES_FOUND
  | EVHTP_RES_BADREQ
  | EVHTP_RES_SERVERR.

Global Instance RecvState_eq_dec : EqDecision RecvState.
Proof. solve_decision. Defined.
Global Instance UploadError_eq_dec : EqDecision UploadError.
Proof. solve_decision. Defined.
Global Instance evhtp_res_eq_dec : EqDecision evhtp_res.
Proof. solve_decision. Defined.

Module Progress.
Record t := mk { uploaded : Z; size : Z }.
End Progress.

Record RecvFSM := {
  state : RecvState;
  repo_id : string;
  user : string;
  boundary : string;
  input_name : option string;
  line : string;                    (* the evbuffer holding unread bytes *)
  form_kvs : gmap string string;
  recved_crlf : bool;
  file_name : option string;
  tmp_file : option string;
  fd : Z;
  progress_id : string;
  progress : nat;                   (* address of the Progress struct *)
}.

Definition MAX_CONTENT_LINE : Z := 10240.
Definition TEMP_FILE_DIR : string := "/tmp/seafhttp".
Definition MAX_UPLOAD_FILE_SIZE : Z := 100 * 2 ^ 20.

(** What the callbacks share with the rest of the process: the files under
    the temp directory, the table of open descriptors, the heap cells of the
    [Progress] structs and the registry [upload_progress] that points to
    them.  [fsm->progress] and the registry entry are the same cell. *)
Record World := {
  files : gmap string string;
  fds : gmap Z string;
  heap : gmap nat Progress.t;
  upload_progress : gmap string nat;
}.

(** Where a reply redirects to; the text of the URL is left to the front
    end.  [fn] is the (nullable) [fsm->file_name]. *)
Inductive Redirect :=
  | UploadErrorPage (repo parent_dir : string) (fn : option string) (err : UploadError)
  | SuccessPage (repo parent_dir : string).

(** The parts of [evhtp_request_t] the callbacks read and write. *)
Record Request := {
  uri_file : option string;              (* req->uri->path->file *)
  uri_query : list (string * string);    (* req->uri->query *)
  buffer_out : string;
  location : option Redirect;            (* the Location header of headers_out *)
  keepalive : bool;
  paused : bool;
  reply : option evhtp_res;              (* the code given to evhtp_send_reply *)
}.

(** The environment: the operating system's answers and the back end. *)
Record Env := {
  (* the name mkstemp picks for a template, or its failure *)
  mkstemp_name : gmap string string -> string -> option string;
  (* does writing [data] after [old] to the file at [path] succeed *)
  write_ok : string -> string -> string -> bool;
  seafile_web_query_access_token : string -> option (string * string);
  seafile_check_quota : string -> Z;
  (* repo id to head commit id, commit id to root id, root and path to the
     names of the directory's entries *)
  seaf_repo_manager_get_repo : string -> option string;
  seaf_commit_manager_get_commit : string -> option string;
  seaf_fs_manager_get_seafdir_by_path : string -> string -> option (list string);
  (* repo, temp file, parent dir, name, user; the error message, if any *)
  seafile_post_file : string -> string -> string -> string -> string -> option string;
}.

(** A callback returns, dereferences an invalid pointer, or is cut off by
    the fuel of the model. *)
Inductive Outcome (A : Type) :=
  | Done (a : A)
  | Fault
  | OutOfFuel.
Arguments Done {A} a.
Arguments Fault {A}.
Arguments OutOfFuel {A}.

(** *** Field updates *)

Definition set_state (v : RecvState) (f : RecvFSM) : RecvFSM :=
  {| state := v; repo_id := repo_id f; user := user f; boundary := boundary f;
     input_name := input_name f; line := line f; form_kvs := form_kvs f;
     recved_crlf := recved_crlf f; file_name := file_name f;
     tmp_file := tmp_file f; fd := fd f; progress_id := progress_id f;
     progress := progress f |}.

Definition set_input_name (v : option string) (f : RecvFSM) : RecvFSM :=
  {| state := state f; repo_id := repo_id f; user := user f; boundary := boundary f;
     input_name := v; line := line f; form_kvs := form_kvs f;
     recved_crlf := recved_crlf f; file_name := file_name f;
     tmp_file := tmp_file f; fd := fd f; progress_id := progress_id f;
     progress := progress f |}.

Definition set_line (v : string) (f : RecvFSM) : RecvFSM :=
  {| state := state f; repo_id := repo_id f; user := user f; boundary := boundary f;
     input_name := input_name f; line := v; form_kvs := form_kvs f;
     recved_crlf := recved_crlf f; file_name := file_name f;
     tmp_file := tmp_file f; fd := fd f; progress_id := progress_id f;
     progress := progress f |}.

Definition set_form_kvs (v : gmap string string) (f : RecvFSM) : RecvFSM :=
  {| state := state f; repo_id := repo_id f; user := user f; boundary := boundary f;
     input_name := input_name f; line := line f; form_kvs := v;
     recved_crlf := recved_crlf f; file_name := file_name f;
     tmp_file := tmp_file f; fd := fd f; progress_id := progress_id f;
     progress := progress f |}.

Definition set_recved_crlf (v : bool) (f : RecvFSM) : RecvFSM :=
  {| state := state f; repo_id := repo_id f; user := user f; boundary := boundary f;
     input_name := input_name f; line := line f; form_kvs := form_kvs f;
     recved_crlf := v; file_name := file_name f;
     tmp_file := tmp_file f; fd := fd f; progress_id := progress_id f;
     progress := progress f |}.

Definition set_file_name (v : option string) (f : RecvFSM) : RecvFSM :=
  {| state := state f; repo_id := repo_id f; user := user f; boundary := boundary f;
     input_name := input_name f; line := line f; form_kvs := form_kvs f;
     recved_crlf := recved_crlf f; file_name := v;
     tmp_file := tmp_file f; fd := fd f; progress_id := progress_id f;
     progress := progress f |}.

Definition set_tmp_file (v : option string) (f : RecvFSM) : RecvFSM :=
  {| state := state f; repo_id := repo_id f; user := user f; boundary := boundary f;
     input_name := input_name f; line := line f; form_kvs := form_kvs f;
     recved_crlf := recved_crlf f; file_name := file_name f;
     tmp_file := v; fd := fd f; progress_id := progress_id f;
     progress := progress f |}.

Definition set_fd (v : Z) (f : RecvFSM) : RecvFSM :=
  {| state := state f; repo_id := repo_id f; user := user f; boundary := boundary f;
     input_name := input_name f; line := line f; form_kvs := form_kvs f;
     recved_crlf := recved_crlf f; file_name := file_name f;
     tmp_file := tmp_file f; fd := v; progress_id := progress_id f;
     progress := progress f |}.

Definition set_files (v : gmap string string) (w : World) : World :=
  {| files := v; fds := fds w; heap := heap w; upload_progress := upload_progress w |}.

Definition set_fds (v : gmap Z string) (w : World) : World :=
  {| files := files w; fds := v; heap := heap w; upload_progress := upload_progress w |}.

Definition set_heap (v : gmap nat Progress.t) (w : World) : World :=
  {| files := files w; fds := fds w; heap := v; upload_progress := upload_progress w |}.

Definition set_upload_progress (v : gmap string nat) (w : World) : World :=
  {| files := files w; fds := fds w; heap := heap w; upload_progress := v |}.

(** *** The request object *)

Definition evbuffer_add_printf (text : string) (r : Request) : Request :=
  {| uri_file := uri_file r; uri_query := uri_query r;
     buffer_out := buffer_out r +:+ text; location := location r;
     keepalive := keepalive r; paused := paused r; reply := reply r |}.

Definition evhtp_send_reply (code : evhtp_res) (r : Request) : Request :=
  {| uri_file := uri_file r; uri_query := uri_query r;
     buffer_out := buffer_out r; location := location r;
     keepalive := keepalive r; paused := paused r; reply := Some code |}.

Definition add_location (l : Redirect) (r : Request) : Request :=
  {| uri_file := uri_file r; uri_query := uri_query r;
     buffer_out := buffer_out r; location := Some l;
     keepalive := keepalive r; paused := paused r; reply := reply r |}.

(** [evhtp_request_pause (req); req->keepalive = 0]. *)
Definition pause_and_close (r : Request) : Request :=
  {| uri_file := uri_file r; uri_query := uri_query r;
     buffer_out := buffer_out r; location := location r;
     keepalive := false; paused := true; reply := reply r |}.

(** [evhtp_kv_find]: the value of the first pair whose key matches,
    compared with [strcasecmp]. *)
Fixpoint evhtp_kv_find (kvs : list (string * string)) (key : string) : option string :=
  match kvs with
  | [] => None
  | (k, v) :: rest => if strcasecmp_eq k key then Some v else evhtp_kv_find rest key
  end.

(** ** The functions of upload-file.c *)

Definition NL : string := String LF "".

(** [g_strcmp0 (a, b) == 0] for a nullable [a]. *)
Definition g_strcmp0_eq (a : option string) (b : string) : bool :=
  match a with
  | Some a' => String.eqb a' b
  | None => false
  end.

Fixpoint filename_exists (entries : list string) (filename : string) : bool :=
  match entries with
  | [] => false
  | name :: rest =>
      if String.eqb name filename then true else filename_exists rest filename
  end.

(** [split_filename]: the name before the last dot and the extension after
    it ([None] for the NULL of a name without a dot). *)
Definition split_filename (filename : string) : string * option string :=
  match strrchr filename "." with
  | Some dot =>
      (g_strndup filename 0 dot,
       Some (str_drop (S dot) filename))
  | None => (filename, None)
  end.

(** [g_strdup_printf ("%s (%d).%s", name, i, ext)], or without the
    extension when there is none. *)
Definition numbered_name (name : string) (ext : option string) (i : Z) : string :=
  match ext with
  | Some e => name +:+ " (" +:+ pretty i +:+ ")." +:+ e
  | None => name +:+ " (" +:+ pretty i +:+ ")"
  end.

(** The [while] loop of [gen_unique_filename]; [None] when the fuel of the
    model runs out. *)
Fixpoint unique_name_loop (fuel : nat) (dir : list string) (name : string)
    (ext : option string) (unique_name : string) (i : Z) : option string :=
  match fuel with
  | 0 => None
  | S fuel' =>
      if filename_exists dir unique_name && (i <=? 16)%Z
      then unique_name_loop fuel' dir name ext (numbered_name name ext i) (i + 1)%Z
      else Some unique_name
  end.

Definition get_mime_header_param_value (param : string) : option string :=
  match strchr param DQUOTE, strrchr param DQUOTE with
  | Some first_quote, Some last_quote =>
      if (first_quote =? last_quote)%nat then None
      else Some (g_strndup param (S first_quote) (last_quote - first_quote - 1))
  | _, _ => None
  end.

Definition get_http_header_param_value (param : string) : option string :=
  match strchr param "=" with
  | Some equal => Some (str_drop (S equal) param)
  | None => None
  end.

(** The loops [for (p = params; *p != NULL; ++p)]: at the first parameter
    that starts with [key], whatever the case of its letters, take [value]
    of it and leave the loop; [cur] is what the variable held before. *)
Fixpoint find_param (value : string -> option string) (key : string)
    (params : list string) (cur : option string) : option string :=
  match params with
  | [] => cur
  | p :: rest =>
      if strncasecmp_eq p key (String.length key) then value p
      else find_param value key rest cur
  end.

Definition parse_mime_header (header : string) (fsm : RecvFSM) : Z * RecvFSM :=
  match strchr header ":" with
  | None => ((-1)%Z, fsm)
  | Some colon =>
      if String.eqb (str_take colon header) "Content-Disposition" then
        let params := map g_strstrip (g_strsplit (str_drop (S colon) header) ";") in
        if (length params <? 2)%nat then ((-1)%Z, fsm)
        else if negb (strcasecmp_eq (nth 0 params "") "form-data") then ((-1)%Z, fsm)
        else
          let fsm1 :=
            set_input_name
              (find_param get_mime_header_param_value "name" params (input_name fsm))
              fsm in
          match input_name fsm1 with
          | None => ((-1)%Z, fsm1)
          | Some nm =>
              if String.eqb nm "file" then
                let fsm2 :=
                  set_file_name
                    (find_param get_mime_header_param_value "filename" params
                       (file_name fsm1))
                    fsm1 in
                match file_name fsm2 with
                | None => ((-1)%Z, fsm2)
                | Some _ => (0%Z, fsm2)
                end
              else (0%Z, fsm1)
          end
      else (0%Z, fsm)
  end.

(** The descriptor [mkstemp] returns: one that is not open. *)
Definition fresh_fd (open : gmap Z string) : Z :=
  (1 + map_fold (fun k _ m => Z.max k m) 2 open)%Z.

(** [evbuffer_readln (buf, &len, EVBUFFER_EOL_CRLF_STRICT)]: the bytes
    before the first CR LF and what follows it, or [None] when the buffer
    holds no CR LF; the buffer is left as it is in that case. *)
Fixpoint evbuffer_readln (buf : string) : option (string * string) :=
  match buf with
  | "" => None
  | String c rest =>
      match rest with
      | "" => None
      | String c2 rest2 =>
          if Ascii.eqb c CR && Ascii.eqb c2 LF then Some ("", rest2)
          else match evbuffer_readln rest with
               | Some (l, r) => Some (String c l, r)
               | None => None
               end
      end
  end.

Definition evbuffer_get_length (buf : string) : Z := Z.of_nat (String.length buf).

Section Callbacks.

Context (env : Env).

Definition gen_unique_filename (repo_id parent_dir : string)
    (filename : option string) : Outcome (option string) :=
  match seaf_repo_manager_get_repo env repo_id with
  | None => Done None
  | Some head_commit_id =>
      match seaf_commit_manager_get_commit env head_commit_id with
      | None => Done None
      | Some root_id =>
          match seaf_fs_manager_get_seafdir_by_path env root_id parent_dir with
          | None => Done None
          | Some dir =>
              match filename with
              | None => Fault
              | Some filename =>
                  let '(name, ext) := split_filename filename in
                  match unique_name_loop 17 dir name ext filename 1 with
                  | Some unique_name => Done (Some unique_name)
                  | None => OutOfFuel
                  end
              end
          end
      end
  end.

(** [stat (path, &st)]: the size of the file, or [None] for a failure; a
    NULL path fails with EFAULT. *)
Definition stat (w : World) (path : option string) : option Z :=
  match path with
  | None => None
  | Some p => (fun c => Z.of_nat (String.length c)) <$> files w !! p
  end.

(** [writen (fd, data, n)]: all of [data] is appended to the file open at
    [fd]; [None] stands for a negative result. *)
Definition writen (w : World) (fd : Z) (data : string) : option World :=
  match fds w !! fd with
  | None => None
  | Some path =>
      match files w !! path with
      | None => None
      | Some old =>
          if write_ok env path old data
          then Some (set_files (<[path := old +:+ data]> (files w)) w)
          else None
      end
  end.

Definition open_temp_file (fsm : RecvFSM) (w : World) : Z * RecvFSM * World :=
  let temp_file :=
    TEMP_FILE_DIR +:+ "/" +:+ default "(null)" (file_name fsm) +:+ "XXXXXX" in
  match mkstemp_name env (files w) temp_file with
  | None => ((-1)%Z, set_fd (-1) fsm, w)
  | Some path =>
      match files w !! path with
      | Some _ => ((-1)%Z, set_fd (-1) fsm, w)      (* O_EXCL *)
      | None =>
          let newfd := fresh_fd (fds w) in
          (0%Z,
           set_tmp_file (Some path) (set_fd newfd fsm),
           set_fds (<[newfd := path]> (fds w))
             (set_files (<[path := ""]> (files w)) w))
      end
  end.

(** The result, [*no_line] and the new state. *)
Definition recv_form_field (fsm : RecvFSM) : Outcome (evhtp_res * bool * RecvFSM) :=
  match evbuffer_readln (line fsm) with
  | Some (l, rest) =>
      let fsm := set_line rest fsm in
      if strstr (cstr l) (boundary fsm) then
        Done (EVHTP_RES_OK, false,
              set_state RECV_HEADERS (set_input_name None fsm))
      else
        match input_name fsm with
        | None => Fault       (* g_str_hash (NULL) *)
        | Some k =>
            Done (EVHTP_RES_OK, false,
                  set_form_kvs (<[k := cstr l]> (form_kvs fsm)) fsm)
        end
  | None => Done (EVHTP_RES_OK, true, fsm)
  end.

Definition recv_file_data (fsm : RecvFSM) (w : World)
    : evhtp_res * bool * RecvFSM * World :=
  match evbuffer_readln (line fsm) with
  | None =>
      if (MAX_CONTENT_LINE <=? evbuffer_get_length (line fsm))%Z then
        match (if recved_crlf fsm then writen w (fd fsm) CRLF else Some w) with
        | None => (EVHTP_RES_SERVERR, false, fsm, w)
        | Some w1 =>
            (* evbuffer_write: the whole buffer goes to the file *)
            match writen w1 (fd fsm) (line fsm) with
            | None => (EVHTP_RES_SERVERR, false, fsm, w1)
            | Some w2 =>
                (EVHTP_RES_OK, true,
                 set_recved_crlf false (set_line "" fsm), w2)
            end
        end
      else (EVHTP_RES_OK, true, fsm, w)
  | Some (l, rest) =>
      let fsm := set_line rest fsm in
      if strstr (cstr l) (boundary fsm) then
        (EVHTP_RES_OK, false,
         set_state RECV_HEADERS (set_input_name None fsm), w)
      else
        match (if recved_crlf fsm then writen w (fd fsm) CRLF else Some w) with
        | None => (EVHTP_RES_SERVERR, false, fsm, w)
        | Some w1 =>
            match writen w1 (fd fsm) l with
            | None => (EVHTP_RES_SERVERR, false, fsm, w1)
            | Some w2 => (EVHTP_RES_OK, false, set_recved_crlf true fsm, w2)
            end
        end
  end.

(** One turn of the loop [while (!no_line)] of [upload_read_cb]. *)
Inductive Step :=
  | Continue (fsm : RecvFSM) (w : World)                 (* next turn *)
  | Break (res : evhtp_res) (fsm : RecvFSM) (w : World)  (* no_line, or goto out *)
  | Crash.

Definition read_step (fsm : RecvFSM) (w : World) : Step :=
  match state fsm with
  | RECV_INIT =>
      match evbuffer_readln (line fsm) with
      | Some (l, rest) =>
          let fsm := set_line rest fsm in
          if negb (strstr (cstr l) (boundary fsm))
          then Break EVHTP_RES_BADREQ fsm w
          else Continue (set_state RECV_HEADERS fsm) w
      | None => Break EVHTP_RES_OK fsm w
      end
  | RECV_HEADERS =>
      match evbuffer_readln (line fsm) with
      | Some (l, rest) =>
          let fsm := set_line rest fsm in
          if (String.length l =? 0)%nat then
            if g_strcmp0_eq (input_name fsm) "file" then
              let '(r, fsm1, w1) := open_temp_file fsm w in
              if (r <? 0)%Z then Break EVHTP_RES_SERVERR fsm1 w1
              else Continue (set_state RECV_CONTENT fsm1) w1
            else Continue (set_state RECV_CONTENT fsm) w
          else
            let '(r, fsm1) := parse_mime_header (cstr l) fsm in
            if (r <? 0)%Z then Break EVHTP_RES_BADREQ fsm1 w
            else Continue fsm1 w
      | None => Break EVHTP_RES_OK fsm w
      end
  | RECV_CONTENT =>
      if g_strcmp0_eq (input_name fsm) "file" then
        let '(res, no_line, fsm1, w1) := recv_file_data fsm w in
        if negb (bool_decide (res = EVHTP_RES_OK)) then Break res fsm1 w1
        else if no_line then Break EVHTP_RES_OK fsm1 w1
        else Continue fsm1 w1
      else
        match recv_form_field fsm with
        | Done (res, no_line, fsm1) =>
            if negb (bool_decide (res = EVHTP_RES_OK)) then Break res fsm1 w
            else if no_line then Break EVHTP_RES_OK fsm1 w
            else Continue fsm1 w
        | _ => Crash
        end
  | RECV_ERROR => Continue fsm w       (* the switch has no such case *)
  end.

Fixpoint read_loop (fuel : nat) (fsm : RecvFSM) (w : World)
    : Outcome (evhtp_res * RecvFSM * World) :=
  match fuel with
  | 0 => OutOfFuel
  | S fuel' =>
      match read_step fsm w with
      | Continue fsm1 w1 => read_loop fuel' fsm1 w1
      | Break res fsm1 w1 => Done (res, fsm1, w1)
      | Crash => Fault
      end
  end.

(** The code after the label [out] of [upload_read_cb]. *)
Definition read_out (res : evhtp_res) (req : Request) (fsm : RecvFSM)
    : Request * RecvFSM :=
  let '(req1, fsm1) :=
    if negb (bool_decide (res = EVHTP_RES_OK))
    then (pause_and_close req, set_state RECV_ERROR fsm)
    else (req, fsm) in
  let req2 :=
    match res with
    | EVHTP_RES_BADREQ => evhtp_send_reply EVHTP_RES_BADREQ req1
    | EVHTP_RES_SERVERR =>
        evhtp_send_reply EVHTP_RES_SERVERR
          (evbuffer_add_printf ("Internal server error" +:+ NL) req1)
    | _ => req1
    end in
  (req2, fsm1).

Definition upload_read_cb (req : Request) (buf : string) (fsm : RecvFSM)
    (w : World) : Outcome (Request * RecvFSM * World) :=
  if bool_decide (state fsm = RECV_ERROR) then Done (req, fsm, w)
  else
    match heap w !! progress fsm with
    | None => Fault
    | Some pg =>
        let pg1 :=
          Progress.mk
            (wrap64 (Progress.uploaded pg + evbuffer_get_length buf))
            (Progress.size pg) in
        let w1 := set_heap (<[progress fsm := pg1]> (heap w)) w in
        let fsm1 := set_line (line fsm +:+ buf) fsm in
        match read_loop (S (String.length (line fsm1))) fsm1 w1 with
        | Done (res, fsm2, w2) =>
            let '(req2, fsm3) := read_out res req fsm2 in
            Done (req2, fsm3, w2)
        | Fault => Fault
        | OutOfFuel => OutOfFuel
        end
    end.

End Callbacks.

Definition get_boundary (hdr : list (string * string)) : option string :=
  match evhtp_kv_find hdr "Content-Type" with
  | None => None
  | Some content_type =>
      let params := map g_strstrip (g_strsplit content_type ";") in
      if (length params <? 2)%nat then None
      else if negb (strcasecmp_eq (nth 0 params "") "multipart/form-data") then None
      else find_param get_http_header_param_value "boundary" params None
  end.

(** The content length and the progress id, or [None] for the result -1. *)
Definition get_progress_info (req : Request) (hdr : list (string * string))
    : option (Z * string) :=
  match evhtp_kv_find hdr "Content-Length" with
  | None => None
  | Some content_len_str =>
      let content_len := strtoll content_len_str in
      match evhtp_kv_find (uri_query req) "X-Progress-ID" with
      | None => None
      | Some uuid => Some (content_len, uuid)
      end
  end.

(** The address [g_new0] returns: one that is not allocated. *)
Definition fresh_addr (h : gmap nat Progress.t) : nat :=
  S (map_fold (fun k _ m => Nat.max k m) 0 h).

(** [g_hash_table_insert (upload_progress, g_strdup (id), progress)]: a
    value already stored under the key is freed. *)
Definition registry_insert (id : string) (addr : nat) (w : World) : World :=
  let h :=
    match upload_progress w !! id with
    | Some old => delete old (heap w)
    | None => heap w
    end in
  set_upload_progress (<[id := addr]> (upload_progress w)) (set_heap h w).

(** [g_hash_table_remove (upload_progress, id)]: the value is freed. *)
Definition registry_remove (id : string) (w : World) : World :=
  match upload_progress w !! id with
  | Some addr =>
      set_upload_progress (delete id (upload_progress w))
        (set_heap (delete addr (heap w)) w)
  | None => w
  end.

Section Lifecycle.

Context (env : Env).

Definition check_access_token (token : string) : option (string * string) :=
  seafile_web_query_access_token env token.

(** The code after the label [err] of [upload_headers_cb]. *)
Definition headers_err (err_msg : option string) (req : Request) : Request :=
  let req1 := pause_and_close req in
  let req2 :=
    match err_msg with
    | Some m => evbuffer_add_printf (m +:+ NL) req1
    | None => req1
    end in
  evhtp_send_reply EVHTP_RES_BADREQ req2.

(** The request, the state machine hooked to it (if any) and the world. *)
Definition upload_headers_cb (req : Request) (hdr : list (string * string))
    (w : World) : Request * option RecvFSM * World :=
  match uri_file req with
  | None => (headers_err (Some "Invalid URL") req, None, w)
  | Some token =>
      match check_access_token token with
      | None => (headers_err (Some "Access denied") req, None, w)
      | Some (repo_id, user) =>
          match get_boundary hdr with
          | None => (headers_err None req, None, w)
          | Some boundary =>
              match get_progress_info req hdr with
              | None => (headers_err None req, None, w)
              | Some (content_len, progress_id) =>
                  let addr := fresh_addr (heap w) in
                  let w1 :=
                    set_heap (<[addr := Progress.mk 0 content_len]> (heap w)) w in
                  let fsm :=
                    {| state := RECV_INIT; repo_id := repo_id; user := user;
                       boundary := boundary; input_name := None; line := "";
                       form_kvs := ∅; recved_crlf := false; file_name := None;
                       tmp_file := None; fd := 0; progress_id := progress_id;
                       progress := addr |} in
                  (req, Some fsm, registry_insert progress_id addr w1)
              end
          end
      end
  end.

(** A NULL [filename] is escaped to NULL by [g_uri_escape_string] and
    printed as [(null)] by [snprintf]; the redirect is sent all the same. *)
Definition redirect_to_upload_error (req : Request) (repo_id parent_dir : string)
    (filename : option string) (error_code : UploadError) : Request :=
  evhtp_send_reply EVHTP_RES_FOUND
    (add_location (UploadErrorPage repo_id parent_dir filename error_code) req).

Definition redirect_to_success_page (req : Request) (repo_id parent_dir : string)
    : Request :=
  evhtp_send_reply EVHTP_RES_FOUND (add_location (SuccessPage repo_id parent_dir) req).

Definition upload_cb (req : Request) (arg : option RecvFSM) (w : World)
    : Outcome Request :=
  match arg with
  | None => Done req
  | Some fsm =>
      if bool_decide (state fsm = RECV_ERROR) then Done req
      else
        match form_kvs fsm !! "parent_dir" with
        | None =>
            Done (evhtp_send_reply EVHTP_RES_BADREQ
                    (evbuffer_add_printf ("Invalid URL." +:+ NL) req))
        | Some parent_dir =>
            let error code :=
              redirect_to_upload_error req (repo_id fsm) parent_dir
                (file_name fsm) code in
            match stat w (tmp_file fsm) with
            | None => Done (error ERROR_RECV)
            | Some st_size =>
                if (MAX_UPLOAD_FILE_SIZE <? st_size)%Z then Done (error ERROR_SIZE)
                else if (seafile_check_quota env (repo_id fsm) <? 0)%Z
                then Done (error ERROR_QUOTA)
                else
                  match gen_unique_filename env (repo_id fsm) parent_dir
                          (file_name fsm) with
                  | Done None => Done (error ERROR_INTERNAL)
                  | Done (Some unique_name) =>
                      match seafile_post_file env (repo_id fsm)
                              (default "" (tmp_file fsm)) parent_dir
                              unique_name (user fsm) with
                      | Some message =>
                          if String.eqb message "Invalid filename"
                          then Done (error ERROR_FILENAME)
                          else if String.eqb message "file already exists"
                          then Done (error ERROR_EXISTS)
                          else Done (error ERROR_INTERNAL)
                      | None =>
                          Done (redirect_to_success_page req (repo_id fsm) parent_dir)
                      end
                  | Fault => Fault
                  | OutOfFuel => OutOfFuel
                  end
            end
        end
  end.

(** [upload_finish_cb]: the state machine is freed; what remains is the
    world. *)
Definition upload_finish_cb (arg : option RecvFSM) (w : World) : World :=
  match arg with
  | None => w
  | Some fsm =>
      let w1 :=
        match tmp_file fsm with
        | Some path =>
            (* close (fsm->fd); g_unlink (fsm->tmp_file) *)
            set_files (delete path (files w)) (set_fds (delete (fd fsm) (fds w)) w)
        | None => w
        end in
      registry_remove (progress_id fsm) w1
  end.

Definition upload_progress_cb (req : Request) (w : World) : Outcome Request :=
  match evhtp_kv_find (uri_query req) "X-Progress-ID" with
  | None => Done (evhtp_send_reply EVHTP_RES_BADREQ req)
  | Some progress_id =>
      match evhtp_kv_find (uri_query req) "callback" with
      | None => Done (evhtp_send_reply EVHTP_RES_BADREQ req)
      | Some callback =>
          match upload_progress w !! progress_id with
          | None => Done (evhtp_send_reply EVHTP_RES_BADREQ req)
          | Some addr =>
              match heap w !! addr with
              | None => Fault
              | Some pg =>
                  let buf :=
                    callback +:+ "({" +:+ String DQUOTE "uploaded"
                      +:+ String DQUOTE ": " +:+ pretty (Progress.uploaded pg)
                      +:+ ", " +:+ String DQUOTE "length"
                      +:+ String DQUOTE ": " +:+ pretty (Progress.size pg)
                      +:+ "});" in
                  Done (evhtp_send_reply EVHTP_RES_OK
                          (evbuffer_add_printf buf req))
              end
          end
      end
  end.

(** Delivering the chunks of a body one after the other. *)
Fixpoint read_chunks (req : Request) (chunks : list string) (fsm : RecvFSM)
    (w : World) : Outcome (Request * RecvFSM * World) :=
  match chunks with
  | [] => Done (req, fsm, w)
  | buf :: rest =>
      match upload_read_cb env req buf fsm w with
      | Done (req1, fsm1, w1) => read_chunks req1 rest fsm1 w1
      | Fault => Fault
      | OutOfFuel => OutOfFuel
      end
  end.

End Lifecycle.

(** ** Definitions of the specification *)

(** The candidates of the specification: the name with " (1)" to " (16)"
    put before the extension. *)
Definition unique_name_candidates (filename : string) : list string :=
  numbered_name (split_filename filename).1 (split_filename filename).2 <$> seqZ 1 16.

(** The name the specification asks for: the submitted one when it is
    free, else the first free candidate, else the sixteenth. *)
Definition unique_name_spec (dir : list string) (filename : string) : string :=
  if filename_exists dir filename then
    match find (fun c => negb (filename_exists dir c)) (unique_name_candidates filename) with
    | Some c => c
    | None =>
        numbered_name (split_filename filename).1 (split_filename filename).2 16
    end
  else filename.

(** The last candidate tried, when each one before it collides. *)
Fixpoint pick_name (dir : list string) (cands : list string) (cur : string) : string :=
  match cands with
  | [] => cur
  | c :: cs => if filename_exists dir c then pick_name dir cs c else c
  end.

(** The letters of a string in lower case, and the test that [p] starts
    with [key] whatever the case of the letters. *)
Fixpoint lower (s : string) : string :=
  match s with
  | "" => ""
  | String c r => String (tolower c) (lower r)
  end.

Definition starts_with_ci (key p : string) : bool := has_prefix (lower key) (lower p).

(** The body of the JSONP answer of the progress endpoint. *)
Definition jsonp_body (callback : string) (u s : Z) : string :=
  callback +:+ "({" +:+ String DQUOTE "uploaded" +:+ String DQUOTE ": " +:+ pretty u
    +:+ ", " +:+ String DQUOTE "length" +:+ String DQUOTE ": " +:+ pretty s +:+ "});".

Fixpoint all_digits (s : string) : bool :=
  match s with
  | "" => true
  | String c r => bool_decide (is_Some (digit_val c)) && all_digits r
  end.

(** ** A test environment *)

Definition six_digits (n : nat) : string :=
  let s := pretty n in
  str_take (6 - String.length s) "000000" +:+ s.

(** A [mkstemp] that numbers the files it makes. *)
Definition mkstemp_counter (fs : gmap string string) (template : string) : option string :=
  if (String.length template <? 6)%nat then None
  else Some (str_take (String.length template - 6) template +:+ six_digits (size fs)).

Definition test_env : Env := {|
  mkstemp_name := mkstemp_counter;
  write_ok := fun _ _ _ => true;
  seafile_web_query_access_token := fun token =>
    if String.eqb token "token1" then Some ("repo1", "alice") else None;
  seafile_check_quota := fun _ => 0%Z;
  seaf_repo_manager_get_repo := fun repo =>
    if String.eqb repo "repo1" then Some "commit1" else None;
  seaf_commit_manager_get_commit := fun id =>
    if String.eqb id "commit1" then Some "root1" else None;
  seaf_fs_manager_get_seafdir_by_path := fun root path =>
    if String.eqb path "/docs" then Some ["a.txt"; "a (1).txt"] else None;
  seafile_post_file := fun _ _ _ _ _ => None;
|}.

Definition empty_world : World :=
  {| files := ∅; fds := ∅; heap := ∅; upload_progress := ∅ |}.

Definition test_request (query : list (string * string)) : Request :=
  {| uri_file := Some "token1"; uri_query := query; buffer_out := "";
     location := None; keepalive := true; paused := false; reply := None |}.

Definition test_headers (content_length : string) : list (string * string) :=
  [("Content-Type", "multipart/form-data; boundary=X");
   ("Content-Length", content_length)].

(** The request of the examples after its headers: the state machine and
    the world [upload_headers_cb] leaves. *)
Definition started : option (Request * RecvFSM * World) :=
  match upload_headers_cb test_env (test_request [("X-Progress-ID", "p1")])
          (test_headers "187") empty_world with
  | (req, Some fsm, w) => Some (req, fsm, w)
  | _ => None
  end.

(** The example request fed with the chunks of a body. *)
Definition run_chunks (chunks : list string) : Outcome (Request * RecvFSM * World) :=
  match started with
  | Some (req, fsm, w) => read_chunks test_env req chunks fsm w
  | None => Fault
  end.

(** Every entry of the registry points to an allocated [Progress]. *)
Definition registry_ok (w : World) : Prop :=
  forall id addr, upload_progress w !! id = Some addr -> is_Some (heap w !! addr).

(** A body with a single form field that is not [parent_dir]. *)
Definition other_field_body : string :=
  "--X" +:+ CRLF
  +:+ "Content-Disposition: form-data; name=" +:+ String DQUOTE "other"
  +:+ String DQUOTE "" +:+ CRLF +:+ CRLF
  +:+ "v" +:+ CRLF +:+ "--X--" +:+ CRLF.

Definition quoted (s : string) : string := String DQUOTE s +:+ String DQUOTE "".

(** A state machine as [upload_headers_cb] makes it, for the boundary [X]. *)
Definition init_fsm : RecvFSM :=
  {| state := RECV_INIT; repo_id := "repo1"; user := "alice"; boundary := "X";
     input_name := None; line := ""; form_kvs := ∅; recved_crlf := false;
     file_name := None; tmp_file := None; fd := 0; progress_id := "p1";
     progress := 1 |}.

(** What the read callback leaves alone in the state machine and in the
    world. *)
Definition same_request (f f' : RecvFSM) : Prop :=
  repo_id f' = repo_id f /\ user f' = user f /\ boundary f' = boundary f
  /\ progress_id f' = progress_id f /\ progress f' = progress f.

Definition same_heap (w w' : World) : Prop :=
  heap w' = heap w /\ upload_progress w' = upload_progress w.

(** The loop of [upload_read_cb] as a relation: the turns taken from a
    state until the loop is left. *)
Inductive runs_to (env : Env) : RecvFSM -> World -> evhtp_res * RecvFSM * World -> Prop :=
  | runs_break fsm w res fsm' w' :
      read_step env fsm w = Break res fsm' w' ->
      runs_to env fsm w (res, fsm', w')
  | runs_continue fsm w fsm1 w1 r :
      read_step env fsm w = Continue fsm1 w1 ->
      runs_to env fsm1 w1 r ->
      runs_to env fsm w r.

Definition total_length (chunks : list string) : Z :=
  foldr (fun buf n => (evbuffer_get_length buf + n)%Z) 0%Z chunks.

(** *** Bodies of the examples, for the boundary [X] *)

Definition field_part_header (name : string) : string :=
  "--X" +:+ CRLF
  +:+ "Content-Disposition: form-data; name=" +:+ quoted name +:+ CRLF +:+ CRLF.

Definition file_part_header (filename : string) : string :=
  "--X" +:+ CRLF
  +:+ "Content-Disposition: form-data; name=" +:+ quoted "file"
  +:+ "; filename=" +:+ quoted filename +:+ CRLF +:+ CRLF.

Definition closing : string := "--X--" +:+ CRLF.

(** Scenario 1 of the specification. *)
Definition simple_body : string :=
  field_part_header "parent_dir" +:+ "/docs" +:+ CRLF
  +:+ file_part_header "a.txt" +:+ "hello" +:+ CRLF +:+ closing.

Fixpoint str_repeat (c : ascii) (n : nat) : string :=
  match n with
  | 0 => ""
  | S k => String c (str_repeat c k)
  end.

(** A file of 10239 letters, delivered with the chunk boundary between the
    CR and the LF that end it. *)
Definition long_payload : string := str_repeat "a" (Z.to_nat 10239).

Definition long_first_chunk : string :=
  file_part_header "a.txt" +:+ long_payload +:+ String CR "".

Definition long_second_chunk : string := String LF "" +:+ closing.

(** A body with two file parts. *)
Definition two_files_body : string :=
  file_part_header "a.txt" +:+ "one" +:+ CRLF
  +:+ file_part_header "a.txt" +:+ "two" +:+ CRLF +:+ closing.

(** A body whose first part has no header at all. *)
Definition headerless_body : string := "--X" +:+ CRLF +:+ CRLF.

(** The temp files an outcome leaves, with their contents. *)
Definition temp_files (o : Outcome (Request * RecvFSM * World))
    : option (list (string * string)) :=
  match o with
  | Done (_, _, w) => Some (map_to_list (files w))
  | _ => None
  end.

Definition form_fields (o : Outcome (Request * RecvFSM * World))
    : option (list (string * string)) :=
  match o with
  | Done (_, fsm, _) => Some (map_to_list (form_kvs fsm))
  | _ => None
  end.

(** *** Multipart bodies *)

(** The lines of a buffer: what lies between its CR LF pairs, read from the
    left. *)
Fixpoint crlf_lines (s : string) : list string :=
  match s with
  | "" => [""]
  | String c r =>
      match r with
      | "" => [String c ""]
      | String c2 r2 =>
          if Ascii.eqb c CR && Ascii.eqb c2 LF then "" :: crlf_lines r2
          else match crlf_lines r with
               | l :: ls => String c l :: ls
               | [] => [String c ""]
               end
      end
  end.

(** Every line is short enough for the buffer never to reach
    [MAX_CONTENT_LINE] before the line is complete. *)
Definition short_lines (s : string) : bool :=
  forallb (fun l => (Z.of_nat (String.length l) + 1 <? MAX_CONTENT_LINE)%Z) (crlf_lines s).

Definition field_disposition (name : string) : string :=
  "Content-Disposition: form-data; name=" +:+ quoted name.

Definition file_disposition (filename : string) : string :=
  "Content-Disposition: form-data; name=" +:+ quoted "file"
  +:+ "; filename=" +:+ quoted filename.

(** A body with the field [parent_dir] of value [P] and then the file part:
    file name [fn], content type [ct], payload [B]. *)
Definition multipart_body (bnd P fn ct B : string) : string :=
  ("--" +:+ bnd) +:+ CRLF
  +:+ field_disposition "parent_dir" +:+ CRLF
  +:+ CRLF
  +:+ P +:+ CRLF
  +:+ ("--" +:+ bnd) +:+ CRLF
  +:+ file_disposition fn +:+ CRLF
  +:+ ("Content-Type: " +:+ ct) +:+ CRLF
  +:+ CRLF
  +:+ B +:+ CRLF
  +:+ ("--" +:+ bnd +:+ "--") +:+ CRLF.

Fixpoint str_concat (chunks : list string) : string :=
  match chunks with
  | [] => ""
  | c :: rest => c +:+ str_concat rest
  end.

(** Turns of the loop that go on. *)
Inductive steps (env : Env) : RecvFSM -> World -> RecvFSM -> World -> Prop :=
  | steps_refl fsm w : steps env fsm w fsm w
  | steps_step fsm w fsm1 w1 fsm2 w2 :
      read_step env fsm w = Continue fsm1 w1 ->
      steps env fsm1 w1 fsm2 w2 ->
      steps env fsm w fsm2 w2.

(** More bytes put after the buffer of a state machine. *)
Definition extend (more : string) (fsm : RecvFSM) : RecvFSM :=
  set_line (line fsm +:+ more) fsm.

Definition extend_step (more : string) (s : Step) : Step :=
  match s with
  | Continue fsm w => Continue (extend more fsm) w
  | Break res fsm w => Break res (extend more fsm) w
  | Crash => Crash
  end.

Definition heap_step (h : gmap nat Progress.t) (s : Step) : Step :=
  match s with
  | Continue fsm w => Continue fsm (set_heap h w)
  | Break res fsm w => Break res fsm (set_heap h w)
  | Crash => Crash
  end.

(** The world of the examples after [upload_headers_cb]. *)
Definition started_world : World :=
  set_heap {[1 := Progress.mk 0 187]} (set_upload_progress {["p1" := 1]} empty_world).

(** A body of the shape [multipart_body] with a payload of two lines, and
    one whose payload holds the boundary. *)
Definition two_line_body : string :=
  multipart_body "X" "/docs" "a.txt" "text/plain" ("hello" +:+ CRLF +:+ "world").

Definition boundary_in_payload_body : string :=
  multipart_body "X" "/docs" "a.txt" "text/plain" "aXb".

(** *** The state machine along a body *)

(** The file part is being received. *)
Definition in_file_content (fsm : RecvFSM) : bool :=
  bool_decide (state fsm = RECV_CONTENT) && g_strcmp0_eq (input_name fsm) "file".

(** Turns of the loop that go on, none of them within the file part. *)
Inductive steps_outside (env : Env) : RecvFSM -> World -> RecvFSM -> World -> Prop :=
  | steps_outside_refl fsm w : steps_outside env fsm w fsm w
  | steps_outside_step fsm w fsm1 w1 fsm2 w2 :
      in_file_content fsm = false ->
      read_step env fsm w = Continue fsm1 w1 ->
      steps_outside env fsm1 w1 fsm2 w2 ->
      steps_outside env fsm w fsm2 w2.

Definition closing_line (bnd : string) : string := "--" +:+ bnd +:+ "--".

(** What follows the payload in a body: CR LF, the closing boundary line and
    its CR LF. *)
Definition after_payload (bnd : string) : string :=
  CRLF +:+ closing_line bnd +:+ CRLF.

Fixpoint tails (chunks : list string) : list (list string) :=
  chunks :: match chunks with
            | [] => []
            | _ :: rest => tails rest
            end.

(** No chunk ends between the CR and the LF that follow the payload: what
    is left to deliver after a chunk is never LF, closing boundary line,
    CR LF. *)
Definition closing_unsplit (bnd : string) (chunks : list string) : bool :=
  forallb
    (fun rest => negb (String.eqb (str_concat rest) (String LF (closing_line bnd +:+ CRLF))))
    (tails chunks).

Section Receiving.

Context (env : Env) (bnd P fn B path : string).

(** The fields the file part relies on. *)
Definition file_fields (fsm : RecvFSM) (w : World) : Prop :=
  boundary fsm = bnd
  /\ form_kvs fsm !! "parent_dir" = Some P
  /\ file_name fsm = Some fn
  /\ tmp_file fsm = Some path
  /\ fds w !! fd fsm = Some path.

(** Within the payload: [S] is what is left of the body, [B2] what is left
    of the payload; what the file holds, the CR LF held back, and [B2] make
    the payload. *)
Definition in_payload (fsm : RecvFSM) (w : World) (S : string) : Prop :=
  state fsm = RECV_CONTENT /\ input_name fsm = Some "file" /\ file_fields fsm w
  /\ exists written B2,
       files w !! path = Some written
       /\ written +:+ (if recved_crlf fsm then CRLF else "") +:+ B2 = B
       /\ strstr B2 bnd = false
       /\ S = B2 +:+ after_payload bnd.

(** The payload is in the file, its CR LF held back; the closing boundary
    line is what is left. *)
Definition at_closing (fsm : RecvFSM) (w : World) (S : string) : Prop :=
  state fsm = RECV_CONTENT /\ input_name fsm = Some "file" /\ file_fields fsm w
  /\ files w !! path = Some B
  /\ recved_crlf fsm = true
  /\ S = closing_line bnd +:+ CRLF.

Definition finished (fsm : RecvFSM) (w : World) (S : string) : Prop :=
  state fsm = RECV_HEADERS /\ file_fields fsm w
  /\ files w !! path = Some B
  /\ S = "".

(** Before the payload: the turns of the loop on what is left of the body
    reach the start of the payload without a turn within a file part. *)
Definition in_head (fsm : RecvFSM) (w : World) (S : string) : Prop :=
  in_file_content fsm = false /\ state fsm <> RECV_ERROR
  /\ exists FS WS,
       steps_outside env (set_line S fsm) w FS WS /\ in_payload FS WS (line FS).

(** Where the state machine is in the body, [S] being what is left of it:
    the buffer and the bytes still to come. *)
Definition receiving (fsm : RecvFSM) (w : World) (S : string) : Prop :=
  in_head fsm w S \/ in_payload fsm w S \/ at_closing fsm w S \/ finished fsm w S.

End Receiving.

(** A payload with a line of 12000 letters, and the two chunks of its body
    of which the first ends 11000 bytes into the body: the start of the line
    is flushed before its end has come. *)
Definition long_line_payload : string :=
  str_repeat "a" (Z.to_nat 12000) +:+ CRLF +:+ "end".

Definition long_line_body : string :=
  multipart_body "X" "/docs" "a.txt" "text/plain" long_line_payload.

Definition long_line_chunks : list string :=
  [str_take (Z.to_nat 11000) long_line_body; str_drop (Z.to_nat 11000) long_line_body].

(** ** The route /update/ *)

Definition G_DIR_SEPARATOR : ascii := "/"%char.

(** The loop of [g_path_get_dirname] that steps [base] back over the
    separators before the last one, down to the start of the name. *)
Fixpoint dirname_end (file_name : string) (base : nat) : nat :=
  match base with
  | 0 => 0
  | S b =>
      match String.get base file_name with
      | Some c => if Ascii.eqb c G_DIR_SEPARATOR then dirname_end file_name b else base
      | None => base
      end
  end.

(** GLib's [g_path_get_dirname]: what is before the last separator, without
    the separators that end it; [.] for a name without separator. *)
Definition g_path_get_dirname (file_name : string) : string :=
  match strrchr file_name G_DIR_SEPARATOR with
  | None => "."
  | Some base => str_take (S (dirname_end file_name base)) file_name
  end.

(** The offset of the last byte that is not a separator, if there is one. *)
Fixpoint last_nonslash (s : string) : option nat :=
  match s with
  | "" => None
  | String c r =>
      match last_nonslash r with
      | Some i => Some (S i)
      | None => if Ascii.eqb c G_DIR_SEPARATOR then None else Some 0
      end
  end.

(** GLib's [g_path_get_basename]: the last component of the name, the
    separators that end the name left aside; [.] for the empty name and the
    separator for a name of separators only. *)
Definition g_path_get_basename (file_name : string) : string :=
  match file_name with
  | "" => "."
  | _ =>
      match last_nonslash file_name with
      | None => String G_DIR_SEPARATOR ""
      | Some last =>
          let stem := str_take (S last) file_name in
          match strrchr stem G_DIR_SEPARATOR with
          | Some base => str_drop (S base) stem
          | None => stem
          end
      end
  end.

(** The Location [redirect_to_update_error] adds.  The field [location] of
    a [Request] holds the redirects of the route /upload/; the one of the
    update-error page is kept beside the request. *)
Inductive UpdateRedirect :=
  | UpdateErrorPage (repo target_file : string) (err : UploadError).

Section Update.

Context (env : Env).
(* repo, temp file, parent dir, name, user; the error message, if any *)
Context (seafile_put_file : string -> string -> string -> string -> string -> option string).

Definition redirect_to_update_error (req : Request) (repo_id target_file : string)
    (error_code : UploadError) : Request * option UpdateRedirect :=
  (evhtp_send_reply EVHTP_RES_FOUND req,
   Some (UpdateErrorPage repo_id target_file error_code)).

Definition update_cb (req : Request) (arg : option RecvFSM) (w : World)
    : Request * option UpdateRedirect :=
  match arg with
  | None => (req, None)
  | Some fsm =>
      if bool_decide (state fsm = RECV_ERROR) then (req, None)
      else
        match form_kvs fsm !! "target_file" with
        | None =>
            (evhtp_send_reply EVHTP_RES_BADREQ
               (evbuffer_add_printf ("Invalid URL." +:+ NL) req), None)
        | Some target_file =>
            let parent_dir := g_path_get_dirname target_file in
            let filename := g_path_get_basename target_file in
            let error code :=
              redirect_to_update_error req (repo_id fsm) target_file code in
            match stat w (tmp_file fsm) with
            | None => error ERROR_RECV
            | Some st_size =>
                if (MAX_UPLOAD_FILE_SIZE <? st_size)%Z then error ERROR_SIZE
                else if (seafile_check_quota env (repo_id fsm) <? 0)%Z
                then error ERROR_QUOTA
                else
                  match seafile_put_file (repo_id fsm) (default "" (tmp_file fsm))
                          parent_dir filename (user fsm) with
                  | Some message =>
                      if String.eqb message "file does not exist"
                      then error ERROR_NOT_EXIST
                      else error ERROR_INTERNAL
                  | None =>
                      (redirect_to_success_page req (repo_id fsm) parent_dir, None)
                  end
            end
        end
  end.

End Update.

(** ** Invariants and inputs of the read callback *)

(** What the turns of a file part rely on: outside the error state the
    input [file] has a file name, and while file content is received the
    temp file exists and [fd] is a descriptor open on it. *)
Definition file_part_ready (fsm : RecvFSM) (w : World) : Prop :=
  (state fsm <> RECV_ERROR -> input_name fsm = Some "file" -> is_Some (file_name fsm))
  /\ (in_file_content fsm = true ->
      exists path,
        tmp_file fsm = Some path /\ fds w !! fd fsm = Some path
        /\ is_Some (files w !! path)).

(** From one state of the request to a later one: the files that were
    there are as they were, the temp file of the state machine apart, and
    none of them has become its temp file; the descriptors that were open
    are open on the same files. *)
Definition keeps_files (fsm : RecvFSM) (w : World) (fsm' : RecvFSM) (w' : World)
    : Prop :=
  (forall p c, files w !! p = Some c -> tmp_file fsm <> Some p ->
     files w' !! p = Some c /\ tmp_file fsm' <> Some p)
  /\ (forall d p, fds w !! d = Some p -> fds w' !! d = Some p).

(** Lines put one after the other, each with its CR LF. *)
Definition crlf_join (ls : list string) : string :=
  str_concat (map (fun l => l +:+ CRLF) ls).

(** ** The text of the redirects *)

(** The characters GLib's [g_uri_escape_string] leaves as they are when no
    reserved character is allowed: letters, digits and [-._~]. *)
Definition is_unreserved (c : ascii) : bool :=
  let n := N_of_ascii c in
  ((65 <=? n) && (n <=? 90) || (97 <=? n) && (n <=? 122) || (48 <=? n) && (n <=? 57)
   || (n =? 45) || (n =? 46) || (n =? 95) || (n =? 126))%N.

Definition hex_digit (n : N) : ascii :=
  match n with
  | 0 => "0" | 1 => "1" | 2 => "2" | 3 => "3" | 4 => "4" | 5 => "5" | 6 => "6"
  | 7 => "7" | 8 => "8" | 9 => "9" | 10 => "A" | 11 => "B" | 12 => "C"
  | 13 => "D" | 14 => "E" | _ => "F"
  end%char%N.

(** [g_uri_escape_string (s, NULL, FALSE)]: every byte that is not
    unreserved becomes [%] and its two hexadecimal digits. *)
Fixpoint g_uri_escape_string (s : string) : string :=
  match s with
  | "" => ""
  | String c r =>
      if is_unreserved c then String c (g_uri_escape_string r)
      else
        String "%"
          (String (hex_digit (N_of_ascii c / 16))
             (String (hex_digit (N_of_ascii c mod 16)) (g_uri_escape_string r)))
  end.

(** [snprintf (url, 1024, ...)]: of the text that is printed the first
    1023 bytes are kept. *)
Definition snprintf_url (text : string) : string := str_take 1023 text.

(** The text the handlers print for a redirect of the route /upload/;
    [seahub_url] is the service URL of the session.  The escaped form of a
    NULL file name is NULL, printed as [(null)]. *)
Definition upload_error_text (seahub_url repo parent_dir : string)
    (fn : option string) (err : UploadError) : string :=
  seahub_url +:+ "/repo/upload_error/" +:+ repo
  +:+ "?p=" +:+ g_uri_escape_string parent_dir
  +:+ "&fn=" +:+ from_option g_uri_escape_string "(null)" fn
  +:+ "&err=" +:+ pretty (error_code err).

Definition location_url (seahub_url : string) (l : Redirect) : string :=
  match l with
  | UploadErrorPage repo parent_dir fn err =>
      snprintf_url (upload_error_text seahub_url repo parent_dir fn err)
  | SuccessPage repo parent_dir =>
      snprintf_url
        (seahub_url +:+ "/repo/" +:+ repo +:+ "?p=" +:+ g_uri_escape_string parent_dir)
  end.

(** The same for the redirect of [redirect_to_update_error]. *)
Definition update_location_url (seahub_url : string) (l : UpdateRedirect) : string :=
  match l with
  | UpdateErrorPage repo target_file err =>
      snprintf_url
        (seahub_url +:+ "/repo/update_error/" +:+ repo
         +:+ "?p=" +:+ g_uri_escape_string target_file
         +:+ "&err=" +:+ pretty (error_code err))
  end.

(** Every byte of a string passes a test. *)
Fixpoint str_forall (f : ascii -> bool) (s : string) : bool :=
  match s with
  | "" => true
  | String c r => f c && str_forall f r
  end.

(** What [upload_cb] relies on: outside the error state a state machine
    that has a temp file has a file name. *)
Definition temp_file_named (fsm : RecvFSM) : Prop :=
  state fsm <> RECV_ERROR -> is_Some (tmp_file fsm) -> is_Some (file_name fsm).

(** * Properties *)

(** ** Unique file names *)

Lemma strrchr_split s c i :
  strrchr s c = Some i ->
  s = str_take i s +:+ String c (str_drop (S i) s) /\ strchr (str_drop (S i) s) c = None.
Proof.
  revert i. induction s as [|a r IH]; intros i H; simpl in H; [discriminate|].
  destruct (strrchr r c) as [j|] eqn:Hj.
  - injection H as <-. destruct (IH j eq_refl) as [Hs Hn]. simpl. split; [|exact Hn].
    unfold String.app. simpl. f_equal. exact Hs.
  - destruct (Ascii.eqb_spec a c) as [->|Hne]; [|discriminate].
    injection H as <-. simpl. split; [reflexivity|].
    clear IH. induction r as [|b r IHr]; [reflexivity|].
    simpl in Hj |- *. destruct (strrchr r c); [discriminate|].
    destruct (Ascii.eqb b c); [discriminate|]. rewrite IHr; auto.
Qed.

Lemma strrchr_None s c : strrchr s c = None -> strchr s c = None.
Proof.
  induction s as [|a r IH]; [reflexivity|]. simpl.
  destruct (strrchr r c); [discriminate|].
  destruct (Ascii.eqb a c); [discriminate|]. intros _. rewrite IH; auto.
Qed.

Lemma unique_name_loop_pick dir name ext (n : nat) :
  forall fuel i unique_name,
    (i = 17 - Z.of_nat n)%Z -> n < fuel ->
    unique_name_loop fuel dir name ext unique_name i =
    Some (if filename_exists dir unique_name
          then pick_name dir (numbered_name name ext <$> seqZ i (Z.of_nat n)) unique_name
          else unique_name).
Proof.
  induction n as [|m IH]; intros fuel i u Hi Hf.
  - destruct fuel as [|f]; [lia|]. simpl. subst i. simpl.
    destruct (filename_exists dir u); reflexivity.
  - destruct fuel as [|f]; [lia|]. simpl.
    destruct (filename_exists dir u) eqn:He; [|reflexivity].
    assert ((i <=? 16)%Z = true) as -> by lia. cbn [andb].
    rewrite (IH f (i + 1)%Z) by lia.
    rewrite (seqZ_cons i) by lia.
    replace (Z.succ i) with (i + 1)%Z by lia.
    replace (Z.pred (Z.of_nat (S m))) with (Z.of_nat m) by lia.
    reflexivity.
Qed.

Lemma last_cons_default (l : list string) a d d' :
  List.last (a :: l) d = List.last (a :: l) d'.
Proof.
  revert a. induction l as [|b l IH]; intros a; [reflexivity|].
  change (List.last (b :: l) d = List.last (b :: l) d'). apply IH.
Qed.

Lemma pick_name_find dir cands cur :
  pick_name dir cands cur =
  match find (fun c => negb (filename_exists dir c)) cands with
  | Some c => c
  | None => List.last cands cur
  end.
Proof.
  revert cur. induction cands as [|c cs IH]; intros cur; [reflexivity|].
  simpl. destruct (filename_exists dir c) eqn:He; simpl; [|reflexivity].
  rewrite IH. destruct (find _ cs); [reflexivity|].
  destruct cs; [reflexivity|]. apply last_cons_default.
Qed.



Example unique_name_second : unique_name_spec ["a.txt"; "a (1).txt"] "a.txt" = "a (2).txt".
Proof. vm_compute. reflexivity. Qed.

Example unique_name_sixteenth :
  unique_name_spec ("a.txt" :: unique_name_candidates "a.txt") "a.txt" = "a (16).txt"
  /\ unique_name_spec ["README"] "README" = "README (1)"
  /\ unique_name_spec ["x"] "a.txt" = "a.txt".
Proof. vm_compute. repeat split. Qed.

(** ** The progress endpoint *)

(** C8: a GET of the progress endpoint is answered BadRequest when the
    query has no X-Progress-ID, or no callback, or the registry has no entry
    for the id; else it is answered 200 with the body
    [callback({"uploaded": u, "length": s});] of the entry's counters. *)
Theorem upload_progress_cb_spec req w :
  (evhtp_kv_find (uri_query req) "X-Progress-ID" = None ->
     upload_progress_cb req w = Done (evhtp_send_reply EVHTP_RES_BADREQ req))
  /\ (evhtp_kv_find (uri_query req) "callback" = None ->
     upload_progress_cb req w = Done (evhtp_send_reply EVHTP_RES_BADREQ req))
  /\ (forall id, evhtp_kv_find (uri_query req) "X-Progress-ID" = Some id ->
     upload_progress w !! id = None ->
     upload_progress_cb req w = Done (evhtp_send_reply EVHTP_RES_BADREQ req))
  /\ (forall id callback addr u s,
     evhtp_kv_find (uri_query req) "X-Progress-ID" = Some id ->
     evhtp_kv_find (uri_query req) "callback" = Some callback ->
     upload_progress w !! id = Some addr ->
     heap w !! addr = Some (Progress.mk u s) ->
     exists req',
       upload_progress_cb req w = Done req'
       /\ reply req' = Some EVHTP_RES_OK
       /\ buffer_out req' = buffer_out req +:+ jsonp_body callback u s).
Proof.
  unfold upload_progress_cb. repeat split.
  - intros ->. reflexivity.
  - intros ->. destruct (evhtp_kv_find _ "X-Progress-ID"); reflexivity.
  - intros id -> Hnone. rewrite Hnone. destruct (evhtp_kv_find _ "callback"); reflexivity.
  - intros id callback addr u s -> -> -> ->. eexists. split; [reflexivity|].
    split; reflexivity.
Qed.

Lemma upload_progress_cb_spec_witness :
  let req := test_request [("X-Progress-ID", "p1"); ("callback", "cb")] in
  let w := set_upload_progress {["p1" := 1]}
             (set_heap {[1 := Progress.mk 42 187]} empty_world) in
  exists req',
    upload_progress_cb req w = Done req'
    /\ reply req' = Some EVHTP_RES_OK
    /\ buffer_out req' = buffer_out req +:+ jsonp_body "cb" 42 187.
Proof.
  intros req w.
  apply (proj2 (proj2 (proj2 (upload_progress_cb_spec req w))) "p1" "cb" 1 42%Z 187%Z);
    reflexivity.
Defined.

Example jsonp_body_example :
  jsonp_body "cb" 42 187
  = "cb({" +:+ String DQUOTE "uploaded" +:+ String DQUOTE ": 42, "
      +:+ String DQUOTE "length" +:+ String DQUOTE ": 187});".
Proof. vm_compute. reflexivity. Qed.

(** ** Header validation *)

Lemma fresh_addr_bound (h : gmap nat Progress.t) k :
  is_Some (h !! k) -> k <= map_fold (fun k _ m => Nat.max k m) 0 h.
Proof.
  revert k. apply (map_fold_weak_ind
    (fun r (m : gmap nat Progress.t) => forall k, is_Some (m !! k) -> k <= r)).
  - intros k [x Hx]. rewrite lookup_empty in Hx. discriminate.
  - intros i x m r Hi IH k [y Hy].
    destruct (decide (i = k)) as [->|Hne]; [lia|].
    rewrite lookup_insert_ne in Hy by exact Hne.
    specialize (IH k (ex_intro _ y Hy)). lia.
Qed.

Lemma fresh_addr_fresh (h : gmap nat Progress.t) : h !! fresh_addr h = None.
Proof.
  destruct (h !! fresh_addr h) eqn:E; [|reflexivity].
  pose proof (fresh_addr_bound h (fresh_addr h) (ex_intro _ _ E)) as Hb.
  unfold fresh_addr in Hb. lia.
Qed.

Lemma strtoll_digits_app d rest acc :
  all_digits d = true ->
  match rest with String c _ => digit_val c = None | "" => True end ->
  strtoll_digits acc (d +:+ rest) = strtoll_digits acc d.
Proof.
  revert acc. induction d as [|c d IH]; intros acc Hd Hrest.
  - unfold String.app. simpl. destruct rest as [|c r]; [reflexivity|].
    simpl. rewrite Hrest. reflexivity.
  - simpl in Hd. apply andb_prop in Hd as [Hc Hd].
    apply bool_decide_eq_true in Hc as [v Hv].
    unfold String.app. simpl. rewrite Hv. apply IH; assumption.
Qed.

Lemma strtoll_digit_head c t :
  is_Some (digit_val c) ->
  strtoll (String c t) = Z.min INT64_MAX (strtoll_digits 0 (String c t)).
Proof.
  intros [x Hx].
  destruct c as [[] [] [] [] [] [] [] []];
    try (vm_compute in Hx; discriminate); reflexivity.
Qed.


Lemma registry_ok_empty : registry_ok empty_world.
Proof. intros id addr H. cbn in H. rewrite lookup_empty in H. discriminate. Qed.


Example strtoll_examples :
  strtoll "12abc" = 12%Z /\ strtoll "abc" = 0%Z /\ strtoll "" = 0%Z
  /\ strtoll " -7 " = (-7)%Z /\ strtoll "99999999999999999999" = INT64_MAX.
Proof. vm_compute. repeat split. Qed.

(** ** MIME parameters *)

Lemma strncasecmp_eq_prefix key : forall p,
  strncasecmp_eq p key (String.length key) = starts_with_ci key p.
Proof.
  unfold starts_with_ci.
  induction key as [|y k IH]; intros p; [reflexivity|].
  destruct p as [|x p]; [reflexivity|].
  simpl. rewrite IH. f_equal.
  destruct (Ascii.eqb_spec (tolower x) (tolower y)) as [->|Hne].
  - symmetry. apply Ascii.eqb_refl.
  - symmetry. apply Ascii.eqb_neq. congruence.
Qed.

Lemma find_param_first value key pre p post cur :
  Forall (fun q => starts_with_ci key q = false) pre ->
  starts_with_ci key p = true ->
  find_param value key (pre ++ p :: post) cur = value p.
Proof.
  intros Hpre Hp. induction Hpre as [|q pre Hq _ IH]; simpl.
  - rewrite strncasecmp_eq_prefix, Hp. reflexivity.
  - rewrite strncasecmp_eq_prefix, Hq. exact IH.
Qed.

Lemma parse_content_disposition rest fsm :
  let params := map g_strstrip (g_strsplit rest ";") in
  2 <= length params ->
  strcasecmp_eq (nth 0 params "") "form-data" = true ->
  parse_mime_header ("Content-Disposition:" +:+ rest) fsm =
    let fsm1 :=
      set_input_name
        (find_param get_mime_header_param_value "name" params (input_name fsm)) fsm in
    match input_name fsm1 with
    | None => ((-1)%Z, fsm1)
    | Some nm =>
        if String.eqb nm "file" then
          let fsm2 :=
            set_file_name
              (find_param get_mime_header_param_value "filename" params
                 (file_name fsm1)) fsm1 in
          match file_name fsm2 with
          | None => ((-1)%Z, fsm2)
          | Some _ => (0%Z, fsm2)
          end
        else (0%Z, fsm1)
    end.
Proof.
  intros params Hlen Hfd. unfold parse_mime_header.
  assert (strchr ("Content-Disposition:" +:+ rest) ":" = Some 19) as -> by reflexivity.
  assert (str_take 19 ("Content-Disposition:" +:+ rest) = "Content-Disposition") as ->
    by reflexivity.
  assert (str_drop 20 ("Content-Disposition:" +:+ rest) = rest) as -> by reflexivity.
  assert (String.eqb "Content-Disposition" "Content-Disposition" = true) as ->
    by reflexivity.
  fold params.
  assert ((length params <? 2)%nat = false) as -> by (apply Nat.ltb_ge; exact Hlen).
  rewrite Hfd. reflexivity.
Qed.

(** C10: the parameters of Content-Disposition and Content-Type are found
    by the start of their text, whatever the case of the letters: the first
    parameter that starts with [name] gives the input name, for the input
    [file] the first one that starts with [filename] gives the file name,
    and the first one that starts with [boundary] gives the boundary. *)
Theorem params_match_by_prefix :
  (forall fsm rest pre p post,
     map g_strstrip (g_strsplit rest ";") = pre ++ p :: post ->
     2 <= length (pre ++ p :: post) ->
     strcasecmp_eq (nth 0 (pre ++ p :: post) "") "form-data" = true ->
     Forall (fun q => starts_with_ci "name" q = false) pre ->
     starts_with_ci "name" p = true ->
     input_name (parse_mime_header ("Content-Disposition:" +:+ rest) fsm).2
       = get_mime_header_param_value p)
  /\ (forall fsm rest pre p post,
     map g_strstrip (g_strsplit rest ";") = pre ++ p :: post ->
     2 <= length (pre ++ p :: post) ->
     strcasecmp_eq (nth 0 (pre ++ p :: post) "") "form-data" = true ->
     input_name (parse_mime_header ("Content-Disposition:" +:+ rest) fsm).2
       = Some "file" ->
     Forall (fun q => starts_with_ci "filename" q = false) pre ->
     starts_with_ci "filename" p = true ->
     file_name (parse_mime_header ("Content-Disposition:" +:+ rest) fsm).2
       = get_mime_header_param_value p)
  /\ (forall hdr content_type pre p post,
     evhtp_kv_find hdr "Content-Type" = Some content_type ->
     map g_strstrip (g_strsplit content_type ";") = pre ++ p :: post ->
     2 <= length (pre ++ p :: post) ->
     strcasecmp_eq (nth 0 (pre ++ p :: post) "") "multipart/form-data" = true ->
     Forall (fun q => starts_with_ci "boundary" q = false) pre ->
     starts_with_ci "boundary" p = true ->
     get_boundary hdr = get_http_header_param_value p).
Proof.
  split; [|split].
  - intros fsm rest pre p post Hparams Hlen Hfd Hpre Hp.
    rewrite parse_content_disposition by (rewrite Hparams; assumption).
    rewrite Hparams. cbn zeta.
    rewrite (find_param_first _ "name" pre p post _ Hpre Hp).
    destruct (get_mime_header_param_value p) as [nm|] eqn:Hv; cbn [input_name set_input_name].
    + destruct (String.eqb nm "file"); [|reflexivity].
      destruct (find_param _ "filename" _ _); reflexivity.
    + reflexivity.
  - intros fsm rest pre p post Hparams Hlen Hfd Hin Hpre Hp.
    rewrite parse_content_disposition in Hin |- * by (rewrite Hparams; assumption).
    rewrite Hparams in Hin |- *. cbn zeta in Hin |- *.
    cbn [input_name set_input_name] in Hin |- *.
    destruct (find_param get_mime_header_param_value "name" _ _) as [nm|] eqn:Hnm.
    + destruct (String.eqb_spec nm "file") as [->|Hne].
      * rewrite (find_param_first _ "filename" pre p post _ Hpre Hp).
        cbn [file_name set_file_name].
        destruct (get_mime_header_param_value p); reflexivity.
      * cbn [snd input_name set_input_name] in Hin. congruence.
    + cbn [snd input_name set_input_name] in Hin. discriminate.
  - intros hdr ct pre p post Hct Hparams Hlen Hmp Hpre Hp.
    unfold get_boundary. rewrite Hct, Hparams.
    assert ((length (pre ++ p :: post) <? 2)%nat = false) as -> by (apply Nat.ltb_ge; exact Hlen).
    rewrite Hmp. cbn [negb].
    apply (find_param_first _ "boundary" pre p post _ Hpre Hp).
Qed.

Lemma params_match_by_prefix_witness :
  input_name
    (parse_mime_header
       ("Content-Disposition:" +:+ " form-data; nameless=" +:+ quoted "x") init_fsm).2
    = get_mime_header_param_value ("nameless=" +:+ quoted "x")
  /\ file_name
    (parse_mime_header
       ("Content-Disposition:" +:+ " form-data; name=" +:+ quoted "file"
          +:+ "; FileNameX=" +:+ quoted "a.txt") init_fsm).2
    = get_mime_header_param_value ("FileNameX=" +:+ quoted "a.txt")
  /\ get_boundary [("Content-Type", "multipart/form-data; BoundaryFoo=X")]
    = get_http_header_param_value "BoundaryFoo=X".
Proof.
  destruct params_match_by_prefix as (Hname & Hfile & Hbnd).
  split; [|split].
  - apply (Hname init_fsm (" form-data; nameless=" +:+ quoted "x")
             ["form-data"] ("nameless=" +:+ quoted "x") []).
    + reflexivity.
    + simpl. lia.
    + reflexivity.
    + repeat constructor.
    + reflexivity.
  - apply (Hfile init_fsm
             (" form-data; name=" +:+ quoted "file" +:+ "; FileNameX=" +:+ quoted "a.txt")
             ["form-data"; "name=" +:+ quoted "file"]
             ("FileNameX=" +:+ quoted "a.txt") []).
    + reflexivity.
    + simpl. lia.
    + reflexivity.
    + reflexivity.
    + repeat constructor.
    + reflexivity.
  - apply (Hbnd [("Content-Type", "multipart/form-data; BoundaryFoo=X")]
             "multipart/form-data; BoundaryFoo=X"
             ["multipart/form-data"] "BoundaryFoo=X" []).
    + reflexivity.
    + reflexivity.
    + simpl. lia.
    + reflexivity.
    + repeat constructor.
    + reflexivity.
Defined.

Example prefix_params_accepted :
  input_name
    (parse_mime_header
       ("Content-Disposition:" +:+ " form-data; nameless=" +:+ quoted "x") init_fsm).2
    = Some "x"
  /\ file_name
    (parse_mime_header
       ("Content-Disposition:" +:+ " form-data; name=" +:+ quoted "file"
          +:+ "; FileNameX=" +:+ quoted "a.txt") init_fsm).2
    = Some "a.txt"
  /\ get_boundary [("Content-Type", "multipart/form-data; BoundaryFoo=X")] = Some "X".
Proof. vm_compute. repeat split. Qed.

(** ** The upload handler *)




(** ** The read loop: what it keeps, and its termination *)

Lemma evbuffer_readln_length buf l rest :
  evbuffer_readln buf = Some (l, rest) ->
  String.length buf = String.length l + 2 + String.length rest.
Proof.
  revert l rest. induction buf as [|c r IH]; intros l rest H; [discriminate|].
  simpl in H. destruct r as [|c2 r2]; [discriminate|].
  destruct (Ascii.eqb c CR && Ascii.eqb c2 LF).
  - injection H as <- <-. reflexivity.
  - destruct (evbuffer_readln (String c2 r2)) as [[l' r']|] eqn:E; [|discriminate].
    injection H as <- <-. specialize (IH _ _ eq_refl).
    change (String.length (String c (String c2 r2))) with (S (String.length (String c2 r2))).
    rewrite IH. reflexivity.
Qed.

Lemma parse_mime_header_frame header fsm :
  let fsm' := (parse_mime_header header fsm).2 in
  same_request fsm fsm' /\ state fsm' = state fsm /\ line fsm' = line fsm
  /\ tmp_file fsm' = tmp_file fsm /\ fd fsm' = fd fsm
  /\ form_kvs fsm' = form_kvs fsm /\ recved_crlf fsm' = recved_crlf fsm.
Proof.
  unfold parse_mime_header, same_request.
  repeat case_match; simpl; repeat split; reflexivity.
Qed.

Lemma open_temp_file_frame env fsm w :
  let '(r, fsm', w') := open_temp_file env fsm w in
  same_request fsm fsm' /\ same_heap w w' /\ state fsm' = state fsm
  /\ line fsm' = line fsm.
Proof.
  unfold open_temp_file, same_request, same_heap.
  repeat case_match; simplify_eq/=; repeat split; reflexivity.
Qed.

Lemma writen_frame env w fd data w' :
  writen env w fd data = Some w' -> same_heap w w' /\ fds w' = fds w.
Proof.
  unfold writen, same_heap. repeat case_match; intros; simplify_eq/=; repeat split; reflexivity.
Qed.

Lemma same_heap_trans w1 w2 w3 : same_heap w1 w2 -> same_heap w2 w3 -> same_heap w1 w3.
Proof. unfold same_heap. intros [-> ->] [-> ->]. split; reflexivity. Qed.

Lemma same_heap_refl w : same_heap w w.
Proof. split; reflexivity. Qed.

Lemma same_request_refl f : same_request f f.
Proof. repeat split; reflexivity. Qed.

Lemma same_request_trans f1 f2 f3 :
  same_request f1 f2 -> same_request f2 f3 -> same_request f1 f3.
Proof.
  unfold same_request. intros (-> & -> & -> & -> & ->) (-> & -> & -> & -> & ->).
  repeat split; reflexivity.
Qed.

Lemma recv_file_data_frame env fsm w :
  let '(res, no_line, fsm', w') := recv_file_data env fsm w in
  same_request fsm fsm' /\ same_heap w w'.
Proof.
  unfold recv_file_data.
  repeat case_match; simplify_eq/=;
    repeat match goal with
           | H : writen _ _ _ _ = Some _ |- _ => apply writen_frame in H as [? _]
           end;
    (split; [repeat split; reflexivity|]);
    eauto using same_heap_refl, same_heap_trans.
Qed.

Lemma recv_form_field_frame fsm res no_line fsm' :
  recv_form_field fsm = Done (res, no_line, fsm') -> same_request fsm fsm'.
Proof.
  unfold recv_form_field. repeat case_match; intros; simplify_eq/=; repeat split; reflexivity.
Qed.

Lemma read_step_frame env fsm w :
  match read_step env fsm w with
  | Continue fsm' w' | Break _ fsm' w' => same_request fsm fsm' /\ same_heap w w'
  | Crash => True
  end.
Proof.
  unfold read_step. destruct (state fsm).
  - repeat case_match; simplify_eq/=; try exact I;
      split; (repeat split; reflexivity).
  - destruct (evbuffer_readln (line fsm)) as [[l rest]|];
      [|split; [apply same_request_refl|apply same_heap_refl]].
    destruct (String.length l =? 0)%nat.
    + destruct (g_strcmp0_eq _ _).
      * pose proof (open_temp_file_frame env (set_line rest fsm) w) as H.
        destruct (open_temp_file env (set_line rest fsm) w) as [[r f1] w1].
        destruct H as (Hr & Hw & _ & _).
        destruct (r <? 0)%Z; (split; [|exact Hw]);
          destruct Hr as (? & ? & ? & ? & ?); repeat split; assumption.
      * split; [repeat split; reflexivity|apply same_heap_refl].
    + pose proof (parse_mime_header_frame (cstr l) (set_line rest fsm)) as H.
      destruct (parse_mime_header (cstr l) (set_line rest fsm)) as [r f1].
      destruct H as (Hr & _).
      destruct (r <? 0)%Z; (split; [|apply same_heap_refl]);
        destruct Hr as (? & ? & ? & ? & ?); repeat split; assumption.
  - destruct (g_strcmp0_eq _ _).
    + pose proof (recv_file_data_frame env fsm w) as H.
      destruct (recv_file_data env fsm w) as [[[res nl] f1] w1].
      destruct (negb _); [exact H|]. destruct nl; exact H.
    + destruct (recv_form_field fsm) as [[[res nl] f1]| |] eqn:E; try exact I.
      apply recv_form_field_frame in E.
      destruct (negb _); [split; [exact E|apply same_heap_refl]|].
      destruct nl; (split; [exact E|apply same_heap_refl]).
  - split; [apply same_request_refl|apply same_heap_refl].
Qed.

Lemma read_loop_frame env fuel : forall fsm w res fsm' w',
  read_loop env fuel fsm w = Done (res, fsm', w') ->
  same_request fsm fsm' /\ same_heap w w'.
Proof.
  induction fuel as [|fuel IH]; intros fsm w res fsm' w' H; [discriminate|].
  simpl in H. pose proof (read_step_frame env fsm w) as Hf.
  destruct (read_step env fsm w) as [f1 w1|r f1 w1|]; [| |discriminate].
  - destruct Hf as [Hr Hw]. destruct (IH _ _ _ _ _ H) as [Hr' Hw'].
    split; [eapply same_request_trans|eapply same_heap_trans]; eassumption.
  - injection H as <- <- <-. exact Hf.
Qed.

Lemma recv_file_data_shrinks env fsm w res fsm' w' :
  recv_file_data env fsm w = (res, false, fsm', w') ->
  res = EVHTP_RES_OK ->
  String.length (line fsm') < String.length (line fsm)
  /\ (state fsm' = state fsm \/ state fsm' = RECV_HEADERS).
Proof.
  unfold recv_file_data. intros H ->.
  destruct (evbuffer_readln (line fsm)) as [[l rest]|] eqn:E.
  - apply evbuffer_readln_length in E.
    repeat case_match; simplify_eq/=; (split; [lia|auto]).
  - repeat case_match; simplify_eq/=.
Qed.

Lemma recv_form_field_shrinks fsm res fsm' :
  recv_form_field fsm = Done (res, false, fsm') ->
  String.length (line fsm') < String.length (line fsm)
  /\ (state fsm' = state fsm \/ state fsm' = RECV_HEADERS).
Proof.
  unfold recv_form_field. intros H.
  destruct (evbuffer_readln (line fsm)) as [[l rest]|] eqn:E; [|discriminate].
  apply evbuffer_readln_length in E.
  repeat case_match; simplify_eq/=; (split; [lia|auto]).
Qed.

(** A turn that goes on has read a line, and does not enter the error
    state. *)
Lemma read_step_shrinks env fsm w fsm' w' :
  state fsm <> RECV_ERROR ->
  read_step env fsm w = Continue fsm' w' ->
  String.length (line fsm') < String.length (line fsm) /\ state fsm' <> RECV_ERROR.
Proof.
  intros Hst. unfold read_step. destruct (state fsm) eqn:Hs; [| | |congruence].
  - destruct (evbuffer_readln (line fsm)) as [[l rest]|] eqn:E; [|discriminate].
    apply evbuffer_readln_length in E.
    destruct (negb _); [discriminate|]. intros [= <- <-]. simpl. split; [lia|discriminate].
  - destruct (evbuffer_readln (line fsm)) as [[l rest]|] eqn:E; [|discriminate].
    apply evbuffer_readln_length in E.
    destruct (String.length l =? 0)%nat.
    + destruct (g_strcmp0_eq _ _).
      * pose proof (open_temp_file_frame env (set_line rest fsm) w) as H.
        destruct (open_temp_file env (set_line rest fsm) w) as [[r f1] w1].
        destruct H as (_ & _ & _ & Hl). simpl in Hl.
        destruct (r <? 0)%Z; [discriminate|]. intros [= <- <-]. simpl.
        rewrite Hl. split; [lia|discriminate].
      * intros [= <- <-]. simpl. split; [lia|discriminate].
    + pose proof (parse_mime_header_frame (cstr l) (set_line rest fsm)) as H.
      destruct (parse_mime_header (cstr l) (set_line rest fsm)) as [r f1].
      destruct H as (_ & Hs' & Hl & _). simpl in Hs', Hl.
      destruct (r <? 0)%Z; [discriminate|]. intros [= <- <-].
      rewrite Hl, Hs'. split; [lia|congruence].
  - destruct (g_strcmp0_eq _ _).
    + destruct (recv_file_data env fsm w) as [[[res nl] f1] w1] eqn:E.
      destruct (bool_decide (res = EVHTP_RES_OK)) eqn:Hres; simpl; [|discriminate].
      apply bool_decide_eq_true in Hres.
      destruct nl; [discriminate|]. intros [= <- <-].
      destruct (recv_file_data_shrinks _ _ _ _ _ _ E Hres) as [Hl Hs'].
      split; [exact Hl|]. destruct Hs' as [-> | ->]; congruence.
    + destruct (recv_form_field fsm) as [[[res nl] f1]| |] eqn:E; [|discriminate..].
      destruct (negb _); [discriminate|].
      destruct nl; [discriminate|]. intros [= <- <-].
      destruct (recv_form_field_shrinks _ _ _ E) as [Hl Hs'].
      split; [exact Hl|]. destruct Hs' as [-> | ->]; congruence.
Qed.

(** Outside the error state the loop ends within the fuel
    [upload_read_cb] gives it. *)
Lemma read_loop_total env fuel : forall fsm w,
  state fsm <> RECV_ERROR ->
  String.length (line fsm) < fuel ->
  read_loop env fuel fsm w <> OutOfFuel.
Proof.
  induction fuel as [|fuel IH]; intros fsm w Hst Hlen; [lia|].
  simpl. destruct (read_step env fsm w) as [f1 w1|r f1 w1|] eqn:E; [|discriminate..].
  destruct (read_step_shrinks _ _ _ _ _ Hst E) as [Hl Hs].
  apply IH; [exact Hs|lia].
Qed.

Lemma upload_read_cb_total env req buf fsm w :
  upload_read_cb env req buf fsm w <> OutOfFuel.
Proof.
  unfold upload_read_cb.
  destruct (bool_decide (state fsm = RECV_ERROR)) eqn:Hst; [discriminate|].
  apply bool_decide_eq_false in Hst.
  destruct (heap w !! progress fsm) as [pg|]; [|discriminate].
  match goal with |- context [read_loop env ?n ?f ?w'] =>
    pose proof (read_loop_total env n f w' Hst (Nat.lt_succ_diag_r _)) as H;
    destruct (read_loop env n f w') as [[[res f2] w2]| |]
  end; [|discriminate|congruence].
  destruct (read_out res req f2). discriminate.
Qed.

(** The relation gives the result of the loop for any fuel that covers the
    buffer. *)
Lemma runs_to_read_loop env fsm w r :
  runs_to env fsm w r ->
  state fsm <> RECV_ERROR ->
  forall fuel, String.length (line fsm) < fuel -> read_loop env fuel fsm w = Done r.
Proof.
  induction 1 as [fsm w res fsm' w' Hstep|fsm w fsm1 w1 r Hstep _ IH];
    intros Hst fuel Hlen.
  - destruct fuel as [|fuel]; [lia|]. simpl. rewrite Hstep. reflexivity.
  - destruct fuel as [|fuel]; [lia|]. simpl. rewrite Hstep.
    destruct (read_step_shrinks _ _ _ _ _ Hst Hstep) as [Hl Hs].
    apply IH; [exact Hs|lia].
Qed.

(** ** Upload progress *)

Lemma wrap64_small x : (0 <= x <= INT64_MAX)%Z -> wrap64 x = x.
Proof.
  unfold wrap64, INT64_MAX. intros H.
  rewrite Z.mod_small by lia. lia.
Qed.

Lemma total_length_nonneg chunks : (0 <= total_length chunks)%Z.
Proof.
  induction chunks as [|buf rest IH]; simpl; [lia|].
  unfold evbuffer_get_length. lia.
Qed.

Lemma upload_read_cb_uploaded env req buf fsm w req' fsm' w' pg :
  state fsm <> RECV_ERROR ->
  heap w !! progress fsm = Some pg ->
  upload_read_cb env req buf fsm w = Done (req', fsm', w') ->
  progress fsm' = progress fsm
  /\ heap w' !! progress fsm' =
       Some (Progress.mk (wrap64 (Progress.uploaded pg + evbuffer_get_length buf))
               (Progress.size pg)).
Proof.
  intros Hst Hpg. unfold upload_read_cb.
  rewrite bool_decide_eq_false_2 by exact Hst. rewrite Hpg.
  match goal with |- context [read_loop env ?n ?f ?w1] =>
    destruct (read_loop env n f w1) as [[[res f2] w2]| |] eqn:E
  end; [|discriminate..].
  apply read_loop_frame in E as [(_ & _ & _ & _ & Hp) [Hh _]].
  simpl in Hp, Hh.
  unfold read_out. intros H.
  assert (progress fsm' = progress fsm /\ w' = w2) as [Hp' ->].
  { destruct (negb _), res; simplify_eq/=; split; auto. }
  split; [exact Hp'|]. rewrite Hp', Hh. apply lookup_insert_eq.
Qed.

Lemma upload_read_cb_ignored env req buf fsm w :
  state fsm = RECV_ERROR -> upload_read_cb env req buf fsm w = Done (req, fsm, w).
Proof.
  intros Hst. unfold upload_read_cb. rewrite bool_decide_eq_true_2 by exact Hst.
  reflexivity.
Qed.

Lemma read_chunks_uploaded env chunks : forall req fsm w req' fsm' w' pg,
  heap w !! progress fsm = Some pg ->
  (0 <= Progress.uploaded pg)%Z ->
  (Progress.uploaded pg + total_length chunks <= INT64_MAX)%Z ->
  read_chunks env req chunks fsm w = Done (req', fsm', w') ->
  exists pg',
    progress fsm' = progress fsm
    /\ heap w' !! progress fsm' = Some pg'
    /\ Progress.size pg' = Progress.size pg
    /\ (Progress.uploaded pg <= Progress.uploaded pg'
        <= Progress.uploaded pg + total_length chunks)%Z
    /\ (state fsm' <> RECV_ERROR ->
        Progress.uploaded pg' = (Progress.uploaded pg + total_length chunks)%Z).
Proof.
  induction chunks as [|buf rest IH]; intros req fsm w req' fsm' w' pg Hpg H0 Hmax Hrun.
  - simpl in Hrun. injection Hrun as <- <- <-. exists pg. simpl.
    repeat split; auto; lia.
  - simpl in Hrun, Hmax.
    pose proof (total_length_nonneg rest) as Hrest.
    assert (0 <= evbuffer_get_length buf)%Z as Hbuf by (unfold evbuffer_get_length; lia).
    destruct (upload_read_cb env req buf fsm w) as [[[req1 fsm1] w1]| |] eqn:E;
      [|discriminate..].
    destruct (decide (state fsm = RECV_ERROR)) as [Herr|Hok].
    + rewrite (upload_read_cb_ignored _ _ _ _ _ Herr) in E. injection E as <- <- <-.
      destruct (IH _ _ _ _ _ _ pg Hpg H0 ltac:(lia) Hrun)
        as (pg' & Hp & Hh & Hs & Hle & Heq).
      exists pg'. simpl. repeat split; try assumption; try lia.
      intros Hne. exfalso. clear -Herr Hne Hrun.
      revert req Hrun. induction rest as [|b r IHr]; intros req Hrun.
      * simpl in Hrun. congruence.
      * simpl in Hrun. rewrite (upload_read_cb_ignored _ _ _ _ _ Herr) in Hrun.
        eapply IHr, Hrun.
    + destruct (upload_read_cb_uploaded _ _ _ _ _ _ _ _ _ Hok Hpg E) as [Hp1 Hh1].
      rewrite wrap64_small in Hh1 by lia.
      destruct (IH _ _ _ _ _ _ _ Hh1 ltac:(simpl; lia) ltac:(simpl; lia) Hrun)
        as (pg' & Hp & Hh & Hs & Hle & Heq).
      simpl in Hs, Hle, Heq.
      exists pg'. simpl. repeat split; try assumption; try lia; try congruence.
      intros Hne. rewrite (Heq Hne). lia.
Qed.

Lemma upload_headers_cb_progress env req hdr w req' fsm w' :
  registry_ok w ->
  upload_headers_cb env req hdr w = (req', Some fsm, w') ->
  exists v,
    evhtp_kv_find hdr "Content-Length" = Some v
    /\ heap w' !! progress fsm = Some (Progress.mk 0 (strtoll v))
    /\ upload_progress w' !! progress_id fsm = Some (progress fsm)
    /\ state fsm = RECV_INIT.
Proof.
  intros Hreg. unfold upload_headers_cb, get_progress_info.
  destruct (uri_file req); [|discriminate].
  destruct (check_access_token env s) as [[repo usr]|]; [|discriminate].
  destruct (get_boundary hdr); [|discriminate].
  destruct (evhtp_kv_find hdr "Content-Length") as [v|]; [|discriminate].
  destruct (evhtp_kv_find (uri_query req) "X-Progress-ID") as [id|]; [|discriminate].
  intros [= <- <- <-]. exists v. split; [reflexivity|].
  unfold registry_insert. cbn -[fresh_addr].
  split; [|split; [apply lookup_insert_eq|reflexivity]].
  destruct (upload_progress w !! id) as [old|] eqn:Hold.
  - rewrite lookup_delete_ne; [apply lookup_insert_eq|].
    intros Heq. destruct (Hreg _ _ Hold) as [x Hx].
    rewrite Heq, fresh_addr_fresh in Hx. discriminate.
  - apply lookup_insert_eq.
Qed.

(** C7, as the code has it: a chunk handed to [upload_read_cb] outside the
    error state adds its length to [uploaded], whatever the parsing of it
    gives; a chunk handed over in the error state changes nothing; so,
    within the range of [gint64], [uploaded] never decreases, and over a
    request that does not end in the error state it ends as the number of
    bytes delivered, which is the size of the entry when the transport
    delivered as many bytes as Content-Length declared. *)
Theorem progress_counts_bytes env :
  (forall req buf fsm w req' fsm' w' pg,
     state fsm <> RECV_ERROR ->
     heap w !! progress fsm = Some pg ->
     upload_read_cb env req buf fsm w = Done (req', fsm', w') ->
     heap w' !! progress fsm' =
       Some (Progress.mk (wrap64 (Progress.uploaded pg + evbuffer_get_length buf))
               (Progress.size pg)))
  /\ (forall req buf fsm w,
     state fsm = RECV_ERROR -> upload_read_cb env req buf fsm w = Done (req, fsm, w))
  /\ (forall req chunks fsm w req' fsm' w' pg,
     heap w !! progress fsm = Some pg ->
     (0 <= Progress.uploaded pg)%Z ->
     (Progress.uploaded pg + total_length chunks <= INT64_MAX)%Z ->
     read_chunks env req chunks fsm w = Done (req', fsm', w') ->
     exists pg',
       heap w' !! progress fsm' = Some pg'
       /\ Progress.size pg' = Progress.size pg
       /\ (Progress.uploaded pg <= Progress.uploaded pg'
           <= Progress.uploaded pg + total_length chunks)%Z)
  /\ (forall req hdr w req0 fsm w0 chunks req' fsm' w',
     registry_ok w ->
     upload_headers_cb env req hdr w = (req0, Some fsm, w0) ->
     (total_length chunks <= INT64_MAX)%Z ->
     read_chunks env req0 chunks fsm w0 = Done (req', fsm', w') ->
     state fsm' <> RECV_ERROR ->
     exists pg' v,
       heap w' !! progress fsm' = Some pg'
       /\ evhtp_kv_find hdr "Content-Length" = Some v
       /\ Progress.size pg' = strtoll v
       /\ Progress.uploaded pg' = total_length chunks
       /\ (total_length chunks = strtoll v ->
           Progress.uploaded pg' = Progress.size pg')).
Proof.
  split; [|split; [|split]].
  - intros req buf fsm w req' fsm' w' pg Hst Hpg H.
    apply (upload_read_cb_uploaded _ _ _ _ _ _ _ _ _ Hst Hpg H).
  - intros req buf fsm w. apply upload_read_cb_ignored.
  - intros req chunks fsm w req' fsm' w' pg Hpg H0 Hmax Hrun.
    destruct (read_chunks_uploaded _ _ _ _ _ _ _ _ _ Hpg H0 Hmax Hrun)
      as (pg' & _ & Hh & Hs & Hle & _).
    exists pg'. auto.
  - intros req hdr w req0 fsm w0 chunks req' fsm' w' Hreg Hhdr Hmax Hrun Hst.
    destruct (upload_headers_cb_progress _ _ _ _ _ _ _ Hreg Hhdr) as (v & Hv & Hh0 & _ & _).
    assert (0 <= Progress.uploaded (Progress.mk 0 (strtoll v)))%Z as H0 by (cbn; lia).
    assert (Progress.uploaded (Progress.mk 0 (strtoll v)) + total_length chunks
            <= INT64_MAX)%Z as H1 by (cbn [Progress.uploaded]; lia).
    destruct (read_chunks_uploaded _ _ _ _ _ _ _ _ _ Hh0 H0 H1 Hrun)
      as (pg' & _ & Hh & Hs & _ & Heq).
    cbn [Progress.uploaded Progress.size] in Hs, Heq. exists pg', v.
    rewrite (Heq Hst), Hs. repeat split; auto; lia.
Qed.

Lemma progress_counts_bytes_witness :
  exists pg' v,
    heap (set_heap {[1 := Progress.mk 149 187]}
            (set_upload_progress {["p1" := 1]} empty_world)) !! 1 = Some pg'
    /\ evhtp_kv_find (test_headers "187") "Content-Length" = Some v
    /\ Progress.size pg' = strtoll v
    /\ Progress.uploaded pg' = total_length [simple_body]
    /\ (total_length [simple_body] = strtoll v ->
        Progress.uploaded pg' = Progress.size pg').
Proof.
  destruct (progress_counts_bytes test_env) as (_ & _ & _ & H).
  destruct (H (test_request [("X-Progress-ID", "p1")]) (test_headers "187") empty_world
              (test_request [("X-Progress-ID", "p1")]) init_fsm
              (set_heap {[1 := Progress.mk 0 187]}
                 (set_upload_progress {["p1" := 1]} empty_world))
              [simple_body]
              (test_request [("X-Progress-ID", "p1")])
              (set_recved_crlf true
                 (set_form_kvs {["parent_dir" := "/docs"]}
                    (set_file_name (Some "a.txt")
                       (set_tmp_file (Some "/tmp/seafhttp/a.txt000000")
                          (set_fd 3 (set_state RECV_HEADERS init_fsm))))))
              (set_fds {[3%Z := "/tmp/seafhttp/a.txt000000"]}
                 (set_files {["/tmp/seafhttp/a.txt000000" := "hello"]}
                    (set_heap {[1 := Progress.mk 149 187]}
                       (set_upload_progress {["p1" := 1]} empty_world)))))
    as (pg' & v & H1 & H2 & H3 & H4 & H5).
  - apply registry_ok_empty.
  - vm_compute. reflexivity.
  - vm_compute. intros E. discriminate E.
  - vm_compute. reflexivity.
  - discriminate.
  - exists pg', v. repeat split; assumption.
Defined.

(** C7 as stated fails: once a chunk has put the machine in the error
    state, a further chunk of three bytes leaves [uploaded] as it was. *)
Lemma progress_counts_bytes_counterexample :
  exists req fsm w,
    run_chunks ["bad" +:+ CRLF] = Done (req, fsm, w)
    /\ heap w !! progress fsm = Some (Progress.mk 5 187)
    /\ exists req' fsm' w',
         upload_read_cb test_env req "abc" fsm w = Done (req', fsm', w')
         /\ heap w' !! progress fsm' = Some (Progress.mk 5 187)
         /\ heap w' !! progress fsm' <> Some (Progress.mk (5 + 3) 187).
Proof.
  eexists. eexists. eexists. split; [vm_compute; reflexivity|].
  split; [reflexivity|].
  eexists. eexists. eexists. split; [vm_compute; reflexivity|].
  split; [reflexivity|discriminate].
Qed.

(** ** Defects of the state machine *)

(** C2 fails on the code: the same body gives a file of 10239 bytes when it
    comes in one chunk and a file of 10240 bytes, ending in a CR that is not
    part of the payload, when the chunk boundary falls between the CR and
    the LF before the closing boundary. *)
Theorem chunk_split_changes_file :
  temp_files (run_chunks [long_first_chunk +:+ long_second_chunk])
    = Some [("/tmp/seafhttp/a.txt000000", long_payload)]
  /\ temp_files (run_chunks [long_first_chunk; long_second_chunk])
    = Some [("/tmp/seafhttp/a.txt000000", long_payload +:+ String CR "")].
Proof. split; vm_compute; reflexivity. Qed.

(** C4 fails on the code: a blank line right after the first boundary puts
    the machine in the content state with no input name, and the next line
    of content makes [recv_form_field] hash a NULL key. *)
Theorem content_without_input_name :
  exists req fsm w,
    run_chunks [headerless_body] = Done (req, fsm, w)
    /\ state fsm = RECV_CONTENT
    /\ input_name fsm = None
    /\ upload_read_cb test_env req ("v" +:+ CRLF) fsm w = Fault.
Proof.
  eexists. eexists. eexists. split; [vm_compute; reflexivity|].
  split; [reflexivity|]. split; [reflexivity|]. vm_compute. reflexivity.
Qed.

(** ** Cleaning up *)

(** What [upload_finish_cb] does remove: the registry entry of the id, and
    the temp file the state machine points to at that time. *)
Lemma upload_finish_cb_removes fsm w :
  upload_progress (upload_finish_cb (Some fsm) w) !! progress_id fsm = None
  /\ (forall path, tmp_file fsm = Some path ->
        files (upload_finish_cb (Some fsm) w) !! path = None).
Proof.
  unfold upload_finish_cb, registry_remove. split.
  - destruct (tmp_file fsm); cbn;
      destruct (upload_progress w !! progress_id fsm) eqn:E; cbn;
      try apply lookup_delete_eq; exact E.
  - intros path ->. cbn.
    destruct (upload_progress w !! progress_id fsm); cbn; apply lookup_delete_eq.
Qed.

(** C6 fails on the code: of the two temp files a body with two file parts
    makes, the first is still there after [upload_finish_cb], and its
    descriptor is still open. *)
Theorem first_temp_file_leaks :
  exists req fsm w,
    run_chunks [two_files_body] = Done (req, fsm, w)
    /\ tmp_file fsm = Some "/tmp/seafhttp/a.txt000001"
    /\ map_to_list (files (upload_finish_cb (Some fsm) w))
       = [("/tmp/seafhttp/a.txt000000", "one")]
    /\ map_to_list (fds (upload_finish_cb (Some fsm) w))
       = [(3%Z, "/tmp/seafhttp/a.txt000000")].
Proof.
  eexists. eexists. eexists. split; [vm_compute; reflexivity|].
  split; [reflexivity|]. split; vm_compute; reflexivity.
Qed.

(** ** Strings and lines *)

Local Arguments String.append !_ _ / : simpl nomatch.

Lemma str_app_assoc (a b c : string) : (a +:+ b) +:+ c = a +:+ b +:+ c.
Proof. induction a as [|x a IH]; simpl; [reflexivity|]. rewrite IH. reflexivity. Qed.

Lemma str_app_nil_r (a : string) : a +:+ "" = a.
Proof. induction a as [|x a IH]; simpl; [reflexivity|]. rewrite IH. reflexivity. Qed.

Lemma str_app_length (a b : string) :
  String.length (a +:+ b) = String.length a + String.length b.
Proof. induction a as [|x a IH]; simpl; [reflexivity|]. rewrite IH. reflexivity. Qed.

Lemma evbuffer_readln_unfold c c2 r :
  evbuffer_readln (String c (String c2 r)) =
    if Ascii.eqb c CR && Ascii.eqb c2 LF then Some ("", r)
    else match evbuffer_readln (String c2 r) with
         | Some (l, r') => Some (String c l, r')
         | None => None
         end.
Proof. reflexivity. Qed.

Lemma crlf_lines_unfold c c2 r :
  crlf_lines (String c (String c2 r)) =
    if Ascii.eqb c CR && Ascii.eqb c2 LF then "" :: crlf_lines r
    else match crlf_lines (String c2 r) with
         | l :: ls => String c l :: ls
         | [] => [String c ""]
         end.
Proof. reflexivity. Qed.

Lemma evbuffer_readln_cons c s :
  c <> CR ->
  evbuffer_readln (String c s) =
    match evbuffer_readln s with
    | Some (l, r) => Some (String c l, r)
    | None => None
    end.
Proof.
  intros Hc. destruct s as [|c2 s]; [reflexivity|].
  rewrite evbuffer_readln_unfold.
  destruct (Ascii.eqb_spec c CR) as [->|_]; [congruence|]. reflexivity.
Qed.

(** A buffer that starts with a line without CR LF, then CR LF. *)
Lemma evbuffer_readln_line l rest :
  evbuffer_readln l = None ->
  evbuffer_readln (l +:+ CRLF +:+ rest) = Some (l, rest).
Proof.
  induction l as [|c l IH]; intros Hl; [reflexivity|].
  destruct l as [|c2 l].
  - simpl. destruct (Ascii.eqb c CR); reflexivity.
  - rewrite evbuffer_readln_unfold in Hl.
    change (String c (String c2 l) +:+ CRLF +:+ rest)
      with (String c (String c2 (l +:+ CRLF +:+ rest))).
    rewrite evbuffer_readln_unfold.
    destruct (Ascii.eqb c CR && Ascii.eqb c2 LF); [discriminate|].
    change (String c2 (l +:+ CRLF +:+ rest)) with (String c2 l +:+ CRLF +:+ rest).
    rewrite IH; [reflexivity|].
    destruct (evbuffer_readln (String c2 l)) as [[? ?]|]; [discriminate|reflexivity].
Qed.

(** What a line read says of the buffer. *)
Lemma evbuffer_readln_Some buf l rest :
  evbuffer_readln buf = Some (l, rest) ->
  buf = l +:+ CRLF +:+ rest /\ evbuffer_readln l = None.
Proof.
  revert l rest. induction buf as [|c r IH]; intros l rest H; [discriminate|].
  destruct r as [|c2 r2]; [discriminate|].
  rewrite evbuffer_readln_unfold in H.
  destruct (Ascii.eqb c CR && Ascii.eqb c2 LF) eqn:E.
  - injection H as <- <-. apply andb_prop in E as [E1 E2].
    apply Ascii.eqb_eq in E1, E2. subst. split; reflexivity.
  - destruct (evbuffer_readln (String c2 r2)) as [[l' r']|] eqn:E'; [|discriminate].
    injection H as <- <-. destruct (IH _ _ eq_refl) as [Hb Hl].
    split; [simpl; rewrite Hb; reflexivity|].
    destruct l' as [|c3 l']; [reflexivity|].
    simpl in Hb. injection Hb as -> Hb.
    rewrite evbuffer_readln_unfold, E, Hl. reflexivity.
Qed.

(** More bytes after a buffer that holds a line do not change the line. *)
Lemma evbuffer_readln_app buf more l rest :
  evbuffer_readln buf = Some (l, rest) ->
  evbuffer_readln (buf +:+ more) = Some (l, rest +:+ more).
Proof.
  intros H. destruct (evbuffer_readln_Some _ _ _ H) as [-> Hl].
  rewrite !str_app_assoc. apply evbuffer_readln_line, Hl.
Qed.

Lemma crlf_lines_None s : evbuffer_readln s = None -> crlf_lines s = [s].
Proof.
  induction s as [|c r IH]; [reflexivity|]. intros H.
  destruct r as [|c2 r2]; [reflexivity|].
  rewrite evbuffer_readln_unfold in H. rewrite crlf_lines_unfold.
  destruct (Ascii.eqb c CR && Ascii.eqb c2 LF); [discriminate|].
  rewrite IH; [reflexivity|].
  destruct (evbuffer_readln (String c2 r2)) as [[? ?]|]; [discriminate|reflexivity].
Qed.

Lemma crlf_lines_Some s l rest :
  evbuffer_readln s = Some (l, rest) -> crlf_lines s = l :: crlf_lines rest.
Proof.
  revert l rest. induction s as [|c r IH]; intros l rest H; [discriminate|].
  destruct r as [|c2 r2]; [discriminate|].
  rewrite evbuffer_readln_unfold in H. rewrite crlf_lines_unfold.
  destruct (Ascii.eqb c CR && Ascii.eqb c2 LF).
  - injection H as <- <-. reflexivity.
  - destruct (evbuffer_readln (String c2 r2)) as [[l' r']|] eqn:E; [|discriminate].
    injection H as <- <-. rewrite (IH _ _ eq_refl). reflexivity.
Qed.

(** A line without CR LF in terms of [strstr]. *)
Lemma evbuffer_readln_None_strstr s :
  evbuffer_readln s = None <-> strstr s CRLF = false.
Proof.
  induction s as [|c r IH]; [split; reflexivity|].
  destruct r as [|c2 r2].
  - split; [|reflexivity]. intros _. cbn -[Ascii.eqb].
    rewrite andb_false_r. reflexivity.
  - rewrite evbuffer_readln_unfold.
    change (strstr (String c (String c2 r2)) CRLF)
      with ((Ascii.eqb CR c && (Ascii.eqb LF c2 && true)) || strstr (String c2 r2) CRLF).
    rewrite andb_true_r, (Ascii.eqb_sym CR c), (Ascii.eqb_sym LF c2).
    destruct (Ascii.eqb c CR && Ascii.eqb c2 LF); cbn [orb].
    + split; discriminate.
    + rewrite <- IH.
      destruct (evbuffer_readln (String c2 r2)) as [[? ?]|]; split; congruence.
Qed.

(** Two pieces without CR LF make one when the seam is not CR LF. *)
Lemma evbuffer_readln_None_app a b :
  evbuffer_readln a = None ->
  evbuffer_readln b = None ->
  (forall b', b <> String LF b') ->
  evbuffer_readln (a +:+ b) = None.
Proof.
  intros Ha Hb Hseam. induction a as [|c a IH]; [exact Hb|].
  destruct a as [|c2 a].
  - change (String c "" +:+ b) with (String c b).
    destruct b as [|c2 b]; [reflexivity|].
    rewrite evbuffer_readln_unfold, Hb.
    destruct (Ascii.eqb_spec c2 LF) as [->|_]; [exfalso; eapply Hseam; reflexivity|].
    rewrite andb_false_r. reflexivity.
  - rewrite evbuffer_readln_unfold in Ha.
    change (String c (String c2 a) +:+ b) with (String c (String c2 (a +:+ b))).
    rewrite evbuffer_readln_unfold.
    destruct (Ascii.eqb c CR && Ascii.eqb c2 LF); [discriminate|].
    change (String c2 (a +:+ b)) with (String c2 a +:+ b).
    rewrite IH; [reflexivity|].
    destruct (evbuffer_readln (String c2 a)) as [[? ?]|]; [discriminate|reflexivity].
Qed.

Lemma cstr_app a b : cstr a = a -> cstr (a +:+ b) = a +:+ cstr b.
Proof.
  induction a as [|c a IH]; intros H; [reflexivity|].
  simpl in H |- *. destruct (Ascii.eqb c NUL); [discriminate|].
  injection H as H. rewrite (IH H). reflexivity.
Qed.

Lemma has_prefix_app a b : has_prefix a (a +:+ b) = true.
Proof.
  induction a as [|c a IH]; [reflexivity|]. simpl.
  rewrite Ascii.eqb_refl. exact IH.
Qed.

(** A string holds what it was made with. *)
Lemma strstr_app a b c : strstr (a +:+ b +:+ c) b = true.
Proof.
  induction a as [|x a IH].
  - simpl. destruct (b +:+ c) eqn:E.
    + destruct b; [reflexivity|discriminate].
    + simpl. rewrite <- E, has_prefix_app. reflexivity.
  - simpl. rewrite IH. apply orb_true_r.
Qed.

Lemma strstr_nil s : strstr s "" = true.
Proof. destruct s; reflexivity. Qed.

(** ** The headers of the parts *)

Lemma split_on_none d s : strchr s d = None -> split_on d s = [s].
Proof.
  induction s as [|c s IH]; [reflexivity|]. simpl.
  destruct (Ascii.eqb c d); [discriminate|].
  destruct (strchr s d); [discriminate|]. intros _. rewrite IH; reflexivity.
Qed.

Lemma strchr_app_none a b d :
  strchr a d = None -> strchr b d = None -> strchr (a +:+ b) d = None.
Proof.
  intros Ha Hb. induction a as [|c a IH]; [exact Hb|]. simpl in Ha |- *.
  destruct (Ascii.eqb c d); [discriminate|].
  destruct (strchr a d); [discriminate|]. rewrite IH; reflexivity.
Qed.

Lemma g_strchomp_last s c :
  g_ascii_isspace c = false -> g_strchomp (s +:+ String c "") = s +:+ String c "".
Proof.
  intros Hc. induction s as [|x s IH]; simpl.
  - rewrite Hc. reflexivity.
  - rewrite IH. destruct s; reflexivity.
Qed.

Lemma strrchr_last s c : strrchr (s +:+ String c "") c = Some (String.length s).
Proof.
  induction s as [|x s IH]; simpl.
  - rewrite Ascii.eqb_refl. reflexivity.
  - rewrite IH. reflexivity.
Qed.

Lemma str_take_app s t : str_take (String.length s) (s +:+ t) = s.
Proof. induction s as [|x s IH]; simpl; [destruct t; reflexivity|]. rewrite IH. reflexivity. Qed.

Lemma strchr_app_first a d t :
  strchr a d = None -> strchr (a +:+ String d t) d = Some (String.length a).
Proof.
  induction a as [|c a IH]; cbn -[Ascii.eqb].
  - rewrite Ascii.eqb_refl. reflexivity.
  - destruct (Ascii.eqb c d); [discriminate|].
    destruct (strchr a d) eqn:E; [discriminate|]. intros _. rewrite IH; reflexivity.
Qed.

Lemma quoted_value key v :
  strchr key DQUOTE = None ->
  get_mime_header_param_value (key +:+ quoted v) = Some v.
Proof.
  intros Hkey. unfold get_mime_header_param_value, quoted.
  change (String DQUOTE v +:+ String DQUOTE "") with (String DQUOTE (v +:+ String DQUOTE "")).
  rewrite (strchr_app_first _ _ _ Hkey).
  assert (Hlast : strrchr (key +:+ String DQUOTE (v +:+ String DQUOTE "")) DQUOTE
                  = Some (String.length key + S (String.length v))).
  { change (String DQUOTE (v +:+ String DQUOTE ""))
      with (String DQUOTE v +:+ String DQUOTE "").
    rewrite <- str_app_assoc, strrchr_last, str_app_length. reflexivity. }
  rewrite Hlast.
  destruct (Nat.eqb_spec (String.length key) (String.length key + S (String.length v)));
    [lia|].
  f_equal. unfold g_strndup.
  replace (String.length key + S (String.length v) - String.length key - 1)
    with (String.length v) by lia.
  assert (Hdrop : forall k t, str_drop (S (String.length k)) (k +:+ String DQUOTE t) = t).
  { clear. induction k as [|c k IH]; intros t; [reflexivity|]. simpl. apply IH. }
  rewrite Hdrop. apply str_take_app.
Qed.

Lemma parse_field_disposition fsm :
  parse_mime_header (field_disposition "parent_dir") fsm
    = (0%Z, set_input_name (Some "parent_dir") fsm).
Proof. reflexivity. Qed.

Lemma g_strstrip_filename fn :
  g_strstrip (" filename=" +:+ quoted fn) = "filename=" +:+ quoted fn.
Proof.
  unfold g_strstrip.
  change (g_strchug (" filename=" +:+ quoted fn))
    with (("filename=" +:+ String DQUOTE fn) +:+ String DQUOTE "").
  rewrite g_strchomp_last by reflexivity. reflexivity.
Qed.

Lemma parse_file_disposition fn fsm :
  strchr fn ";" = None ->
  parse_mime_header (file_disposition fn) fsm
    = (0%Z, set_file_name (Some fn) (set_input_name (Some "file") fsm)).
Proof.
  intros Hfn.
  assert (Hparams :
    map g_strstrip
      (g_strsplit (" form-data; name=" +:+ quoted "file" +:+ "; filename=" +:+ quoted fn) ";")
    = ["form-data"; "name=" +:+ quoted "file"; "filename=" +:+ quoted fn]).
  { unfold g_strsplit. cbn -[g_strstrip].
    rewrite split_on_none.
    2:{ apply strchr_app_none; [exact Hfn|reflexivity]. }
    cbn -[g_strstrip]. f_equal. f_equal. f_equal. exact (g_strstrip_filename fn). }
  change (file_disposition fn)
    with ("Content-Disposition:" +:+
          (" form-data; name=" +:+ quoted "file" +:+ "; filename=" +:+ quoted fn)).
  rewrite parse_content_disposition; rewrite Hparams; [|simpl; lia|reflexivity].
  cbn [find_param].
  change (strncasecmp_eq "form-data" "name" (String.length "name")) with false.
  change (strncasecmp_eq ("name=" +:+ quoted "file") "name" (String.length "name")) with true.
  cbn iota.
  change (get_mime_header_param_value ("name=" +:+ quoted "file")) with (Some "file").
  cbn [input_name set_input_name].
  change (String.eqb "file" "file") with true. cbn iota.
  change (strncasecmp_eq "form-data" "filename" (String.length "filename")) with false.
  change (strncasecmp_eq ("name=" +:+ quoted "file") "filename" (String.length "filename"))
    with false.
  change (strncasecmp_eq ("filename=" +:+ quoted fn) "filename" (String.length "filename"))
    with true.
  cbn iota. rewrite (quoted_value "filename=" fn eq_refl). reflexivity.
Qed.

Lemma parse_content_type ct fsm :
  parse_mime_header ("Content-Type: " +:+ ct) fsm = (0%Z, fsm).
Proof. reflexivity. Qed.

(** ** A well-formed body, line by line *)

Lemma steps_trans env f1 w1 f2 w2 f3 w3 :
  steps env f1 w1 f2 w2 -> steps env f2 w2 f3 w3 -> steps env f1 w1 f3 w3.
Proof.
  induction 1 as [|f w fa wa fb wb Hstep _ IH]; [auto|].
  intros H. eapply steps_step; [exact Hstep|]. apply IH, H.
Qed.

Lemma steps_one env f w f1 w1 :
  read_step env f w = Continue f1 w1 -> steps env f w f1 w1.
Proof. intros H. eapply steps_step; [exact H|apply steps_refl]. Qed.

Lemma steps_runs_to env f w f1 w1 res f2 w2 :
  steps env f w f1 w1 ->
  read_step env f1 w1 = Break res f2 w2 ->
  runs_to env f w (res, f2, w2).
Proof.
  induction 1 as [|fa wa fb wb fc wc Hstep _ IH]; intros Hb.
  - apply runs_break, Hb.
  - eapply runs_continue; [exact Hstep|]. apply IH, Hb.
Qed.

Lemma steps_refl_eq env f1 w1 f2 w2 : f1 = f2 -> w1 = w2 -> steps env f1 w1 f2 w2.
Proof. intros -> ->. apply steps_refl. Qed.

Lemma writen_ok env w fd path old data :
  fds w !! fd = Some path ->
  files w !! path = Some old ->
  write_ok env path old data = true ->
  writen env w fd data = Some (set_files (<[path := old +:+ data]> (files w)) w).
Proof. intros Hfd Hfile Hok. unfold writen. rewrite Hfd, Hfile, Hok. reflexivity. Qed.

(** One line of the file that is not a boundary line. *)
Lemma file_line_step env fsm w l rest path old :
  state fsm = RECV_CONTENT ->
  input_name fsm = Some "file" ->
  line fsm = l +:+ CRLF +:+ rest ->
  evbuffer_readln l = None ->
  strstr (cstr l) (boundary fsm) = false ->
  fds w !! fd fsm = Some path ->
  files w !! path = Some old ->
  (forall c d, write_ok env path c d = true) ->
  read_step env fsm w =
    Continue (set_recved_crlf true (set_line rest fsm))
      (set_files (<[path := old +:+ (if recved_crlf fsm then CRLF else "") +:+ l]> (files w)) w).
Proof.
  intros Hst Hin Hline Hl Hb Hfd Hfile Hok.
  unfold read_step. rewrite Hst, Hin. cbn [g_strcmp0_eq].
  change (String.eqb "file" "file") with true. cbn iota.
  unfold recv_file_data. rewrite Hline, (evbuffer_readln_line _ _ Hl).
  cbn [boundary set_line recved_crlf fd]. rewrite Hb.
  destruct (recved_crlf fsm).
  - rewrite (writen_ok env w _ path old CRLF Hfd Hfile (Hok _ _)). cbv iota beta.
    rewrite (writen_ok env (set_files (<[path:=old +:+ CRLF]> (files w)) w) _ path
               (old +:+ CRLF) l Hfd (lookup_insert_eq _ _ _) (Hok _ _)).
    cbn. rewrite insert_insert_eq, str_app_assoc. reflexivity.
  - cbv iota beta. rewrite (writen_ok env w _ path old l Hfd Hfile (Hok _ _)). reflexivity.
Qed.

Lemma init_line_step env fsm w l rest :
  state fsm = RECV_INIT ->
  line fsm = l +:+ CRLF +:+ rest ->
  evbuffer_readln l = None ->
  strstr (cstr l) (boundary fsm) = true ->
  read_step env fsm w = Continue (set_state RECV_HEADERS (set_line rest fsm)) w.
Proof.
  intros Hst Hline Hl Hb. unfold read_step.
  rewrite Hst, Hline, (evbuffer_readln_line _ _ Hl). cbn [boundary set_line].
  rewrite Hb. reflexivity.
Qed.

Lemma header_line_step env fsm w l rest fsm' :
  state fsm = RECV_HEADERS ->
  line fsm = l +:+ CRLF +:+ rest ->
  evbuffer_readln l = None ->
  l <> "" ->
  parse_mime_header (cstr l) (set_line rest fsm) = (0%Z, fsm') ->
  read_step env fsm w = Continue fsm' w.
Proof.
  intros Hst Hline Hl Hne Hparse. unfold read_step.
  rewrite Hst, Hline, (evbuffer_readln_line _ _ Hl).
  destruct l as [|c l]; [congruence|]. cbn [String.length Nat.eqb].
  rewrite Hparse. reflexivity.
Qed.

Lemma blank_line_field_step env fsm w rest :
  state fsm = RECV_HEADERS ->
  line fsm = CRLF +:+ rest ->
  g_strcmp0_eq (input_name fsm) "file" = false ->
  read_step env fsm w = Continue (set_state RECV_CONTENT (set_line rest fsm)) w.
Proof.
  intros Hst Hline Hin. unfold read_step. rewrite Hst, Hline.
  change (evbuffer_readln (CRLF +:+ rest)) with (Some ("", rest)).
  cbn [String.length Nat.eqb input_name set_line]. rewrite Hin. reflexivity.
Qed.

Lemma blank_line_file_step env fsm w rest fn path :
  state fsm = RECV_HEADERS ->
  line fsm = CRLF +:+ rest ->
  input_name fsm = Some "file" ->
  file_name fsm = Some fn ->
  mkstemp_name env (files w) (TEMP_FILE_DIR +:+ "/" +:+ fn +:+ "XXXXXX") = Some path ->
  files w !! path = None ->
  read_step env fsm w =
    Continue
      (set_state RECV_CONTENT
         (set_tmp_file (Some path) (set_fd (fresh_fd (fds w)) (set_line rest fsm))))
      (set_fds (<[fresh_fd (fds w) := path]> (fds w))
         (set_files (<[path := ""]> (files w)) w)).
Proof.
  intros Hst Hline Hin Hfn Hmk Hfree. unfold read_step. rewrite Hst, Hline.
  change (evbuffer_readln (CRLF +:+ rest)) with (Some ("", rest)).
  cbn [String.length Nat.eqb input_name set_line]. rewrite Hin.
  change (g_strcmp0_eq (Some "file") "file") with true. cbv iota.
  unfold open_temp_file. cbn [file_name set_line]. rewrite Hfn.
  change (default "(null)" (Some fn)) with fn. cbv zeta.
  rewrite Hmk, Hfree. reflexivity.
Qed.

Lemma field_value_step env fsm w l rest k :
  state fsm = RECV_CONTENT ->
  input_name fsm = Some k ->
  String.eqb k "file" = false ->
  line fsm = l +:+ CRLF +:+ rest ->
  evbuffer_readln l = None ->
  strstr (cstr l) (boundary fsm) = false ->
  read_step env fsm w =
    Continue (set_form_kvs (<[k := cstr l]> (form_kvs fsm)) (set_line rest fsm)) w.
Proof.
  intros Hst Hin Hk Hline Hl Hb. unfold read_step. rewrite Hst, Hin.
  cbn [g_strcmp0_eq]. rewrite Hk.
  unfold recv_form_field. rewrite Hline, (evbuffer_readln_line _ _ Hl).
  cbn [boundary set_line input_name form_kvs]. rewrite Hb, Hin. reflexivity.
Qed.

Lemma part_end_step env fsm w l rest :
  state fsm = RECV_CONTENT ->
  line fsm = l +:+ CRLF +:+ rest ->
  evbuffer_readln l = None ->
  strstr (cstr l) (boundary fsm) = true ->
  read_step env fsm w =
    Continue (set_state RECV_HEADERS (set_input_name None (set_line rest fsm))) w.
Proof.
  intros Hst Hline Hl Hb. unfold read_step. rewrite Hst.
  destruct (g_strcmp0_eq (input_name fsm) "file").
  - unfold recv_file_data. rewrite Hline, (evbuffer_readln_line _ _ Hl).
    cbn [boundary set_line]. rewrite Hb. reflexivity.
  - unfold recv_form_field. rewrite Hline, (evbuffer_readln_line _ _ Hl).
    cbn [boundary set_line]. rewrite Hb. reflexivity.
Qed.

Lemma strstr_app_r a b : strstr (a +:+ b) b = true.
Proof.
  rewrite <- (str_app_nil_r b) at 1. apply strstr_app.
Qed.

Lemma delimiter_line bnd tail :
  cstr bnd = bnd ->
  evbuffer_readln bnd = None ->
  cstr tail = tail ->
  evbuffer_readln tail = None ->
  (forall t, tail <> String LF t) ->
  evbuffer_readln ("--" +:+ bnd +:+ tail) = None
  /\ strstr (cstr ("--" +:+ bnd +:+ tail)) bnd = true.
Proof.
  intros Hc Hl Htc Htl Hseam. split.
  - change ("--" +:+ bnd +:+ tail) with (String "-" (String "-" (bnd +:+ tail))).
    rewrite !evbuffer_readln_cons by discriminate.
    rewrite (evbuffer_readln_None_app _ _ Hl Htl Hseam). reflexivity.
  - rewrite (cstr_app "--" _ eq_refl), (cstr_app _ _ Hc), Htc. apply strstr_app.
Qed.

Lemma file_disposition_line fn :
  cstr fn = fn ->
  evbuffer_readln fn = None ->
  evbuffer_readln (file_disposition fn) = None
  /\ cstr (file_disposition fn) = file_disposition fn
  /\ file_disposition fn <> "".
Proof.
  intros Hc Hl. split; [|split; [|discriminate]].
  - unfold file_disposition, quoted. cbn [String.append].
    rewrite !evbuffer_readln_cons by discriminate.
    rewrite (evbuffer_readln_None_app fn (String DQUOTE "") Hl eq_refl)
      by discriminate.
    reflexivity.
  - change (file_disposition fn)
      with (("Content-Disposition: form-data; name=" +:+ quoted "file" +:+ "; filename="
             +:+ String DQUOTE "") +:+ fn +:+ String DQUOTE "").
    rewrite (cstr_app _ _ eq_refl), (cstr_app _ _ Hc). reflexivity.
Qed.

Lemma content_type_line ct :
  evbuffer_readln ct = None ->
  evbuffer_readln ("Content-Type: " +:+ ct) = None
  /\ cstr ("Content-Type: " +:+ ct) = "Content-Type: " +:+ cstr ct.
Proof.
  intros Hl. split; [|reflexivity].
  cbn [String.append]. rewrite !evbuffer_readln_cons by discriminate.
  rewrite Hl. reflexivity.
Qed.

(** ** The loop and the bytes that come later *)

Lemma writen_heap env h w fd data :
  writen env (set_heap h w) fd data = set_heap h <$> writen env w fd data.
Proof.
  unfold writen. cbn [fds files set_heap].
  destruct (fds w !! fd) as [path|]; [|reflexivity].
  destruct (files w !! path) as [old|]; [|reflexivity].
  destruct (write_ok env path old data); reflexivity.
Qed.

(** The turns of the loop neither read nor write the heap. *)
Lemma read_step_heap env h fsm w :
  read_step env fsm (set_heap h w) = heap_step h (read_step env fsm w).
Proof.
  unfold read_step. destruct (state fsm); [| | |reflexivity].
  - destruct (evbuffer_readln (line fsm)) as [[l rest]|]; [|reflexivity].
    destruct (negb _); reflexivity.
  - destruct (evbuffer_readln (line fsm)) as [[l rest]|]; [|reflexivity].
    destruct (String.length l =? 0)%nat.
    + destruct (g_strcmp0_eq _ _); [|reflexivity].
      unfold open_temp_file. cbn [files fds set_heap].
      destruct (mkstemp_name env (files w) _) as [path|]; [|reflexivity].
      destruct (files w !! path); reflexivity.
    + destruct (parse_mime_header _ _) as [r f1]. destruct (r <? 0)%Z; reflexivity.
  - destruct (g_strcmp0_eq _ _).
    + unfold recv_file_data.
      destruct (evbuffer_readln (line fsm)) as [[l rest]|].
      * destruct (strstr _ _); [reflexivity|].
        cbn [recved_crlf set_line fd].
        destruct (recved_crlf fsm).
        -- rewrite writen_heap. destruct (writen env w (fd fsm) CRLF) as [w1|];
             [|reflexivity]. cbn [fmap option_fmap option_map].
           rewrite writen_heap. destruct (writen env w1 (fd fsm) l); reflexivity.
        -- rewrite writen_heap. destruct (writen env w (fd fsm) l); reflexivity.
      * destruct (MAX_CONTENT_LINE <=? _)%Z; [|reflexivity].
        destruct (recved_crlf fsm).
        -- rewrite writen_heap. destruct (writen env w (fd fsm) CRLF) as [w1|];
             [|reflexivity]. cbn [fmap option_fmap option_map].
           rewrite writen_heap. destruct (writen env w1 (fd fsm) (line fsm)); reflexivity.
        -- rewrite writen_heap. destruct (writen env w (fd fsm) (line fsm)); reflexivity.
    + destruct (recv_form_field fsm) as [[[res nl] f1]| |]; [|reflexivity..].
      destruct (negb _); [reflexivity|]. destruct nl; reflexivity.
Qed.

Lemma steps_heap env h f w f' w' :
  steps env f w f' w' -> steps env f (set_heap h w) f' (set_heap h w').
Proof.
  induction 1 as [|f w f1 w1 f2 w2 Hstep _ IH]; [apply steps_refl|].
  eapply steps_step; [|exact IH]. rewrite read_step_heap, Hstep. reflexivity.
Qed.

Lemma parse_mime_header_set_line header x fsm :
  parse_mime_header header (set_line x fsm) =
    ((parse_mime_header header fsm).1, set_line x (parse_mime_header header fsm).2).
Proof.
  unfold parse_mime_header.
  destruct (strchr header ":"); [|reflexivity].
  destruct (String.eqb _ _); [|reflexivity].
  destruct (length _ <? 2)%nat; [reflexivity|].
  destruct (negb _); [reflexivity|].
  cbn [input_name set_input_name set_line file_name set_file_name].
  destruct (find_param get_mime_header_param_value "name" _ _) as [nm|]; [|reflexivity].
  destruct (String.eqb nm "file"); [|reflexivity].
  destruct (find_param get_mime_header_param_value "filename" _ _); reflexivity.
Qed.

Lemma open_temp_file_set_line env x fsm w :
  open_temp_file env (set_line x fsm) w =
    ((open_temp_file env fsm w).1.1, set_line x (open_temp_file env fsm w).1.2,
     (open_temp_file env fsm w).2).
Proof.
  unfold open_temp_file. cbn [file_name set_line].
  destruct (mkstemp_name env (files w) _) as [path|]; [|reflexivity].
  destruct (files w !! path); reflexivity.
Qed.

(** A turn that reads a line reads the same line when more bytes follow
    the buffer, and leaves these bytes after what it leaves. *)
Lemma read_step_extend env more fsm w l rest :
  evbuffer_readln (line fsm) = Some (l, rest) ->
  read_step env (extend more fsm) w = extend_step more (read_step env fsm w).
Proof.
  intros Hl. pose proof (evbuffer_readln_app _ more _ _ Hl) as Hl'.
  unfold read_step. cbn [state extend set_line line].
  destruct (state fsm); [| | |reflexivity].
  - rewrite Hl, Hl'. cbn [boundary set_line].
    destruct (negb _); reflexivity.
  - rewrite Hl, Hl'.
    destruct (String.length l =? 0)%nat.
    + cbn [input_name set_line].
      destruct (g_strcmp0_eq _ _); [|reflexivity].
      unfold extend. rewrite !open_temp_file_set_line.
      destruct (open_temp_file env fsm w) as [[r f1] w1].
      cbn [fst snd]. destruct (r <? 0)%Z; reflexivity.
    + unfold extend. rewrite !parse_mime_header_set_line.
      destruct (parse_mime_header (cstr l) fsm) as [r f1].
      cbn [fst snd]. destruct (r <? 0)%Z; reflexivity.
  - cbn [extend input_name set_line].
    destruct (g_strcmp0_eq _ _).
    + unfold recv_file_data. cbn [extend line set_line boundary recved_crlf fd].
      rewrite Hl, Hl'.
      destruct (strstr _ _); [reflexivity|].
      destruct (recved_crlf fsm).
      * destruct (writen env w (fd fsm) CRLF) as [w1|]; [|reflexivity].
        destruct (writen env w1 (fd fsm) l); reflexivity.
      * destruct (writen env w (fd fsm) l); reflexivity.
    + unfold recv_form_field. cbn [extend line set_line boundary input_name form_kvs].
      rewrite Hl, Hl'.
      destruct (strstr _ _); [reflexivity|].
      destruct (input_name fsm); reflexivity.
Qed.

(** A turn that goes on has read the first line of the buffer. *)
Lemma read_step_reads env fsm w fsm' w' :
  state fsm <> RECV_ERROR ->
  read_step env fsm w = Continue fsm' w' ->
  exists l, evbuffer_readln (line fsm) = Some (l, line fsm').
Proof.
  intros Hst. unfold read_step. destruct (state fsm) eqn:Hs; [| | |congruence].
  - destruct (evbuffer_readln (line fsm)) as [[l rest]|]; [|discriminate].
    destruct (negb _); [discriminate|]. intros [= <- <-]. exists l. reflexivity.
  - destruct (evbuffer_readln (line fsm)) as [[l rest]|]; [|discriminate].
    destruct (String.length l =? 0)%nat.
    + destruct (g_strcmp0_eq _ _).
      * pose proof (open_temp_file_frame env (set_line rest fsm) w) as H.
        destruct (open_temp_file env (set_line rest fsm) w) as [[r f1] w1].
        destruct H as (_ & _ & _ & Hl). simpl in Hl.
        destruct (r <? 0)%Z; [discriminate|]. intros [= <- <-]. exists l.
        cbn [line set_state]. rewrite Hl. reflexivity.
      * intros [= <- <-]. exists l. reflexivity.
    + pose proof (parse_mime_header_frame (cstr l) (set_line rest fsm)) as H.
      destruct (parse_mime_header (cstr l) (set_line rest fsm)) as [r f1].
      destruct H as (_ & _ & Hl & _). simpl in Hl.
      destruct (r <? 0)%Z; [discriminate|]. intros [= <- <-]. exists l.
      rewrite Hl. reflexivity.
  - destruct (g_strcmp0_eq _ _).
    + unfold recv_file_data.
      destruct (evbuffer_readln (line fsm)) as [[l rest]|].
      * intros H. exists l. revert H. repeat case_match; intros; simplify_eq/=; reflexivity.
      * repeat case_match; intros; simplify_eq/=.
    + unfold recv_form_field.
      destruct (evbuffer_readln (line fsm)) as [[l rest]|]; [|discriminate].
      intros H. exists l. revert H. repeat case_match; intros; simplify_eq/=; reflexivity.
Qed.

(** With no line in a buffer below the threshold, the turn leaves the loop
    and changes nothing. *)
Lemma read_step_no_line env fsm w :
  state fsm <> RECV_ERROR ->
  evbuffer_readln (line fsm) = None ->
  (evbuffer_get_length (line fsm) < MAX_CONTENT_LINE)%Z ->
  read_step env fsm w = Break EVHTP_RES_OK fsm w.
Proof.
  intros Hst Hl Hlen. unfold read_step.
  destruct (state fsm); [| | |congruence]; try (rewrite Hl; reflexivity).
  destruct (g_strcmp0_eq _ _).
  - unfold recv_file_data. rewrite Hl.
    assert ((MAX_CONTENT_LINE <=? evbuffer_get_length (line fsm))%Z = false) as ->
      by (apply Z.leb_gt; exact Hlen).
    reflexivity.
  - unfold recv_form_field. rewrite Hl. reflexivity.
Qed.

Lemma evbuffer_readln_None_tail c s :
  evbuffer_readln (String c s) = None -> evbuffer_readln s = None.
Proof.
  destruct s as [|c2 s]; [reflexivity|]. rewrite evbuffer_readln_unfold.
  destruct (Ascii.eqb c CR && Ascii.eqb c2 LF); [discriminate|].
  destruct (evbuffer_readln (String c2 s)) as [[? ?]|]; [discriminate|reflexivity].
Qed.

(** Bytes that wait for the end of their line are, but for a CR, the start
    of the line. *)
Lemma pending_first_line t more :
  evbuffer_readln t = None ->
  exists l ls, crlf_lines (t +:+ more) = l :: ls /\ String.length t <= String.length l + 1.
Proof.
  induction t as [|c t IH]; intros Ht.
  - cbn [String.append]. destruct (crlf_lines more) as [|l ls] eqn:E.
    + destruct more as [|c [|c2 r]]; try discriminate.
      rewrite crlf_lines_unfold in E.
      destruct (Ascii.eqb c CR && Ascii.eqb c2 LF); [discriminate|].
      destruct (crlf_lines (String c2 r)); discriminate.
    + exists l, ls. split; [reflexivity|simpl; lia].
  - destruct (IH (evbuffer_readln_None_tail _ _ Ht)) as (l & ls & Hls & Hlen).
    cbn [String.append]. destruct (t +:+ more) as [|c2 r] eqn:E.
    + exists (String c ""), []. split; [reflexivity|].
      destruct t; [simpl; lia|discriminate].
    + rewrite crlf_lines_unfold.
      destruct (Ascii.eqb c CR && Ascii.eqb c2 LF) eqn:Ec.
      * exists "", (crlf_lines r). split; [reflexivity|].
        destruct t as [|c3 t]; [simpl; lia|].
        cbn [String.append] in E. injection E as -> _.
        rewrite evbuffer_readln_unfold, Ec in Ht. discriminate.
      * rewrite Hls. exists (String c l), ls. split; [reflexivity|]. simpl. lia.
Qed.

Lemma pending_short t more :
  evbuffer_readln t = None ->
  short_lines (t +:+ more) = true ->
  (evbuffer_get_length t < MAX_CONTENT_LINE)%Z.
Proof.
  intros Ht Hs. destruct (pending_first_line t more Ht) as (l & ls & Hls & Hlen).
  unfold short_lines in Hs. rewrite Hls in Hs. cbn [forallb] in Hs.
  apply andb_prop in Hs as [Hl _]. apply Z.ltb_lt in Hl.
  unfold evbuffer_get_length. lia.
Qed.

(** The loop on the first bytes of a buffer it reads to the end: it stops
    where the bytes stop, with nothing changed by the turn that finds no
    line, and goes on from there when the other bytes are there. *)
Lemma steps_prefix env F w FF wF :
  steps env F w FF wF ->
  forall fsm more,
    F = extend more fsm ->
    state fsm <> RECV_ERROR ->
    line FF = "" ->
    short_lines (line fsm +:+ more) = true ->
    exists fsm' w',
      steps env fsm w fsm' w'
      /\ read_step env fsm' w' = Break EVHTP_RES_OK fsm' w'
      /\ state fsm' <> RECV_ERROR
      /\ short_lines (line fsm' +:+ more) = true
      /\ steps env (extend more fsm') w' FF wF.
Proof.
  induction 1 as [F w|F w F1 w1 FF wF Hstep Hsteps IH];
    intros fsm more HF Hst Hend Hshort.
  - subst F. cbn [extend line set_line] in Hend.
    assert (line fsm = "") as Hl by (destruct (line fsm); [reflexivity|discriminate]).
    exists fsm, w. split; [apply steps_refl|]. split.
    { apply read_step_no_line; [exact Hst|rewrite Hl; reflexivity|rewrite Hl; reflexivity]. }
    split; [exact Hst|]. split; [exact Hshort|apply steps_refl].
  - subst F. destruct (evbuffer_readln (line fsm)) as [[l rest]|] eqn:El.
    + rewrite (read_step_extend env more fsm w l rest El) in Hstep.
      destruct (read_step env fsm w) as [f1 w1'|r f1 w1'|] eqn:Es; try discriminate.
      cbn [extend_step] in Hstep. injection Hstep as <- <-.
      destruct (read_step_shrinks _ _ _ _ _ Hst Es) as [_ Hst1].
      destruct (read_step_reads _ _ _ _ _ Hst Es) as [l' El'].
      rewrite El in El'. injection El' as <- Hrest.
      assert (Hshort1 : short_lines (line f1 +:+ more) = true).
      { unfold short_lines in Hshort |- *.
        rewrite (crlf_lines_Some _ _ _ (evbuffer_readln_app _ more _ _ El)) in Hshort.
        cbn [forallb] in Hshort. apply andb_prop in Hshort as [_ Hshort].
        rewrite <- Hrest. exact Hshort. }
      destruct (IH f1 more eq_refl Hst1 Hend Hshort1)
        as (fsm' & w' & Hs1 & Hb & Hst' & Hsh' & Hs2).
      exists fsm', w'. split; [eapply steps_step; eassumption|].
      repeat split; assumption.
    + exists fsm, w. split; [apply steps_refl|]. split.
      { apply read_step_no_line; [exact Hst|exact El|].
        apply (pending_short _ more El Hshort). }
      split; [exact Hst|]. split; [exact Hshort|].
      eapply steps_step; eassumption.
Qed.

Lemma steps_frame env f w f' w' :
  steps env f w f' w' -> same_request f f' /\ same_heap w w'.
Proof.
  induction 1 as [|f w f1 w1 f2 w2 Hstep _ IH].
  - split; [apply same_request_refl|apply same_heap_refl].
  - pose proof (read_step_frame env f w) as Hf. rewrite Hstep in Hf.
    destruct Hf as [Hr Hw], IH as [Hr' Hw'].
    split; [eapply same_request_trans|eapply same_heap_trans]; eassumption.
Qed.

Lemma extend_nil fsm : extend "" fsm = fsm.
Proof. destruct fsm. unfold extend, set_line. cbn. rewrite str_app_nil_r. reflexivity. Qed.

Lemma extend_app a b fsm : extend (a +:+ b) fsm = extend b (extend a fsm).
Proof. unfold extend, set_line. cbn. rewrite str_app_assoc. reflexivity. Qed.

(** ** Delivery in chunks *)

(** When the loop reads a buffer to its end, and no line is long enough to
    be flushed before it is complete, the same bytes delivered in chunks
    give the same state machine and the same files. *)
Lemma read_chunks_steps env chunks : forall req fsm w FF wF,
  state fsm <> RECV_ERROR ->
  read_step env fsm w = Break EVHTP_RES_OK fsm w ->
  is_Some (heap w !! progress fsm) ->
  steps env (extend (str_concat chunks) fsm) w FF wF ->
  line FF = "" ->
  short_lines (line fsm +:+ str_concat chunks) = true ->
  exists w',
    read_chunks env req chunks fsm w = Done (req, FF, w')
    /\ files w' = files wF /\ fds w' = fds wF
    /\ upload_progress w' = upload_progress wF.
Proof.
  induction chunks as [|c cs IH]; intros req fsm w FF wF Hst Hsettled Hpg Hsteps Hend Hshort.
  - cbn [str_concat] in Hsteps. rewrite extend_nil in Hsteps.
    inversion Hsteps as [|? ? ? ? ? ? Hstep]; subst; [|congruence].
    exists wF. repeat split; reflexivity.
  - cbn [str_concat] in Hsteps, Hshort. rewrite extend_app in Hsteps.
    rewrite <- str_app_assoc in Hshort.
    assert (Hst1 : state (extend c fsm) <> RECV_ERROR) by exact Hst.
    destruct (steps_prefix env _ _ _ _ Hsteps (extend c fsm) (str_concat cs)
                eq_refl Hst1 Hend Hshort)
      as (fsm' & w' & Hs1 & Hb & Hst' & Hsh' & Hs2).
    destruct Hpg as [pg Hpg].
    cbn [read_chunks]. unfold upload_read_cb.
    rewrite bool_decide_eq_false_2 by exact Hst. rewrite Hpg.
    set (h1 := <[progress fsm := _]> (heap w)).
    assert (Hrun : runs_to env (extend c fsm) (set_heap h1 w)
                     (EVHTP_RES_OK, fsm', set_heap h1 w')).
    { eapply steps_runs_to; [apply steps_heap, Hs1|].
      rewrite read_step_heap, Hb. reflexivity. }
    change (set_line (line fsm +:+ c) fsm) with (extend c fsm).
    rewrite (runs_to_read_loop _ _ _ _ Hrun Hst1 _ (Nat.lt_succ_diag_r _)).
    cbn [read_out bool_decide decide_rel negb].
    assert (Hdec : bool_decide (EVHTP_RES_OK = EVHTP_RES_OK) = true)
      by (apply bool_decide_eq_true_2; reflexivity).
    unfold read_out. rewrite Hdec. cbn [negb].
    destruct (steps_frame _ _ _ _ _ Hs1) as [(_ & _ & _ & _ & Hprog) _].
    destruct (IH req fsm' (set_heap h1 w') FF (set_heap h1 wF)) as (w'' & Hr & Hf & Hd & Hu).
    + exact Hst'.
    + rewrite read_step_heap, Hb. reflexivity.
    + cbn [heap set_heap]. rewrite Hprog. cbn [progress extend set_line].
      unfold h1. rewrite lookup_insert_eq. eexists. reflexivity.
    + apply steps_heap, Hs2.
    + exact Hend.
    + exact Hsh'.
    + exists w''. split; [exact Hr|]. repeat split; assumption.
Qed.


(** ** Substrings and the boundary *)

Lemma has_prefix_app_l n a b : has_prefix n a = true -> has_prefix n (a +:+ b) = true.
Proof.
  revert a. induction n as [|x n IH]; intros a H; [reflexivity|].
  destruct a as [|y a]; [discriminate|]. simpl in H |- *.
  apply andb_prop in H as [-> H]. apply IH, H.
Qed.

Lemma strstr_cons x a n :
  strstr (String x a) n = has_prefix n (String x a) || strstr a n.
Proof. reflexivity. Qed.

Lemma strstr_app_l a b n : strstr a n = true -> strstr (a +:+ b) n = true.
Proof.
  induction a as [|x a IH]; intros H.
  - simpl in H. rewrite orb_false_r in H. destruct n; [apply strstr_nil|discriminate].
  - rewrite strstr_cons in H.
    change (String x a +:+ b) with (String x (a +:+ b)). rewrite strstr_cons.
    apply orb_prop in H as [H|H].
    + change (String x (a +:+ b)) with (String x a +:+ b).
      rewrite (has_prefix_app_l n (String x a) b H). reflexivity.
    + rewrite (IH H). apply orb_true_r.
Qed.

Lemma strstr_app_skip a b n : strstr b n = true -> strstr (a +:+ b) n = true.
Proof.
  intros H. induction a as [|x a IH]; [exact H|].
  change (String x a +:+ b) with (String x (a +:+ b)).
  rewrite strstr_cons, IH. apply orb_true_r.
Qed.

(** A string that does not hold [n] has no part that holds it. *)
Lemma strstr_app_false a b n :
  strstr (a +:+ b) n = false -> strstr a n = false /\ strstr b n = false.
Proof.
  intros H. split.
  - destruct (strstr a n) eqn:E; [|reflexivity].
    rewrite (strstr_app_l a b n E) in H. discriminate.
  - destruct (strstr b n) eqn:E; [|reflexivity].
    rewrite (strstr_app_skip a b n E) in H. discriminate.
Qed.

Lemma cstr_prefix l : exists r, l = cstr l +:+ r.
Proof.
  induction l as [|c l [r IH]]; [exists ""; reflexivity|].
  simpl. destruct (Ascii.eqb c NUL).
  - exists (String c l). reflexivity.
  - exists r. simpl. rewrite <- IH. reflexivity.
Qed.

Lemma strstr_cstr_false l n : strstr l n = false -> strstr (cstr l) n = false.
Proof.
  intros H. destruct (cstr_prefix l) as [r Hr]. rewrite Hr in H.
  apply strstr_app_false in H as [H _]. exact H.
Qed.

Lemma evbuffer_readln_crlf x y : evbuffer_readln (x +:+ CRLF +:+ y) <> None.
Proof.
  destruct (evbuffer_readln x) as [[l r]|] eqn:E.
  - rewrite (evbuffer_readln_app _ (CRLF +:+ y) _ _ E). discriminate.
  - rewrite (evbuffer_readln_line _ _ E). discriminate.
Qed.

(** Bytes without CR LF at the head of a stream in which [B2] comes before
    a CR LF: they are within [B2], or they are [B2] and the CR. *)
Lemma pending_in_payload B2 : forall buf future T,
  evbuffer_readln buf = None ->
  buf +:+ future = B2 +:+ CRLF +:+ T ->
  (exists B2', B2 = buf +:+ B2' /\ future = B2' +:+ CRLF +:+ T)
  \/ (buf = B2 +:+ String CR "" /\ future = String LF T).
Proof.
  induction B2 as [|c B2 IH]; intros buf future T Hbuf Heq.
  - destruct buf as [|c1 buf].
    + left. exists "". split; [reflexivity|exact Heq].
    + cbn [String.append CRLF] in Heq. injection Heq as -> Heq.
      destruct buf as [|c2 buf].
      * right. split; [reflexivity|exact Heq].
      * cbn [String.append] in Heq. injection Heq as -> _.
        rewrite evbuffer_readln_unfold in Hbuf. discriminate.
  - destruct buf as [|c1 buf].
    + left. exists (String c B2). split; [reflexivity|exact Heq].
    + cbn [String.append] in Heq. injection Heq as -> Heq.
      destruct (IH buf future T (evbuffer_readln_None_tail _ _ Hbuf) Heq)
        as [(B2' & -> & ->)|[-> ->]].
      * left. exists B2'. split; reflexivity.
      * right. split; reflexivity.
Qed.

Lemma str_app_inv_nil a b : a +:+ b = "" -> a = "" /\ b = "".
Proof.
  destruct a; [|discriminate]. cbn [String.append]. intros ->. split; reflexivity.
Qed.

(** ** The state machine along a body *)

Lemma steps_outside_heap env h f w f' w' :
  steps_outside env f w f' w' -> steps_outside env f (set_heap h w) f' (set_heap h w').
Proof.
  induction 1 as [|f w f1 w1 f2 w2 Hout Hstep _ IH]; [apply steps_outside_refl|].
  eapply steps_outside_step; [exact Hout| |exact IH].
  rewrite read_step_heap, Hstep. reflexivity.
Qed.

(** The headers of a body of the shape [multipart_body], up to the blank
    line before the payload. *)
Lemma head_steps env fsm w bnd P fn ct B path :
  state fsm = RECV_INIT ->
  boundary fsm = bnd ->
  recved_crlf fsm = false ->
  cstr bnd = bnd -> evbuffer_readln bnd = None ->
  cstr P = P -> evbuffer_readln P = None -> strstr P bnd = false ->
  cstr fn = fn -> evbuffer_readln fn = None -> strchr fn ";" = None ->
  evbuffer_readln ct = None ->
  strstr B bnd = false ->
  mkstemp_name env (files w) (TEMP_FILE_DIR +:+ "/" +:+ fn +:+ "XXXXXX") = Some path ->
  files w !! path = None ->
  in_head env bnd P fn B path fsm w (multipart_body bnd P fn ct B).
Proof.
  intros Hst Hbnd Hcr Hbc Hbl HPc HPl HPb Hfc Hfl Hfs Hcl HB Hmk Hfree.
  destruct (delimiter_line bnd "" Hbc Hbl eq_refl eq_refl ltac:(discriminate)) as [Hd1 Hd2].
  rewrite str_app_nil_r in Hd1, Hd2.
  destruct (file_disposition_line fn Hfc Hfl) as (Hf1 & Hf2 & Hf3).
  destruct (content_type_line ct Hcl) as [Hc1 Hc2].
  split; [unfold in_file_content; rewrite Hst; reflexivity|].
  split; [rewrite Hst; discriminate|].
  eexists. eexists. split.
  - unfold multipart_body.
    eapply steps_outside_step.
    { unfold in_file_content. cbn [state set_line]. rewrite Hst. reflexivity. }
    { apply init_line_step with (l := "--" +:+ bnd); try reflexivity; try assumption.
      cbn [boundary set_line]. rewrite Hbnd. exact Hd2. }
    eapply steps_outside_step; [reflexivity| |].
    { eapply header_line_step with (l := field_disposition "parent_dir");
        try reflexivity. discriminate. }
    eapply steps_outside_step; [reflexivity| |].
    { apply blank_line_field_step; reflexivity. }
    eapply steps_outside_step; [reflexivity| |].
    { apply field_value_step with (l := P) (k := "parent_dir");
        try reflexivity; try assumption.
      cbn [boundary set_line set_state set_input_name]. rewrite HPc, Hbnd. exact HPb. }
    eapply steps_outside_step; [reflexivity| |].
    { apply part_end_step with (l := "--" +:+ bnd); try reflexivity; try assumption.
      cbn. rewrite Hbnd. exact Hd2. }
    eapply steps_outside_step; [reflexivity| |].
    { eapply header_line_step with (l := file_disposition fn);
        try reflexivity; try assumption.
      rewrite Hf2. apply parse_file_disposition, Hfs. }
    eapply steps_outside_step; [reflexivity| |].
    { eapply header_line_step with (l := "Content-Type: " +:+ ct);
        try reflexivity; try assumption; try discriminate. }
    eapply steps_outside_step; [reflexivity| |].
    { eapply blank_line_file_step with (fn := fn) (path := path);
        try reflexivity; assumption. }
    apply steps_outside_refl.
  - split; [reflexivity|]. split; [reflexivity|]. split.
    { unfold file_fields. cbn. rewrite HPc.
      split; [exact Hbnd|]. split; [apply lookup_insert_eq|].
      split; [reflexivity|]. split; [reflexivity|apply lookup_insert_eq]. }
    exists "", B. cbn. rewrite Hcr.
    split; [apply lookup_insert_eq|]. split; [reflexivity|]. split; [exact HB|reflexivity].
Qed.

Lemma receiving_heap env bnd P fn B path h fsm w S :
  receiving env bnd P fn B path fsm w S ->
  receiving env bnd P fn B path fsm (set_heap h w) S.
Proof.
  intros [H|[H|[H|H]]].
  - left. destruct H as (Ho & Hs & FS & WS & Hsteps & Hp).
    split; [exact Ho|]. split; [exact Hs|].
    exists FS, (set_heap h WS). split; [apply steps_outside_heap, Hsteps|exact Hp].
  - right. left. exact H.
  - right. right. left. exact H.
  - right. right. right. exact H.
Qed.

Lemma receiving_extend env bnd P fn B path c fsm w S :
  receiving env bnd P fn B path fsm w S ->
  receiving env bnd P fn B path (extend c fsm) w S.
Proof.
  intros [H|[H|[H|H]]].
  - left. exact H.
  - right. left. exact H.
  - right. right. left. exact H.
  - right. right. right. exact H.
Qed.

Lemma receiving_not_error env bnd P fn B path fsm w S :
  receiving env bnd P fn B path fsm w S -> state fsm <> RECV_ERROR.
Proof.
  intros [H|[H|[H|H]]].
  - destruct H as (_ & H & _). exact H.
  - destruct H as (H & _). rewrite H. discriminate.
  - destruct H as (H & _). rewrite H. discriminate.
  - destruct H as (H & _). rewrite H. discriminate.
Qed.

Section Turns.

Context (env : Env) (bnd P fn B path : string).
Context (Hbc : cstr bnd = bnd) (Hbl : evbuffer_readln bnd = None).
Context (Hblen : (Z.of_nat (String.length bnd) + 6 < MAX_CONTENT_LINE)%Z).
Context (Hok : forall c d, write_ok env path c d = true).

Local Abbreviation receiving := (receiving env bnd P fn B path).
Local Abbreviation in_head := (in_head env bnd P fn B path).
Local Abbreviation in_payload := (in_payload bnd P fn B path).
Local Abbreviation at_closing := (at_closing bnd P fn B path).
Local Abbreviation finished := (finished bnd P fn B path).

Lemma in_file_content_true fsm :
  state fsm = RECV_CONTENT -> input_name fsm = Some "file" -> in_file_content fsm = true.
Proof. intros Hs Hi. unfold in_file_content. rewrite Hs, Hi. reflexivity. Qed.

(** Before the payload, a line in the buffer: the turn is the one of the
    whole body. *)
Lemma head_turn fsm w future l rest :
  in_head fsm w (line fsm +:+ future) ->
  evbuffer_readln (line fsm) = Some (l, rest) ->
  exists f1 w1,
    read_step env fsm w = Continue f1 w1
    /\ (in_head f1 w1 (line f1 +:+ future) \/ in_payload f1 w1 (line f1 +:+ future)).
Proof.
  intros (Hout & Hst & FS & WS & Hsteps & Hpay) Hl.
  change (set_line (line fsm +:+ future) fsm) with (extend future fsm) in Hsteps.
  inversion Hsteps as [|? ? F1 w1 ? ? Hout' Hstep Hrest]; subst.
  - exfalso. destruct Hpay as (Hs & Hi & _).
    rewrite (in_file_content_true fsm Hs Hi) in Hout. discriminate.
  - rewrite (read_step_extend env future fsm w l rest Hl) in Hstep.
    destruct (read_step env fsm w) as [f1 w1'|r f1 w1'|] eqn:Es; try discriminate.
    cbn [extend_step] in Hstep. injection Hstep as <- <-.
    exists f1, w1'. split; [reflexivity|].
    destruct (read_step_shrinks _ _ _ _ _ Hst Es) as [_ Hst1].
    destruct (in_file_content f1) eqn:Hin.
    + right. inversion Hrest as [|? ? ? ? ? ? Hout1]; subst.
      * exact Hpay.
      * change (in_file_content (extend future f1)) with (in_file_content f1) in Hout1.
        congruence.
    + left. split; [exact Hin|]. split; [exact Hst1|]. exists FS, WS.
      split; [exact Hrest|exact Hpay].
Qed.

Lemma head_wait fsm w S :
  in_head fsm w S ->
  evbuffer_readln (line fsm) = None ->
  read_step env fsm w = Break EVHTP_RES_OK fsm w.
Proof.
  intros (Hout & Hst & _) Hl. unfold read_step.
  unfold in_file_content in Hout.
  destruct (state fsm); [| | |congruence]; try (rewrite Hl; reflexivity).
  rewrite bool_decide_eq_true_2 in Hout by reflexivity. cbn [andb] in Hout.
  rewrite Hout. unfold recv_form_field. rewrite Hl. reflexivity.
Qed.

(** Within the payload, a line in the buffer: it is written to the file. *)
Lemma payload_turn fsm w future l rest :
  in_payload fsm w (line fsm +:+ future) ->
  evbuffer_readln (line fsm) = Some (l, rest) ->
  exists f1 w1,
    read_step env fsm w = Continue f1 w1
    /\ (in_payload f1 w1 (line f1 +:+ future) \/ at_closing f1 w1 (line f1 +:+ future)).
Proof.
  intros (Hs & Hi & Hf & written & B2 & Hw & HB & Hfree & HS) Hl.
  destruct Hf as (Hb & Hkv & Hfn & Htmp & Hfd).
  destruct (evbuffer_readln_Some _ _ _ Hl) as [Hline Hlnone].
  pose proof (evbuffer_readln_app _ future _ _ Hl) as Hl'. rewrite HS in Hl'.
  assert (Hfields : forall w', fds w' = fds w ->
            file_fields bnd P fn path (set_recved_crlf true (set_line rest fsm)) w').
  { intros w' Hfds. unfold file_fields. cbn. rewrite Hfds. repeat split; assumption. }
  destruct (evbuffer_readln B2) as [[l2 B2']|] eqn:E2.
  - (* the line ends within the payload *)
    unfold after_payload in Hl'.
    rewrite (evbuffer_readln_app _ _ _ _ E2) in Hl'. injection Hl' as <- Hrest.
    destruct (evbuffer_readln_Some _ _ _ E2) as [HB2 _].
    rewrite HB2 in Hfree. apply strstr_app_false in Hfree as [Hfl Hfree'].
    apply strstr_app_false in Hfree' as [_ Hfree'].
    eexists. eexists. split.
    { apply (file_line_step env fsm w l2 rest path written); try assumption.
      rewrite Hb. apply strstr_cstr_false, Hfl. }
    left. split; [exact Hs|]. split; [exact Hi|]. split; [apply Hfields; reflexivity|].
    exists (written +:+ (if recved_crlf fsm then CRLF else "") +:+ l2), B2'.
    cbn. split; [apply lookup_insert_eq|].
    split; [|split; [exact Hfree'|symmetry; exact Hrest]].
    rewrite <- HB, HB2. destruct (recved_crlf fsm); rewrite !str_app_assoc; reflexivity.
  - (* the line is the last of the payload *)
    unfold after_payload in Hl'.
    rewrite (evbuffer_readln_line _ _ E2) in Hl'. injection Hl' as <- Hrest.
    eexists. eexists. split.
    { apply (file_line_step env fsm w B2 rest path written); try assumption.
      rewrite Hb. apply strstr_cstr_false, Hfree. }
    right. split; [exact Hs|]. split; [exact Hi|]. split; [apply Hfields; reflexivity|].
    cbn. split; [rewrite lookup_insert_eq, HB; reflexivity|].
    split; [reflexivity|symmetry; exact Hrest].
Qed.

(** Within the payload, no line in the buffer: the turn waits, or flushes
    the buffer to the file. *)
Lemma payload_wait fsm w future :
  in_payload fsm w (line fsm +:+ future) ->
  evbuffer_readln (line fsm) = None ->
  future <> String LF (closing_line bnd +:+ CRLF) ->
  exists f1 w1,
    read_step env fsm w = Break EVHTP_RES_OK f1 w1
    /\ in_payload f1 w1 (line f1 +:+ future)
    /\ evbuffer_readln (line f1) = None.
Proof.
  intros Hpay Hl Hfut. pose proof Hpay as (Hs & Hi & Hf & written & B2 & Hw & HB & Hfree & HS).
  destruct Hf as (Hb & Hkv & Hfn & Htmp & Hfd).
  unfold read_step. rewrite Hs, Hi.
  change (g_strcmp0_eq (Some "file") "file") with true. cbv iota.
  unfold recv_file_data. rewrite Hl.
  destruct (MAX_CONTENT_LINE <=? evbuffer_get_length (line fsm))%Z eqn:Hmax.
  - (* the buffer is flushed *)
    unfold after_payload in HS.
    destruct (pending_in_payload B2 _ _ _ Hl HS) as [(B2' & HB2 & Hfuture)|[_ Hbad]];
      [|exfalso; exact (Hfut Hbad)].
    assert (Hwrite : exists w1,
      match (if recved_crlf fsm then writen env w (fd fsm) CRLF else Some w) with
      | Some w0 => writen env w0 (fd fsm) (line fsm)
      | None => None
      end = Some w1
      /\ files w1 = <[path := written +:+ (if recved_crlf fsm then CRLF else "")
                               +:+ line fsm]> (files w)
      /\ fds w1 = fds w).
    { destruct (recved_crlf fsm).
      - rewrite (writen_ok env w _ path written CRLF Hfd Hw (Hok _ _)).
        rewrite (writen_ok env (set_files (<[path:=written +:+ CRLF]> (files w)) w) _
                   path (written +:+ CRLF) (line fsm) Hfd (lookup_insert_eq _ _ _) (Hok _ _)).
        eexists. split; [reflexivity|]. cbn. rewrite insert_insert_eq, str_app_assoc.
        split; reflexivity.
      - rewrite (writen_ok env w _ path written (line fsm) Hfd Hw (Hok _ _)).
        eexists. split; [reflexivity|]. split; reflexivity. }
    destruct Hwrite as (w1 & Hw1 & Hfiles & Hfds).
    destruct (if recved_crlf fsm then writen env w (fd fsm) CRLF else Some w) as [w0|];
      [|discriminate].
    rewrite Hw1. eexists. eexists. split; [reflexivity|].
    split; [|reflexivity].
    split; [exact Hs|]. split; [exact Hi|]. split.
    { unfold file_fields. cbn. rewrite Hfds. repeat split; assumption. }
    exists (written +:+ (if recved_crlf fsm then CRLF else "") +:+ line fsm), B2'.
    cbn. rewrite Hfiles. split; [apply lookup_insert_eq|].
    rewrite HB2 in HB, Hfree. apply strstr_app_false in Hfree as [_ Hfree'].
    split; [|split; [exact Hfree'|exact Hfuture]].
    rewrite <- HB. destruct (recved_crlf fsm); rewrite !str_app_assoc; reflexivity.
  - eexists. eexists. split; [reflexivity|]. split; [exact Hpay|exact Hl].
Qed.

Lemma closing_line_read rest :
  evbuffer_readln (closing_line bnd +:+ CRLF +:+ rest) = Some (closing_line bnd, rest)
  /\ strstr (cstr (closing_line bnd)) bnd = true.
Proof.
  destruct (delimiter_line bnd "--" Hbc Hbl eq_refl eq_refl ltac:(discriminate))
    as [He1 He2].
  split; [apply evbuffer_readln_line, He1|exact He2].
Qed.

(** At the closing boundary line: the file part ends. *)
Lemma closing_turn fsm w future l rest :
  at_closing fsm w (line fsm +:+ future) ->
  evbuffer_readln (line fsm) = Some (l, rest) ->
  exists f1 w1,
    read_step env fsm w = Continue f1 w1 /\ finished f1 w1 (line f1 +:+ future).
Proof.
  intros (Hs & Hi & Hf & Hw & Hcr & HS) Hl.
  destruct Hf as (Hb & Hkv & Hfn & Htmp & Hfd).
  destruct (evbuffer_readln_Some _ _ _ Hl) as [Hline Hlnone].
  pose proof (evbuffer_readln_app _ future _ _ Hl) as Hl'. rewrite HS in Hl'.
  destruct (closing_line_read "") as [Hread Hstr].
  change (closing_line bnd +:+ CRLF +:+ "") with (closing_line bnd +:+ CRLF) in Hread.
  rewrite Hread in Hl'. injection Hl' as <- Hrest.
  eexists. eexists. split.
  { apply (part_end_step env fsm w (closing_line bnd) rest); try assumption.
    rewrite Hb. exact Hstr. }
  split; [reflexivity|]. split.
  { unfold file_fields. cbn. repeat split; assumption. }
  split; [exact Hw|]. cbn. symmetry. exact Hrest.
Qed.

Lemma closing_wait fsm w future :
  at_closing fsm w (line fsm +:+ future) ->
  evbuffer_readln (line fsm) = None ->
  read_step env fsm w = Break EVHTP_RES_OK fsm w.
Proof.
  intros (Hs & Hi & Hf & Hw & Hcr & HS) Hl.
  apply read_step_no_line; [rewrite Hs; discriminate|exact Hl|].
  assert (String.length (line fsm +:+ future) = String.length bnd + 6) as Hlen.
  { rewrite HS. unfold closing_line. rewrite !str_app_length. simpl. lia. }
  rewrite str_app_length in Hlen. unfold evbuffer_get_length. lia.
Qed.

Lemma finished_wait fsm w future :
  finished fsm w (line fsm +:+ future) ->
  read_step env fsm w = Break EVHTP_RES_OK fsm w /\ evbuffer_readln (line fsm) = None.
Proof.
  intros (Hs & _ & _ & HS). apply str_app_inv_nil in HS as [Hl _].
  split; [|rewrite Hl; reflexivity].
  apply read_step_no_line; [rewrite Hs; discriminate|rewrite Hl; reflexivity|].
  rewrite Hl. reflexivity.
Qed.

(** The loop on a buffer that holds the next bytes of the body: it leaves
    the state machine where these bytes end, with no line left in the
    buffer. *)
Lemma receive_loop (n : nat) : forall fsm w future,
  String.length (line fsm) <= n ->
  receiving fsm w (line fsm +:+ future) ->
  future <> String LF (closing_line bnd +:+ CRLF) ->
  exists fsm' w',
    runs_to env fsm w (EVHTP_RES_OK, fsm', w')
    /\ receiving fsm' w' (line fsm' +:+ future)
    /\ evbuffer_readln (line fsm') = None.
Proof.
  induction n as [|n IH]; intros fsm w future Hn Hrecv Hfut.
  - assert (line fsm = "") as Hl by (destruct (line fsm); [reflexivity|simpl in Hn; lia]).
    assert (evbuffer_readln (line fsm) = None) as Hnone by (rewrite Hl; reflexivity).
    destruct Hrecv as [H|[H|[H|H]]].
    + exists fsm, w. split; [apply runs_break, (head_wait _ _ _ H Hnone)|].
      split; [left; exact H|exact Hnone].
    + destruct (payload_wait _ _ _ H Hnone Hfut) as (f1 & w1 & Hstep & Hp & Hl1).
      exists f1, w1. split; [apply runs_break, Hstep|]. split; [right; left; exact Hp|exact Hl1].
    + exists fsm, w. split; [apply runs_break, (closing_wait _ _ _ H Hnone)|].
      split; [right; right; left; exact H|exact Hnone].
    + destruct (finished_wait _ _ _ H) as [Hstep _].
      exists fsm, w. split; [apply runs_break, Hstep|].
      split; [right; right; right; exact H|exact Hnone].
  - destruct (evbuffer_readln (line fsm)) as [[l rest]|] eqn:Hl.
    + assert (Hnext : exists f1 w1,
        read_step env fsm w = Continue f1 w1 /\ receiving f1 w1 (line f1 +:+ future)).
      { destruct Hrecv as [H|[H|[H|H]]].
        - destruct (head_turn _ _ _ _ _ H Hl) as (f1 & w1 & Hstep & [Hh|Hp]);
            exists f1, w1; (split; [exact Hstep|]); [left|right; left]; assumption.
        - destruct (payload_turn _ _ _ _ _ H Hl) as (f1 & w1 & Hstep & [Hp|Hc]);
            exists f1, w1; (split; [exact Hstep|]); [right; left|right; right; left];
            assumption.
        - destruct (closing_turn _ _ _ _ _ H Hl) as (f1 & w1 & Hstep & Hf).
          exists f1, w1. split; [exact Hstep|]. right; right; right. exact Hf.
        - destruct (finished_wait _ _ _ H) as [_ Hnone]. congruence. }
      destruct Hnext as (f1 & w1 & Hstep & Hrecv1).
      pose proof (receiving_not_error _ _ _ _ _ _ _ _ _ Hrecv) as Hst.
      destruct (read_step_shrinks _ _ _ _ _ Hst Hstep) as [Hlen _].
      destruct (IH f1 w1 future ltac:(lia) Hrecv1 Hfut) as (fsm' & w' & Hrun & Hr & Hnone).
      exists fsm', w'. split; [eapply runs_continue; eassumption|]. split; assumption.
    + destruct Hrecv as [H|[H|[H|H]]].
      * exists fsm, w. split; [apply runs_break, (head_wait _ _ _ H Hl)|].
        split; [left; exact H|exact Hl].
      * destruct (payload_wait _ _ _ H Hl Hfut) as (f1 & w1 & Hstep & Hp & Hl1).
        exists f1, w1. split; [apply runs_break, Hstep|].
        split; [right; left; exact Hp|exact Hl1].
      * exists fsm, w. split; [apply runs_break, (closing_wait _ _ _ H Hl)|].
        split; [right; right; left; exact H|exact Hl].
      * destruct (finished_wait _ _ _ H) as [Hstep _].
        exists fsm, w. split; [apply runs_break, Hstep|].
        split; [right; right; right; exact H|exact Hl].
Qed.

End Turns.

(** The chunks of a body, one after the other. *)
Lemma read_chunks_receiving env bnd P fn B path :
  cstr bnd = bnd -> evbuffer_readln bnd = None ->
  (Z.of_nat (String.length bnd) + 6 < MAX_CONTENT_LINE)%Z ->
  (forall c d, write_ok env path c d = true) ->
  forall chunks req fsm w,
    receiving env bnd P fn B path fsm w (line fsm +:+ str_concat chunks) ->
    evbuffer_readln (line fsm) = None ->
    closing_unsplit bnd chunks = true ->
    is_Some (heap w !! progress fsm) ->
    exists fsm' w',
      read_chunks env req chunks fsm w = Done (req, fsm', w')
      /\ receiving env bnd P fn B path fsm' w' (line fsm')
      /\ evbuffer_readln (line fsm') = None.
Proof.
  intros Hbc Hbl Hblen Hok.
  induction chunks as [|c cs IH]; intros req fsm w Hrecv Hnone Hsplit Hpg.
  - cbn [str_concat] in Hrecv. rewrite str_app_nil_r in Hrecv.
    exists fsm, w. split; [reflexivity|]. split; assumption.
  - cbn [str_concat] in Hrecv. rewrite <- str_app_assoc in Hrecv.
    unfold closing_unsplit in Hsplit. cbn [tails forallb] in Hsplit.
    apply andb_prop in Hsplit as [_ Hsplit].
    assert (Hfut : str_concat cs <> String LF (closing_line bnd +:+ CRLF)).
    { destruct cs; cbn [tails forallb] in Hsplit;
        apply andb_prop in Hsplit as [Hh _]; apply negb_true_iff in Hh;
        apply String.eqb_neq in Hh; exact Hh. }
    pose proof (receiving_not_error _ _ _ _ _ _ _ _ _ Hrecv) as Hst.
    destruct Hpg as [pg Hpg].
    cbn [read_chunks]. unfold upload_read_cb.
    rewrite bool_decide_eq_false_2 by exact Hst. rewrite Hpg.
    set (h1 := <[progress fsm := _]> (heap w)).
    change (set_line (line fsm +:+ c) fsm) with (extend c fsm).
    assert (Hrecv1 : receiving env bnd P fn B path (extend c fsm) (set_heap h1 w)
                       (line (extend c fsm) +:+ str_concat cs)).
    { apply receiving_heap, receiving_extend. exact Hrecv. }
    destruct (receive_loop env bnd P fn B path Hbc Hbl Hblen Hok _ _ _ _
                (Nat.le_refl _) Hrecv1 Hfut) as (f1 & w1 & Hrun & Hr1 & Hn1).
    assert (Hst1 : state (extend c fsm) <> RECV_ERROR) by exact Hst.
    rewrite (runs_to_read_loop _ _ _ _ Hrun Hst1 _ (Nat.lt_succ_diag_r _)).
    unfold read_out.
    rewrite (bool_decide_eq_true_2 (EVHTP_RES_OK = EVHTP_RES_OK) eq_refl). cbn [negb].
    apply (IH req f1 w1 Hr1 Hn1 Hsplit).
    pose proof (runs_to_read_loop _ _ _ _ Hrun Hst1 _ (Nat.lt_succ_diag_r _)) as Hloop.
    apply read_loop_frame in Hloop as [(_ & _ & _ & _ & Hp) [Hh _]].
    rewrite Hp, Hh. cbn [heap set_heap progress extend set_line]. unfold h1.
    rewrite lookup_insert_eq. eexists. reflexivity.
Qed.

(** When the whole body has come and no line is left in the buffer, the
    file part is finished. *)
Lemma receiving_end env bnd P fn B path fsm w :
  receiving env bnd P fn B path fsm w (line fsm) ->
  evbuffer_readln (line fsm) = None ->
  finished bnd P fn B path fsm w (line fsm).
Proof.
  intros [H|[H|[H|H]]] Hnone; [| | |exact H]; exfalso.
  - destruct H as (Hout & Hst & FS & WS & Hsteps & Hpay).
    inversion Hsteps as [|? ? F1 w1 ? ? _ Hstep _]; subst.
    + destruct Hpay as (Hs & Hi & _).
      unfold in_file_content in Hout. cbn [state input_name set_line] in Hs, Hi.
      rewrite Hs, Hi in Hout. discriminate.
    + assert (Hst' : state (set_line (line fsm) fsm) <> RECV_ERROR) by exact Hst.
      destruct (read_step_reads _ _ _ _ _ Hst' Hstep) as [l Hl].
      cbn [line set_line] in Hl. congruence.
  - destruct H as (_ & _ & _ & written & B2 & _ & _ & _ & HS).
    rewrite HS in Hnone. unfold after_payload in Hnone.
    exact (evbuffer_readln_crlf _ _ Hnone).
  - destruct H as (_ & _ & _ & _ & _ & HS).
    rewrite HS in Hnone. exact (evbuffer_readln_crlf (closing_line bnd) "" Hnone).
Qed.

(** ** The round trip of a body *)




(** In the example of the witness the first chunk does make the loop flush:
    after it the buffer is empty and the file holds the 10839 letters that
    had come. *)
Example long_line_flushed :
  exists req fsm w content,
    run_chunks (take 1 long_line_chunks) = Done (req, fsm, w)
    /\ line fsm = "" /\ recved_crlf fsm = false
    /\ files w !! "/tmp/seafhttp/a.txt000000" = Some content
    /\ String.length content = Z.to_nat 10839.
Proof.
  eexists. eexists. eexists. eexists. split; [vm_compute; reflexivity|].
  split; [reflexivity|]. split; [reflexivity|]. split; [reflexivity|].
  vm_compute. reflexivity.
Qed.
(** * Further properties of the code *)

(** ** The read loop: termination, replies, the error state *)

Lemma read_step_consumes env fsm w fsm' w' :
  state fsm <> RECV_ERROR ->
  read_step env fsm w = Continue fsm' w' ->
  String.length (line fsm') + 2 <= String.length (line fsm).
Proof.
  intros Hst Hstep. destruct (read_step_reads _ _ _ _ _ Hst Hstep) as [l Hl].
  apply evbuffer_readln_length in Hl. lia.
Qed.

Lemma read_chunks_total env chunks : forall req fsm w,
  read_chunks env req chunks fsm w <> OutOfFuel.
Proof.
  induction chunks as [|c cs IH]; intros req fsm w; [discriminate|].
  cbn [read_chunks]. pose proof (upload_read_cb_total env req c fsm w) as Ht.
  destruct (upload_read_cb env req c fsm w) as [[[r f] w1]| |];
    [apply IH|discriminate|congruence].
Qed.

(** X1: the loop of [upload_read_cb] ends on every input: a turn that goes
    on has taken a line, CR LF included, out of the buffer, so the callback
    and the delivery of any chunks never run out of the fuel of the model. *)
Theorem read_loop_terminates env :
  (forall fsm w fsm' w',
     state fsm <> RECV_ERROR ->
     read_step env fsm w = Continue fsm' w' ->
     String.length (line fsm') + 2 <= String.length (line fsm)
     /\ state fsm' <> RECV_ERROR)
  /\ (forall req buf fsm w, upload_read_cb env req buf fsm w <> OutOfFuel)
  /\ (forall req chunks fsm w, read_chunks env req chunks fsm w <> OutOfFuel).
Proof.
  split; [|split].
  - intros fsm w fsm' w' Hst Hstep. split.
    + exact (read_step_consumes _ _ _ _ _ Hst Hstep).
    + exact (proj2 (read_step_shrinks _ _ _ _ _ Hst Hstep)).
  - apply upload_read_cb_total.
  - intros req chunks fsm w. apply read_chunks_total.
Qed.

(** A turn that leaves the loop does not set the error state, and its
    result is OK, BadRequest or ServerError. *)
Lemma read_step_break env fsm w res fsm' w' :
  state fsm <> RECV_ERROR ->
  read_step env fsm w = Break res fsm' w' ->
  state fsm' <> RECV_ERROR /\ res <> EVHTP_RES_FOUND.
Proof.
  intros Hst. unfold read_step. destruct (state fsm) eqn:Hs; [| | |congruence].
  - destruct (evbuffer_readln (line fsm)) as [[l rest]|].
    + destruct (negb _); [|discriminate]. intros [= <- <- <-]. cbn. rewrite Hs.
      split; discriminate.
    + intros [= <- <- <-]. rewrite Hs. split; discriminate.
  - destruct (evbuffer_readln (line fsm)) as [[l rest]|].
    + destruct (String.length l =? 0)%nat.
      * destruct (g_strcmp0_eq _ _); [|discriminate].
        pose proof (open_temp_file_frame env (set_line rest fsm) w) as H.
        destruct (open_temp_file env (set_line rest fsm) w) as [[r f1] w1].
        destruct H as (_ & _ & Hs' & _). cbn in Hs'.
        destruct (r <? 0)%Z; [|discriminate]. intros [= <- <- <-].
        rewrite Hs', Hs. split; discriminate.
      * pose proof (parse_mime_header_frame (cstr l) (set_line rest fsm)) as H.
        destruct (parse_mime_header (cstr l) (set_line rest fsm)) as [r f1].
        destruct H as (_ & Hs' & _). cbn in Hs'.
        destruct (r <? 0)%Z; [|discriminate]. intros [= <- <- <-].
        rewrite Hs', Hs. split; discriminate.
    + intros [= <- <- <-]. rewrite Hs. split; discriminate.
  - destruct (g_strcmp0_eq _ _).
    + unfold recv_file_data.
      repeat case_match; intros; simplify_eq/=; rewrite ?Hs; split; discriminate.
    + unfold recv_form_field.
      repeat case_match; intros; simplify_eq/=; rewrite ?Hs; split; discriminate.
Qed.

Lemma read_loop_break env fuel : forall fsm w res fsm' w',
  state fsm <> RECV_ERROR ->
  read_loop env fuel fsm w = Done (res, fsm', w') ->
  state fsm' <> RECV_ERROR /\ res <> EVHTP_RES_FOUND.
Proof.
  induction fuel as [|fuel IH]; intros fsm w res fsm' w' Hst H; [discriminate|].
  cbn [read_loop] in H.
  destruct (read_step env fsm w) as [f1 w1|r f1 w1|] eqn:E; [| |discriminate].
  - apply (IH f1 w1 res fsm' w'); [|exact H].
    exact (proj2 (read_step_shrinks _ _ _ _ _ Hst E)).
  - injection H as <- <- <-. exact (read_step_break _ _ _ _ _ _ Hst E).
Qed.

(** X2: a call of [upload_read_cb] outside the error state either leaves
    the request as it is and stays outside the error state, or enters the
    error state and sends the one reply of the request: 400 with nothing
    added to the body, or 500 with the text [Internal server error]; in
    both cases the request is paused and keep-alive is off. *)
Theorem read_cb_replies_on_error env req buf fsm w req' fsm' w' :
  state fsm <> RECV_ERROR ->
  upload_read_cb env req buf fsm w = Done (req', fsm', w') ->
  (state fsm' <> RECV_ERROR /\ req' = req)
  \/ (state fsm' = RECV_ERROR
      /\ keepalive req' = false /\ paused req' = true
      /\ ((reply req' = Some EVHTP_RES_BADREQ /\ buffer_out req' = buffer_out req)
          \/ (reply req' = Some EVHTP_RES_SERVERR
              /\ buffer_out req' = buffer_out req +:+ "Internal server error" +:+ NL))).
Proof.
  intros Hst. unfold upload_read_cb. rewrite bool_decide_eq_false_2 by exact Hst.
  destruct (heap w !! progress fsm) as [pg|]; [|discriminate].
  match goal with |- context [read_loop env ?n ?f ?w1] =>
    destruct (read_loop env n f w1) as [[[res f2] w2]| |] eqn:E
  end; [|discriminate..].
  apply read_loop_break in E as [Hs2 Hres]; [|exact Hst].
  unfold read_out. destruct res; cbn; intros [= <- <- <-]; try congruence.
  - left. split; [exact Hs2|reflexivity].
  - right. repeat split; left; split; reflexivity.
  - right. repeat split; right; split; reflexivity.
Qed.

Lemma read_cb_replies_on_error_witness :
  exists req' fsm' w',
    upload_read_cb test_env (test_request []) ("garbage" +:+ CRLF) init_fsm started_world
      = Done (req', fsm', w')
    /\ ((state fsm' <> RECV_ERROR /\ req' = test_request [])
        \/ (state fsm' = RECV_ERROR
            /\ keepalive req' = false /\ paused req' = true
            /\ ((reply req' = Some EVHTP_RES_BADREQ
                 /\ buffer_out req' = buffer_out (test_request []))
                \/ (reply req' = Some EVHTP_RES_SERVERR
                    /\ buffer_out req'
                       = buffer_out (test_request []) +:+ "Internal server error" +:+ NL)))).
Proof.
  eexists. eexists. eexists. split; [vm_compute; reflexivity|].
  eapply (read_cb_replies_on_error test_env (test_request []) ("garbage" +:+ CRLF)
            init_fsm started_world).
  - discriminate.
  - vm_compute. reflexivity.
Defined.

Lemma read_chunks_ignored env chunks : forall req fsm w,
  state fsm = RECV_ERROR -> read_chunks env req chunks fsm w = Done (req, fsm, w).
Proof.
  induction chunks as [|c cs IH]; intros req fsm w Hst; [reflexivity|].
  cbn [read_chunks]. rewrite (upload_read_cb_ignored _ _ _ _ _ Hst). apply IH, Hst.
Qed.

(** X3: the error state absorbs: whatever chunks still come, the state
    machine, the request and the world stay as they are (no byte is
    counted, buffered or written), and [upload_cb] returns without a reply,
    so the reply sent on entering the error state stays the only one. *)
Theorem error_state_absorbs env req chunks fsm w :
  state fsm = RECV_ERROR ->
  read_chunks env req chunks fsm w = Done (req, fsm, w)
  /\ upload_cb env req (Some fsm) w = Done req.
Proof.
  intros Hst. split; [apply read_chunks_ignored, Hst|].
  unfold upload_cb. rewrite bool_decide_eq_true_2 by exact Hst. reflexivity.
Qed.

Lemma error_state_absorbs_witness :
  let fsm := set_state RECV_ERROR init_fsm in
  read_chunks test_env (test_request []) [simple_body; closing] fsm started_world
    = Done (test_request [], fsm, started_world)
  /\ upload_cb test_env (test_request []) (Some fsm) started_world
     = Done (test_request []).
Proof.
  intros fsm.
  apply (error_state_absorbs test_env (test_request []) [simple_body; closing] fsm
           started_world).
  reflexivity.
Defined.

(** ** The size of the line buffer *)

Lemma in_file_content_spec fsm :
  in_file_content fsm = true <->
  state fsm = RECV_CONTENT /\ g_strcmp0_eq (input_name fsm) "file" = true.
Proof.
  unfold in_file_content. rewrite andb_true_iff, bool_decide_eq_true. reflexivity.
Qed.

(** The turn that leaves the loop within a file part leaves less than
    [MAX_CONTENT_LINE] bytes in the buffer. *)
Lemma read_step_break_bound env fsm w fsm' w' :
  read_step env fsm w = Break EVHTP_RES_OK fsm' w' ->
  in_file_content fsm' = true ->
  (evbuffer_get_length (line fsm') < MAX_CONTENT_LINE)%Z.
Proof.
  unfold read_step. destruct (state fsm) eqn:Hs; [| | |discriminate].
  - destruct (evbuffer_readln (line fsm)) as [[l rest]|].
    + destruct (negb _); discriminate.
    + intros [= <- <-] Hin. apply in_file_content_spec in Hin as [Hc _]. congruence.
  - destruct (evbuffer_readln (line fsm)) as [[l rest]|].
    + destruct (String.length l =? 0)%nat.
      * destruct (g_strcmp0_eq _ _); [|discriminate].
        destruct (open_temp_file env (set_line rest fsm) w) as [[r f1] w1].
        destruct (r <? 0)%Z; discriminate.
      * destruct (parse_mime_header (cstr l) (set_line rest fsm)) as [r f1].
        destruct (r <? 0)%Z; discriminate.
    + intros [= <- <-] Hin. apply in_file_content_spec in Hin as [Hc _]. congruence.
  - destruct (g_strcmp0_eq (input_name fsm) "file") eqn:Hfile.
    + unfold recv_file_data.
      destruct (evbuffer_readln (line fsm)) as [[l rest]|].
      * repeat case_match; intros; simplify_eq/=.
      * destruct (MAX_CONTENT_LINE <=? evbuffer_get_length (line fsm))%Z eqn:Hlen.
        -- repeat case_match; intros; simplify_eq/=; reflexivity.
        -- intros [= <- <-] _. apply Z.leb_gt. exact Hlen.
    + unfold recv_form_field.
      destruct (evbuffer_readln (line fsm)) as [[l rest]|].
      * repeat case_match; intros; simplify_eq/=.
      * intros [= <- <-] Hin. apply in_file_content_spec in Hin as [_ Hc]. congruence.
Qed.

Lemma read_loop_bound env fuel : forall fsm w fsm' w',
  read_loop env fuel fsm w = Done (EVHTP_RES_OK, fsm', w') ->
  in_file_content fsm' = true ->
  (evbuffer_get_length (line fsm') < MAX_CONTENT_LINE)%Z.
Proof.
  induction fuel as [|fuel IH]; intros fsm w fsm' w' H; [discriminate|].
  cbn [read_loop] in H.
  destruct (read_step env fsm w) as [f1 w1|r f1 w1|] eqn:E; [| |discriminate].
  - exact (IH _ _ _ _ H).
  - injection H as -> <- <-. exact (read_step_break_bound _ _ _ _ _ E).
Qed.



(** Outside a file part, bytes that bring no CR LF are put in the buffer
    and nothing else is done. *)
Lemma upload_read_cb_keeps env req buf fsm w pg :
  state fsm <> RECV_ERROR ->
  in_file_content fsm = false ->
  evbuffer_readln (line fsm +:+ buf) = None ->
  heap w !! progress fsm = Some pg ->
  upload_read_cb env req buf fsm w
    = Done (req, set_line (line fsm +:+ buf) fsm,
            set_heap (<[progress fsm :=
                          Progress.mk
                            (wrap64 (Progress.uploaded pg + evbuffer_get_length buf))
                            (Progress.size pg)]> (heap w)) w).
Proof.
  intros Hst Hout Hnone Hpg. unfold upload_read_cb.
  rewrite bool_decide_eq_false_2 by exact Hst. rewrite Hpg.
  cbn [read_loop].
  assert (Hstep : forall w1,
            read_step env (set_line (line fsm +:+ buf) fsm) w1
            = Break EVHTP_RES_OK (set_line (line fsm +:+ buf) fsm) w1).
  { intros w1. unfold read_step. cbn [state set_line line input_name].
    unfold in_file_content in Hout.
    destruct (state fsm) eqn:Hs; [| | |congruence]; try (rewrite Hnone; reflexivity).
    rewrite bool_decide_eq_true_2 in Hout by reflexivity. cbn [andb] in Hout.
    rewrite Hout. unfold recv_form_field. cbn [line set_line]. rewrite Hnone.
    reflexivity. }
  rewrite Hstep. reflexivity.
Qed.

(** X5: outside a file part nothing bounds the line buffer: bytes that
    bring no CR LF are all kept, whatever their number, the state stays
    what it was and only the count of uploaded bytes changes.  A first
    line, the header of a part or the value of a form field can grow the
    buffer without limit. *)
Theorem line_buffer_unbounded env req buf fsm w pg :
  state fsm <> RECV_ERROR ->
  in_file_content fsm = false ->
  evbuffer_readln (line fsm +:+ buf) = None ->
  heap w !! progress fsm = Some pg ->
  upload_read_cb env req buf fsm w
    = Done (req, set_line (line fsm +:+ buf) fsm,
            set_heap (<[progress fsm :=
                          Progress.mk
                            (wrap64 (Progress.uploaded pg + evbuffer_get_length buf))
                            (Progress.size pg)]> (heap w)) w).
Proof. apply upload_read_cb_keeps. Qed.

Lemma line_buffer_unbounded_witness :
  upload_read_cb test_env (test_request []) long_payload init_fsm started_world
    = Done (test_request [], set_line (line init_fsm +:+ long_payload) init_fsm,
            set_heap (<[progress init_fsm :=
                          Progress.mk
                            (wrap64 (0 + evbuffer_get_length long_payload)) 187]>
                        (heap started_world)) started_world).
Proof.
  apply (line_buffer_unbounded test_env (test_request []) long_payload init_fsm
           started_world (Progress.mk 0 187)).
  - discriminate.
  - reflexivity.
  - vm_compute. reflexivity.
  - reflexivity.
Defined.

(** ** Delivery in chunks, when no line is long *)

(** Leaving the loop with the result OK means that no line was left. *)
Lemma read_step_break_ok env fsm w fsm' w' :
  read_step env fsm w = Break EVHTP_RES_OK fsm' w' ->
  evbuffer_readln (line fsm) = None.
Proof.
  unfold read_step. destruct (state fsm); [| | |discriminate].
  - destruct (evbuffer_readln (line fsm)) as [[l rest]|]; [|reflexivity].
    destruct (negb _); discriminate.
  - destruct (evbuffer_readln (line fsm)) as [[l rest]|]; [|reflexivity].
    destruct (String.length l =? 0)%nat.
    + destruct (g_strcmp0_eq _ _); [|discriminate].
      destruct (open_temp_file env (set_line rest fsm) w) as [[r f1] w1].
      destruct (r <? 0)%Z; discriminate.
    + destruct (parse_mime_header (cstr l) (set_line rest fsm)) as [r f1].
      destruct (r <? 0)%Z; discriminate.
  - destruct (g_strcmp0_eq _ _).
    + unfold recv_file_data.
      destruct (evbuffer_readln (line fsm)) as [[l rest]|]; [|reflexivity].
      repeat case_match; intros; simplify_eq/=.
    + unfold recv_form_field.
      destruct (evbuffer_readln (line fsm)) as [[l rest]|]; [|reflexivity].
      repeat case_match; intros; simplify_eq/=.
Qed.

(** With short lines the loop that ends with OK is a sequence of turns
    that go on, and the turn that ends it changes nothing. *)
Lemma read_loop_steps env fuel : forall fsm w fsm' w',
  state fsm <> RECV_ERROR ->
  short_lines (line fsm) = true ->
  read_loop env fuel fsm w = Done (EVHTP_RES_OK, fsm', w') ->
  steps env fsm w fsm' w'.
Proof.
  induction fuel as [|fuel IH]; intros fsm w fsm' w' Hst Hshort H; [discriminate|].
  cbn [read_loop] in H.
  destruct (read_step env fsm w) as [f1 w1|r f1 w1|] eqn:E; [| |discriminate].
  - eapply steps_step; [exact E|].
    destruct (read_step_shrinks _ _ _ _ _ Hst E) as [_ Hst1].
    destruct (read_step_reads _ _ _ _ _ Hst E) as [l Hl].
    apply (IH f1 w1 fsm' w' Hst1); [|exact H].
    unfold short_lines in Hshort |- *. rewrite (crlf_lines_Some _ _ _ Hl) in Hshort.
    cbn [forallb] in Hshort. apply andb_prop in Hshort as [_ Hshort]. exact Hshort.
  - injection H as -> <- <-.
    pose proof (read_step_break_ok _ _ _ _ _ E) as Hnone.
    assert (Hlen : (evbuffer_get_length (line fsm) < MAX_CONTENT_LINE)%Z).
    { apply (pending_short _ ""); [exact Hnone|]. rewrite str_app_nil_r. exact Hshort. }
    rewrite (read_step_no_line env fsm w Hst Hnone Hlen) in E.
    injection E as <- <-. apply steps_refl.
Qed.

Lemma set_heap_back w h : set_heap (heap w) (set_heap h w) = w.
Proof. destruct w. reflexivity. Qed.

(** X6: when every line of a body is shorter than 10239 bytes, the way the
    body is cut into chunks does not matter: if the body delivered as one
    chunk is read to its end outside the error state, then delivered in
    any chunks it leaves the same state machine (its form fields
    included), the same files with the same contents, the same descriptors
    and the same registry. *)
Theorem chunking_immaterial env req fsm w chunks req1 F1 w1 :
  state fsm <> RECV_ERROR ->
  line fsm = "" ->
  is_Some (heap w !! progress fsm) ->
  short_lines (str_concat chunks) = true ->
  upload_read_cb env req (str_concat chunks) fsm w = Done (req1, F1, w1) ->
  state F1 <> RECV_ERROR ->
  line F1 = "" ->
  exists w2,
    read_chunks env req chunks fsm w = Done (req1, F1, w2)
    /\ files w2 = files w1 /\ fds w2 = fds w1
    /\ upload_progress w2 = upload_progress w1.
Proof.
  intros Hst Hline Hpg Hshort Hone HF1 Hend.
  pose proof Hone as Hone'. unfold upload_read_cb in Hone'.
  rewrite bool_decide_eq_false_2 in Hone' by exact Hst.
  destruct Hpg as [pg Hpg]. rewrite Hpg in Hone'.
  match type of Hone' with context [read_loop env ?n ?f ?w0] =>
    destruct (read_loop env n f w0) as [[[res f2] w2]| |] eqn:E
  end; [|discriminate..].
  assert (res = EVHTP_RES_OK /\ req1 = req /\ f2 = F1 /\ w2 = w1) as (-> & -> & -> & ->).
  { unfold read_out in Hone'. destruct res; cbn in Hone'; injection Hone' as <- <- <-;
      try (cbn in HF1; congruence). repeat split; reflexivity. }
  apply read_loop_steps in E.
  2:{ exact Hst. }
  2:{ cbn [line set_line]. rewrite Hline. exact Hshort. }
  apply (steps_heap env (heap w)) in E. rewrite set_heap_back in E.
  destruct (read_chunks_steps env chunks req fsm w F1 (set_heap (heap w) w1))
    as (w' & Hr & Hf & Hd & Hu).
  - exact Hst.
  - apply read_step_no_line; [exact Hst|rewrite Hline; reflexivity|rewrite Hline; reflexivity].
  - eexists. exact Hpg.
  - exact E.
  - exact Hend.
  - rewrite Hline. exact Hshort.
  - exists w'. split; [exact Hr|]. repeat split; assumption.
Qed.

Lemma chunking_immaterial_witness :
  exists req1 F1 w1,
    upload_read_cb test_env (test_request [])
      (str_concat [str_take 50 simple_body; str_drop 50 simple_body])
      init_fsm started_world = Done (req1, F1, w1)
    /\ exists w2,
         read_chunks test_env (test_request [])
           [str_take 50 simple_body; str_drop 50 simple_body] init_fsm started_world
           = Done (req1, F1, w2)
         /\ files w2 = files w1 /\ fds w2 = fds w1
         /\ upload_progress w2 = upload_progress w1.
Proof.
  eexists. eexists. eexists. split; [vm_compute; reflexivity|].
  eapply (chunking_immaterial test_env (test_request []) init_fsm started_world
            [str_take 50 simple_body; str_drop 50 simple_body]).
  - discriminate.
  - reflexivity.
  - eexists. reflexivity.
  - vm_compute. reflexivity.
  - vm_compute. reflexivity.
  - discriminate.
  - reflexivity.
Defined.

(** ** Form fields and the first line *)

Lemma crlf_join_cons l ls : crlf_join (l :: ls) = l +:+ CRLF +:+ crlf_join ls.
Proof. unfold crlf_join. cbn [map str_concat]. apply str_app_assoc. Qed.

(** The lines of the value of a form field, read one after the other: each
    one replaces the one before. *)
Lemma field_lines_steps env k : forall ls l fsm w,
  state fsm = RECV_CONTENT ->
  input_name fsm = Some k ->
  String.eqb k "file" = false ->
  line fsm = crlf_join (ls ++ [l]) ->
  Forall (fun x => evbuffer_readln x = None /\ strstr (cstr x) (boundary fsm) = false)
    (ls ++ [l]) ->
  steps env fsm w
    (set_form_kvs (<[k := cstr l]> (form_kvs fsm)) (set_line "" fsm)) w.
Proof.
  induction ls as [|x ls IH]; intros l fsm w Hst Hin Hk Hline Hall.
  - cbn [app] in Hline, Hall. apply Forall_cons in Hall as [[Hl Hb] _].
    rewrite crlf_join_cons in Hline. apply steps_one.
    apply (field_value_step env fsm w l "" k Hst Hin Hk Hline Hl Hb).
  - cbn [app] in Hline, Hall. apply Forall_cons in Hall as [[Hx Hb] Hall].
    rewrite crlf_join_cons in Hline.
    eapply steps_step.
    { apply (field_value_step env fsm w x _ k Hst Hin Hk Hline Hx Hb). }
    set (f1 := set_form_kvs (<[k := cstr x]> (form_kvs fsm))
                 (set_line (crlf_join (ls ++ [l])) fsm)).
    pose proof (IH l f1 w Hst Hin Hk eq_refl Hall) as Hs.
    assert (Heq : set_form_kvs (<[k := cstr l]> (form_kvs f1)) (set_line "" f1)
                  = set_form_kvs (<[k := cstr l]> (form_kvs fsm)) (set_line "" fsm)).
    { unfold f1, set_form_kvs, set_line. cbn. rewrite insert_insert_eq. reflexivity. }
    rewrite Heq in Hs. exact Hs.
Qed.

(** X7: the value of a form field is its last line.  When the lines of a
    value come, none of them holding the boundary string, each one is
    stored under the name of the field in place of the one before, cut at
    its first NUL byte: after them [form_kvs] maps the name to the last
    line, and nothing of the earlier lines is kept. *)
Theorem field_value_is_last_line env req fsm w k pg ls l :
  state fsm = RECV_CONTENT ->
  input_name fsm = Some k ->
  k <> "file" ->
  line fsm = "" ->
  heap w !! progress fsm = Some pg ->
  Forall (fun x => evbuffer_readln x = None /\ strstr (cstr x) (boundary fsm) = false)
    (ls ++ [l]) ->
  exists w',
    upload_read_cb env req (crlf_join (ls ++ [l])) fsm w
      = Done (req, set_form_kvs (<[k := cstr l]> (form_kvs fsm)) fsm, w')
    /\ files w' = files w.
Proof.
  intros Hst Hin Hk Hline Hpg Hall.
  apply String.eqb_neq in Hk.
  assert (Hne : state fsm <> RECV_ERROR) by congruence.
  unfold upload_read_cb. rewrite bool_decide_eq_false_2 by exact Hne. rewrite Hpg.
  set (h1 := <[progress fsm := _]> (heap w)).
  set (f0 := set_line (line fsm +:+ crlf_join (ls ++ [l])) fsm).
  assert (Hsteps : steps env f0 (set_heap h1 w)
                     (set_form_kvs (<[k := cstr l]> (form_kvs f0)) (set_line "" f0))
                     (set_heap h1 w)).
  { apply (field_lines_steps env k ls l f0); try assumption.
    unfold f0. cbn [line set_line]. rewrite Hline. reflexivity. }
  assert (Hrun : runs_to env f0 (set_heap h1 w)
                   (EVHTP_RES_OK,
                    set_form_kvs (<[k := cstr l]> (form_kvs f0)) (set_line "" f0),
                    set_heap h1 w)).
  { eapply steps_runs_to; [exact Hsteps|].
    apply read_step_no_line; [cbn; congruence|reflexivity|reflexivity]. }
  rewrite (runs_to_read_loop _ _ _ _ Hrun Hne _ (Nat.lt_succ_diag_r _)).
  exists (set_heap h1 w). split; [|reflexivity].
  unfold read_out. cbn. f_equal. f_equal. f_equal.
  destruct fsm. cbn in Hline |- *. rewrite Hline. reflexivity.
Qed.

Lemma field_value_is_last_line_witness :
  let fsm := set_input_name (Some "parent_dir") (set_state RECV_CONTENT init_fsm) in
  exists w',
    upload_read_cb test_env (test_request []) (crlf_join (["/a"; "/b"] ++ ["/c"]))
      fsm started_world
      = Done (test_request [],
              set_form_kvs (<["parent_dir" := cstr "/c"]> (form_kvs fsm)) fsm, w')
    /\ files w' = files started_world.
Proof.
  intros fsm.
  apply (field_value_is_last_line test_env (test_request []) fsm started_world
           "parent_dir" (Progress.mk 0 187) ["/a"; "/b"] "/c").
  - reflexivity.
  - reflexivity.
  - discriminate.
  - reflexivity.
  - reflexivity.
  - repeat constructor.
Defined.

(** The chunks that come before the first line is complete, and the one
    that completes it. *)
Lemma first_line_rejected env l rest : forall chunks req fsm w,
  state fsm = RECV_INIT ->
  evbuffer_readln (line fsm) = None ->
  is_Some (heap w !! progress fsm) ->
  line fsm +:+ str_concat chunks = l +:+ CRLF +:+ rest ->
  evbuffer_readln l = None ->
  strstr (cstr l) (boundary fsm) = false ->
  exists fsm' w',
    read_chunks env req chunks fsm w
      = Done (evhtp_send_reply EVHTP_RES_BADREQ (pause_and_close req), fsm', w')
    /\ state fsm' = RECV_ERROR
    /\ form_kvs fsm' = form_kvs fsm /\ tmp_file fsm' = tmp_file fsm
    /\ files w' = files w /\ fds w' = fds w.
Proof.
  induction chunks as [|c cs IH]; intros req fsm w Hst Hnone Hpg Hbody Hl Hb.
  - cbn [str_concat] in Hbody. rewrite str_app_nil_r in Hbody.
    rewrite Hbody, (evbuffer_readln_line _ _ Hl) in Hnone. discriminate.
  - cbn [str_concat] in Hbody. rewrite <- str_app_assoc in Hbody.
    assert (Hne : state fsm <> RECV_ERROR) by congruence.
    destruct Hpg as [pg Hpg].
    destruct (evbuffer_readln (line fsm +:+ c)) as [[l' r']|] eqn:E.
    + pose proof (evbuffer_readln_app _ (str_concat cs) _ _ E) as E'.
      rewrite Hbody, (evbuffer_readln_line _ _ Hl) in E'. injection E' as <- _.
      cbn [read_chunks]. unfold upload_read_cb.
      rewrite bool_decide_eq_false_2 by exact Hne. rewrite Hpg.
      cbn [read_loop]. unfold read_step at 1. cbn [state set_line line boundary].
      rewrite Hst, E. cbn [boundary set_line]. rewrite Hb. cbn [negb].
      unfold read_out. cbn.
      eexists. eexists. split; [apply read_chunks_ignored; reflexivity|].
      repeat split; reflexivity.
    + cbn [read_chunks].
      rewrite (upload_read_cb_keeps env req c fsm w pg Hne) by
        (try assumption; unfold in_file_content; rewrite Hst; reflexivity).
      destruct (IH req (set_line (line fsm +:+ c) fsm)
                  (set_heap (<[progress fsm :=
                     Progress.mk (wrap64 (Progress.uploaded pg + evbuffer_get_length c))
                       (Progress.size pg)]> (heap w)) w))
        as (fsm' & w' & Hr & Hs & Hk & Ht & Hf & Hd);
        try assumption.
      * cbn. rewrite lookup_insert_eq. eexists. reflexivity.
      * exists fsm', w'. split; [exact Hr|]. repeat split; assumption.
Qed.

(** X8: the first line of the body must hold the boundary.  When it does
    not, then in whatever chunks the body comes the request is answered
    400 as soon as the line is complete, paused and closed; the state
    machine ends in the error state, no form field is stored and no file
    is made or written.  A preamble before the first boundary line is not
    accepted. *)
Theorem first_line_without_boundary env req chunks fsm w l rest :
  state fsm = RECV_INIT ->
  line fsm = "" ->
  is_Some (heap w !! progress fsm) ->
  str_concat chunks = l +:+ CRLF +:+ rest ->
  evbuffer_readln l = None ->
  strstr (cstr l) (boundary fsm) = false ->
  exists fsm' w',
    read_chunks env req chunks fsm w
      = Done (evhtp_send_reply EVHTP_RES_BADREQ (pause_and_close req), fsm', w')
    /\ state fsm' = RECV_ERROR
    /\ form_kvs fsm' = form_kvs fsm /\ tmp_file fsm' = tmp_file fsm
    /\ files w' = files w /\ fds w' = fds w.
Proof.
  intros Hst Hline Hpg Hbody Hl Hb.
  apply (first_line_rejected env l rest chunks req fsm w Hst); try assumption.
  - rewrite Hline. reflexivity.
  - rewrite Hline. exact Hbody.
Qed.

Lemma first_line_without_boundary_witness :
  exists fsm' w',
    read_chunks test_env (test_request []) ["pre"; "amble" +:+ CRLF +:+ "--"; simple_body]
      init_fsm started_world
      = Done (evhtp_send_reply EVHTP_RES_BADREQ (pause_and_close (test_request [])),
              fsm', w')
    /\ state fsm' = RECV_ERROR
    /\ form_kvs fsm' = form_kvs init_fsm /\ tmp_file fsm' = tmp_file init_fsm
    /\ files w' = files started_world /\ fds w' = fds started_world.
Proof.
  apply (first_line_without_boundary test_env (test_request [])
           ["pre"; "amble" +:+ CRLF +:+ "--"; simple_body] init_fsm started_world
           "preamble" ("--" +:+ simple_body)).
  - reflexivity.
  - reflexivity.
  - eexists. reflexivity.
  - reflexivity.
  - reflexivity.
  - reflexivity.
Defined.

(** ** What a file part relies on, and what the callback leaves alone *)

Lemma fresh_fd_bound (open : gmap Z string) k :
  is_Some (open !! k) -> (k <= map_fold (fun k _ m => Z.max k m) 2 open)%Z.
Proof.
  revert k. apply (map_fold_weak_ind
    (fun r (m : gmap Z string) => forall k, is_Some (m !! k) -> (k <= r)%Z)).
  - intros k [x Hx]. rewrite lookup_empty in Hx. discriminate.
  - intros i x m r Hi IH k [y Hy].
    destruct (decide (i = k)) as [->|Hne]; [lia|].
    rewrite lookup_insert_ne in Hy by exact Hne.
    specialize (IH k (ex_intro _ y Hy)). lia.
Qed.

Lemma fresh_fd_fresh (open : gmap Z string) : open !! fresh_fd open = None.
Proof.
  destruct (open !! fresh_fd open) eqn:E; [|reflexivity].
  pose proof (fresh_fd_bound open (fresh_fd open) (ex_intro _ _ E)) as Hb.
  unfold fresh_fd in Hb. lia.
Qed.

Lemma keeps_files_refl fsm w : keeps_files fsm w fsm w.
Proof. split; [intros p c Hp Ht; split; assumption|intros d p Hd; exact Hd]. Qed.

Lemma keeps_files_trans f1 w1 f2 w2 f3 w3 :
  keeps_files f1 w1 f2 w2 -> keeps_files f2 w2 f3 w3 -> keeps_files f1 w1 f3 w3.
Proof.
  intros [Ha Hb] [Ha' Hb']. split.
  - intros p c Hp Ht. destruct (Ha p c Hp Ht) as [Hp2 Ht2]. exact (Ha' p c Hp2 Ht2).
  - intros d p Hd. exact (Hb' d p (Hb d p Hd)).
Qed.

(** A change of the state machine that leaves its temp file, and of the
    world that leaves files and descriptors. *)
Lemma keeps_files_same fsm w fsm' w' :
  tmp_file fsm' = tmp_file fsm -> files w' = files w -> fds w' = fds w ->
  keeps_files fsm w fsm' w'.
Proof.
  intros Ht Hf Hd. split.
  - intros p c Hp Hne. rewrite Hf, Ht. split; assumption.
  - intros d p Hp. rewrite Hd. exact Hp.
Qed.

(** A write to the temp file of the state machine. *)
Lemma keeps_files_write fsm w fsm' path content :
  tmp_file fsm = Some path -> tmp_file fsm' = Some path ->
  keeps_files fsm w fsm' (set_files (<[path := content]> (files w)) w).
Proof.
  intros Ht Ht'. split.
  - intros p c Hp Hne. rewrite Ht in Hne. rewrite Ht'. split; [|exact Hne].
    cbn [files set_files]. rewrite lookup_insert_ne by congruence. exact Hp.
  - intros d p Hd. exact Hd.
Qed.

Lemma set_files_twice v v' w : set_files v (set_files v' w) = set_files v w.
Proof. reflexivity. Qed.

Lemma writen_own env w fd path old data :
  fds w !! fd = Some path ->
  files w !! path = Some old ->
  writen env w fd data =
    if write_ok env path old data
    then Some (set_files (<[path := old +:+ data]> (files w)) w)
    else None.
Proof. intros Hfd Hfile. unfold writen. rewrite Hfd, Hfile. reflexivity. Qed.

Lemma parse_mime_header_named header fsm :
  (input_name fsm = Some "file" -> is_Some (file_name fsm)) ->
  ((parse_mime_header header fsm).1 <? 0)%Z = false ->
  input_name (parse_mime_header header fsm).2 = Some "file" ->
  is_Some (file_name (parse_mime_header header fsm).2).
Proof.
  intros Hok. unfold parse_mime_header.
  destruct (strchr header ":") as [colon|]; [|discriminate].
  destruct (String.eqb _ "Content-Disposition"); [|cbn; intros _; exact Hok].
  destruct (_ <? 2)%nat; [discriminate|].
  destruct (negb _); [discriminate|].
  cbn [input_name set_input_name].
  destruct (find_param get_mime_header_param_value "name" _ _) as [nm|]; [|discriminate].
  destruct (String.eqb_spec nm "file") as [->|Hne].
  - cbn [file_name set_file_name set_input_name].
    destruct (find_param get_mime_header_param_value "filename" _ _) as [fn|];
      [|discriminate].
    cbn. intros _ _. eexists. reflexivity.
  - cbn. intros _ [= ->]. congruence.
Qed.

Lemma in_file_content_false_state fsm :
  state fsm <> RECV_CONTENT -> in_file_content fsm = false.
Proof.
  intros H. unfold in_file_content. rewrite bool_decide_eq_false_2 by exact H. reflexivity.
Qed.

Lemma recv_file_data_ready env fsm w :
  state fsm = RECV_CONTENT ->
  g_strcmp0_eq (input_name fsm) "file" = true ->
  file_part_ready fsm w ->
  let '(res, no_line, fsm', w') := recv_file_data env fsm w in
  (res = EVHTP_RES_OK -> file_part_ready fsm' w') /\ keeps_files fsm w fsm' w'.
Proof.
  intros Hst Hin [Hname Hfile].
  assert (Hc : in_file_content fsm = true)
    by (apply in_file_content_spec; split; assumption).
  destruct (Hfile Hc) as (path & Htmp & Hfd & [old Hold]).
  assert (Hready : forall f' content,
            state f' = RECV_CONTENT -> input_name f' = input_name fsm ->
            file_name f' = file_name fsm -> tmp_file f' = Some path -> fd f' = fd fsm ->
            file_part_ready f' (set_files (<[path := content]> (files w)) w)).
  { intros f' content Hs' Hi' Hn' Ht' Hd'. split.
    - intros _. rewrite Hi', Hn'. apply Hname. congruence.
    - intros _. exists path. rewrite Hd'. split; [exact Ht'|]. split; [exact Hfd|].
      cbn [files set_files]. rewrite lookup_insert_eq. eexists. reflexivity. }
  assert (Hstay : forall f',
            state f' = RECV_CONTENT -> input_name f' = input_name fsm ->
            file_name f' = file_name fsm -> tmp_file f' = Some path -> fd f' = fd fsm ->
            file_part_ready f' w).
  { intros f' Hs' Hi' Hn' Ht' Hd'. split.
    - intros _. rewrite Hi', Hn'. apply Hname. congruence.
    - intros _. exists path. rewrite Hd'. split; [exact Ht'|]. split; [exact Hfd|].
      eexists. exact Hold. }
  assert (Hend : forall f' w',
            state f' = RECV_HEADERS -> input_name f' = None -> file_part_ready f' w').
  { intros f' w' Hs' Hi'. split.
    - intros _. rewrite Hi'. discriminate.
    - intros Hc'. apply in_file_content_spec in Hc' as [Hc' _]. congruence. }
  unfold recv_file_data.
  destruct (evbuffer_readln (line fsm)) as [[l rest]|].
  - cbn [boundary set_line recved_crlf fd].
    destruct (strstr _ _).
    + split; [intros _; apply Hend; reflexivity|].
      apply keeps_files_same; reflexivity.
    + destruct (recved_crlf fsm).
      * rewrite (writen_own env w _ path old CRLF Hfd Hold).
        destruct (write_ok env path old CRLF).
        2:{ split; [discriminate|apply keeps_files_same; reflexivity]. }
        cbv iota beta.
        rewrite (writen_own env (set_files (<[path := old +:+ CRLF]> (files w)) w) _ path
                   (old +:+ CRLF) l Hfd (lookup_insert_eq _ _ _)).
        destruct (write_ok env path (old +:+ CRLF) l).
        -- cbn [files set_files]. rewrite insert_insert_eq, set_files_twice.
           split; [intros _; apply (Hready _ _); solve [reflexivity | exact Hst | exact Htmp]|].
           apply keeps_files_write; [exact Htmp|exact Htmp].
        -- split; [discriminate|].
           apply keeps_files_write; [exact Htmp|exact Htmp].
      * cbv iota beta. rewrite (writen_own env w _ path old l Hfd Hold).
        destruct (write_ok env path old l).
        -- split; [intros _; apply (Hready _ _); solve [reflexivity | exact Hst | exact Htmp]|].
           apply keeps_files_write; [exact Htmp|exact Htmp].
        -- split; [discriminate|apply keeps_files_same; reflexivity].
  - destruct (MAX_CONTENT_LINE <=? _)%Z.
    2:{ split; [intros _; apply Hstay; solve [reflexivity | exact Hst | exact Htmp]|].
        apply keeps_files_refl. }
    destruct (recved_crlf fsm).
    + rewrite (writen_own env w _ path old CRLF Hfd Hold).
      destruct (write_ok env path old CRLF).
      2:{ split; [discriminate|apply keeps_files_refl]. }
      cbv iota beta.
      rewrite (writen_own env (set_files (<[path := old +:+ CRLF]> (files w)) w) _ path
                 (old +:+ CRLF) (line fsm) Hfd (lookup_insert_eq _ _ _)).
      destruct (write_ok env path (old +:+ CRLF) (line fsm)).
      * cbn [files set_files]. rewrite insert_insert_eq, set_files_twice.
        split; [intros _; apply (Hready _ _); solve [reflexivity | exact Hst | exact Htmp]|].
        apply keeps_files_write; [exact Htmp|exact Htmp].
      * split; [discriminate|].
        apply keeps_files_write; [exact Htmp|exact Htmp].
    + cbv iota beta. rewrite (writen_own env w _ path old (line fsm) Hfd Hold).
      destruct (write_ok env path old (line fsm)).
      * split; [intros _; apply (Hready _ _); solve [reflexivity | exact Hst | exact Htmp]|].
        apply keeps_files_write; [exact Htmp|exact Htmp].
      * split; [discriminate|apply keeps_files_refl].
Qed.

(** A turn of the loop keeps what a file part relies on, and the files and
    descriptors that are not its own. *)
Lemma read_step_ready env fsm w :
  file_part_ready fsm w ->
  state fsm <> RECV_ERROR ->
  match read_step env fsm w with
  | Continue fsm' w' => file_part_ready fsm' w' /\ keeps_files fsm w fsm' w'
  | Break res fsm' w' =>
      (res = EVHTP_RES_OK -> file_part_ready fsm' w') /\ keeps_files fsm w fsm' w'
  | Crash => True
  end.
Proof.
  intros Hready Hne. pose proof Hready as [Hname Hfile].
  assert (Hout : forall f' w',
            state f' <> RECV_CONTENT -> input_name f' = input_name fsm ->
            file_name f' = file_name fsm -> file_part_ready f' w').
  { intros f' w' Hs Hi Hn. split.
    - intros _. rewrite Hi, Hn. apply Hname, Hne.
    - intros Hc. apply in_file_content_spec in Hc as [Hc _]. congruence. }
  unfold read_step. destruct (state fsm) eqn:Hs; [| | |congruence].
  - destruct (evbuffer_readln (line fsm)) as [[l rest]|].
    + destruct (negb _).
      * split; [discriminate|apply keeps_files_same; reflexivity].
      * split; [apply Hout; [discriminate|reflexivity..]|apply keeps_files_same; reflexivity].
    + split; [intros _; exact Hready|apply keeps_files_refl].
  - destruct (evbuffer_readln (line fsm)) as [[l rest]|].
    2:{ split; [intros _; exact Hready|apply keeps_files_refl]. }
    destruct (String.length l =? 0)%nat.
    + cbn [input_name set_line].
      destruct (g_strcmp0_eq (input_name fsm) "file") eqn:Hin.
      * unfold open_temp_file. cbn [file_name set_line files].
        destruct (mkstemp_name env (files w) _) as [path|].
        2:{ cbn. split; [discriminate|apply keeps_files_same; reflexivity]. }
        destruct (files w !! path) eqn:Hfree.
        { cbn. split; [discriminate|apply keeps_files_same; reflexivity]. }
        cbn [Z.ltb Z.compare]. cbv iota. split.
        -- split.
           ++ intros _. cbn. apply Hname, Hne.
           ++ intros _. exists path. cbn. split; [reflexivity|].
              rewrite !lookup_insert_eq. split; [reflexivity|eexists; reflexivity].
        -- split.
           ++ intros p c Hp Ht. cbn. split.
              ** rewrite lookup_insert_ne by congruence. exact Hp.
              ** congruence.
           ++ intros d p Hd. cbn. rewrite lookup_insert_ne; [exact Hd|].
              intros <-. rewrite fresh_fd_fresh in Hd. discriminate.
      * split; [|apply keeps_files_same; reflexivity].
        split.
        -- intros _. cbn. apply Hname, Hne.
        -- intros Hc. apply in_file_content_spec in Hc as [_ Hc]. cbn in Hc. congruence.
    + pose proof (parse_mime_header_frame (cstr l) (set_line rest fsm)) as Hf.
      pose proof (parse_mime_header_named (cstr l) (set_line rest fsm)) as Hn.
      destruct (parse_mime_header (cstr l) (set_line rest fsm)) as [r f1].
      cbn [fst snd] in Hf, Hn.
      destruct Hf as (_ & Hs1 & _ & Ht1 & _). cbn in Hs1, Ht1.
      destruct (r <? 0)%Z eqn:Hr.
      * split; [discriminate|apply keeps_files_same; [exact Ht1|reflexivity..]].
      * split; [|apply keeps_files_same; [exact Ht1|reflexivity..]].
        split.
        -- intros _ Hi. apply Hn; [apply Hname, Hne|reflexivity|exact Hi].
        -- intros Hc. apply in_file_content_spec in Hc as [Hc _]. congruence.
  - destruct (g_strcmp0_eq (input_name fsm) "file") eqn:Hin.
    + pose proof (recv_file_data_ready env fsm w Hs Hin Hready) as H.
      destruct (recv_file_data env fsm w) as [[[res nl] f1] w1].
      destruct H as [Hr Hk].
      destruct (bool_decide (res = EVHTP_RES_OK)) eqn:Hres; cbn [negb].
      * apply bool_decide_eq_true in Hres.
        destruct nl; split; auto.
      * split; [|exact Hk]. apply bool_decide_eq_false in Hres. congruence.
    + unfold recv_form_field.
      destruct (evbuffer_readln (line fsm)) as [[l rest]|].
      2:{ cbn. split; [intros _; exact Hready|apply keeps_files_refl]. }
      cbn [boundary set_line input_name form_kvs].
      destruct (strstr _ _).
      * cbn. split; [|apply keeps_files_same; reflexivity].
        split; [intros _; discriminate|].
        intros Hc. apply in_file_content_spec in Hc as [Hc _]. discriminate.
      * destruct (input_name fsm) as [k|] eqn:Hk; [|exact I].
        cbn. split; [|apply keeps_files_same; reflexivity].
        split.
        -- intros _. cbn. rewrite Hk. apply Hname, Hne.
        -- intros Hc. apply in_file_content_spec in Hc as [_ Hc]. cbn in Hc.
           rewrite Hk in Hc. congruence.
Qed.

Lemma read_loop_ready env fuel : forall fsm w res fsm' w',
  file_part_ready fsm w ->
  state fsm <> RECV_ERROR ->
  read_loop env fuel fsm w = Done (res, fsm', w') ->
  (res = EVHTP_RES_OK -> file_part_ready fsm' w') /\ keeps_files fsm w fsm' w'.
Proof.
  induction fuel as [|fuel IH]; intros fsm w res fsm' w' Hready Hne H; [discriminate|].
  cbn [read_loop] in H. pose proof (read_step_ready env fsm w Hready Hne) as Hstep.
  destruct (read_step env fsm w) as [f1 w1|r f1 w1|] eqn:E; [| |discriminate].
  - destruct Hstep as [Hr1 Hk1].
    destruct (read_step_shrinks _ _ _ _ _ Hne E) as [_ Hne1].
    destruct (IH _ _ _ _ _ Hr1 Hne1 H) as [Hr2 Hk2].
    split; [exact Hr2|]. eapply keeps_files_trans; eassumption.
  - injection H as <- <- <-. exact Hstep.
Qed.

Lemma upload_read_cb_ready env req buf fsm w req' fsm' w' :
  file_part_ready fsm w ->
  upload_read_cb env req buf fsm w = Done (req', fsm', w') ->
  file_part_ready fsm' w' /\ keeps_files fsm w fsm' w'.
Proof.
  intros Hready. unfold upload_read_cb.
  destruct (bool_decide (state fsm = RECV_ERROR)) eqn:Hst.
  { intros [= <- <- <-]. split; [exact Hready|apply keeps_files_refl]. }
  apply bool_decide_eq_false in Hst.
  destruct (heap w !! progress fsm) as [pg|]; [|discriminate].
  match goal with |- context [read_loop env ?n ?f ?w1] =>
    destruct (read_loop env n f w1) as [[[res f2] w2]| |] eqn:E
  end; [|discriminate..].
  apply read_loop_ready in E as [Hr Hk]; [|exact Hready|exact Hst].
  assert (Hk' : keeps_files fsm w f2 w2) by exact Hk.
  unfold read_out. destruct res; cbn; intros [= <- <- <-];
    [split; [exact (Hr eq_refl)|exact Hk']|..];
    (split; [|exact Hk']);
    (split; [intros Hs; cbn in Hs; congruence|]);
    intros Hc; apply in_file_content_spec in Hc as [Hc _]; discriminate.
Qed.

Lemma read_chunks_ready env chunks : forall req fsm w req' fsm' w',
  file_part_ready fsm w ->
  read_chunks env req chunks fsm w = Done (req', fsm', w') ->
  file_part_ready fsm' w' /\ keeps_files fsm w fsm' w'.
Proof.
  induction chunks as [|c cs IH]; intros req fsm w req' fsm' w' Hready H.
  - injection H as <- <- <-. split; [exact Hready|apply keeps_files_refl].
  - cbn [read_chunks] in H.
    destruct (upload_read_cb env req c fsm w) as [[[r1 f1] w1]| |] eqn:E;
      [|discriminate..].
    destruct (upload_read_cb_ready _ _ _ _ _ _ _ _ Hready E) as [Hr1 Hk1].
    destruct (IH _ _ _ _ _ _ Hr1 H) as [Hr2 Hk2].
    split; [exact Hr2|]. eapply keeps_files_trans; eassumption.
Qed.

Lemma upload_headers_cb_ready env req hdr w req1 fsm w1 :
  upload_headers_cb env req hdr w = (req1, Some fsm, w1) ->
  file_part_ready fsm w1 /\ files w1 = files w /\ fds w1 = fds w.
Proof.
  unfold upload_headers_cb.
  destruct (uri_file req); [|discriminate].
  destruct (check_access_token env s) as [[repo usr]|]; [|discriminate].
  destruct (get_boundary hdr); [|discriminate].
  destruct (get_progress_info req hdr) as [[len id]|]; [|discriminate].
  intros [= <- <- <-]. split; [|split; reflexivity].
  split; [intros _; discriminate|].
  intros Hc. apply in_file_content_spec in Hc as [Hc _]. discriminate.
Qed.

(** X9: what a file part relies on holds all along a request.  From the
    state machine [upload_headers_cb] makes, and after any chunks: outside
    the error state an input named [file] has a file name (the template of
    the temp file is never made from a NULL name), and while file content
    is received [tmp_file] names a file that exists and [fd] is a
    descriptor open on it, so that file data is never written through a
    descriptor the request did not open. *)
Theorem file_part_invariant env req hdr chunks w req1 fsm w1 req2 fsm2 w2 :
  upload_headers_cb env req hdr w = (req1, Some fsm, w1) ->
  read_chunks env req1 chunks fsm w1 = Done (req2, fsm2, w2) ->
  file_part_ready fsm2 w2.
Proof.
  intros Hh Hr. apply upload_headers_cb_ready in Hh as [Hready _].
  exact (proj1 (read_chunks_ready _ _ _ _ _ _ _ _ Hready Hr)).
Qed.

Lemma file_part_invariant_witness :
  exists req1 fsm w1 req2 fsm2 w2,
    upload_headers_cb test_env (test_request [("X-Progress-ID", "p1")])
      (test_headers "187") empty_world = (req1, Some fsm, w1)
    /\ read_chunks test_env req1 [file_part_header "a.txt"; "hello"] fsm w1
       = Done (req2, fsm2, w2)
    /\ in_file_content fsm2 = true
    /\ file_part_ready fsm2 w2.
Proof.
  eexists. eexists. eexists. eexists. eexists. eexists.
  split; [vm_compute; reflexivity|].
  split; [vm_compute; reflexivity|].
  split; [reflexivity|].
  eapply (file_part_invariant test_env (test_request [("X-Progress-ID", "p1")])
            (test_headers "187") [file_part_header "a.txt"; "hello"] empty_world).
  - vm_compute. reflexivity.
  - vm_compute. reflexivity.
Defined.

(** X10: what the delivery of a body leaves alone.  For a state machine
    that has what a file part relies on, after any chunks: every file that
    was there and is not the temp file of the request has its content
    unchanged (the callback makes new files only, and writes to its own);
    every descriptor that was open is still open on the same file; the
    registry is as it was; the heap is changed at the [Progress] of the
    request only; and repo, user, boundary and progress id of the state
    machine are what they were. *)
Theorem read_chunks_footprint env req chunks fsm w req' fsm' w' :
  file_part_ready fsm w ->
  read_chunks env req chunks fsm w = Done (req', fsm', w') ->
  (forall p c, files w !! p = Some c -> tmp_file fsm <> Some p ->
     files w' !! p = Some c)
  /\ (forall d p, fds w !! d = Some p -> fds w' !! d = Some p)
  /\ upload_progress w' = upload_progress w
  /\ (forall a, a <> progress fsm -> heap w' !! a = heap w !! a)
  /\ same_request fsm fsm'.
Proof.
  intros Hready Hr.
  destruct (read_chunks_ready _ _ _ _ _ _ _ _ Hready Hr) as [_ [Hfiles Hfds]].
  split; [intros p c Hp Ht; exact (proj1 (Hfiles p c Hp Ht))|].
  split; [exact Hfds|].
  clear Hready Hfiles Hfds. revert req fsm w Hr.
  induction chunks as [|c cs IH]; intros req fsm w Hr.
  - injection Hr as <- <- <-. split; [reflexivity|]. split; [reflexivity|].
    apply same_request_refl.
  - cbn [read_chunks] in Hr.
    destruct (upload_read_cb env req c fsm w) as [[[r1 f1] w1]| |] eqn:E;
      [|discriminate..].
    destruct (IH _ _ _ Hr) as (Hu & Hh & Hs).
    assert (H1 : upload_progress w1 = upload_progress w
                 /\ (forall a, a <> progress fsm -> heap w1 !! a = heap w !! a)
                 /\ same_request fsm f1).
    { clear -E. unfold upload_read_cb in E.
      destruct (bool_decide (state fsm = RECV_ERROR)).
      { injection E as <- <- <-. split; [reflexivity|]. split; [reflexivity|].
        apply same_request_refl. }
      destruct (heap w !! progress fsm) as [pg|]; [|discriminate].
      match type of E with context [read_loop env ?n ?f ?w0] =>
        destruct (read_loop env n f w0) as [[[res f2] w2]| |] eqn:El
      end; [|discriminate..].
      apply read_loop_frame in El as [Hs [Hh Hu]]. cbn in Hh, Hu.
      assert (w1 = w2 /\ same_request f2 f1) as [-> Hs'].
      { unfold read_out in E. destruct res; cbn in E; injection E as <- <- <-;
          (split; [reflexivity|repeat split; reflexivity]). }
      split; [exact Hu|]. split.
      - intros a Ha. rewrite Hh. apply lookup_insert_ne. congruence.
      - eapply same_request_trans; [|exact Hs']. exact Hs. }
    destruct H1 as (Hu1 & Hh1 & Hs1).
    split; [congruence|]. split.
    + intros a Ha. rewrite Hh, Hh1; [reflexivity|exact Ha|].
      destruct Hs1 as (_ & _ & _ & _ & ->). exact Ha.
    + eapply same_request_trans; eassumption.
Qed.

Lemma read_chunks_footprint_witness :
  let w := set_files {["/tmp/seafhttp/other" := "kept"]} started_world in
  exists req' fsm' w',
    read_chunks test_env (test_request []) [simple_body] init_fsm w
      = Done (req', fsm', w')
    /\ (forall p c, files w !! p = Some c -> tmp_file init_fsm <> Some p ->
          files w' !! p = Some c)
    /\ (forall d p, fds w !! d = Some p -> fds w' !! d = Some p)
    /\ upload_progress w' = upload_progress w
    /\ (forall a, a <> progress init_fsm -> heap w' !! a = heap w !! a)
    /\ same_request init_fsm fsm'.
Proof.
  intros w. eexists. eexists. eexists. split; [vm_compute; reflexivity|].
  eapply (read_chunks_footprint test_env (test_request []) [simple_body] init_fsm w).
  - split; [intros _; discriminate|].
    intros Hc. apply in_file_content_spec in Hc as [Hc _]. discriminate.
  - vm_compute. reflexivity.
Defined.

(** ** The headers of the request and of the parts *)

Lemma g_strchomp_app p b :
  g_strchomp b = b -> b <> "" -> g_strchomp (p +:+ b) = p +:+ b.
Proof.
  intros Hb Hne. induction p as [|c p IH]; [exact Hb|].
  cbn [String.append g_strchomp]. rewrite IH.
  destruct (p +:+ b) eqn:E; [|reflexivity].
  apply str_app_inv_nil in E as [_ E]. congruence.
Qed.

(** X11: the boundary is read back from the Content-Type of the request.
    For the value [multipart/form-data; boundary=b], where [b] holds no
    semicolon and does not end with white space, [get_boundary] gives [b]
    as it is written: quotes around [b] are not taken off, and the empty
    [b] is accepted too. *)
Theorem get_boundary_roundtrip hdr b :
  evhtp_kv_find hdr "Content-Type" = Some ("multipart/form-data; boundary=" +:+ b) ->
  strchr b ";" = None ->
  g_strchomp b = b ->
  get_boundary hdr = Some b.
Proof.
  intros Hct Hsemi Hchomp. unfold get_boundary. rewrite Hct.
  assert (Hparams :
    map g_strstrip (g_strsplit ("multipart/form-data; boundary=" +:+ b) ";")
    = ["multipart/form-data"; "boundary=" +:+ b]).
  { assert (Hstrip : g_strstrip (" boundary=" +:+ b) = "boundary=" +:+ b).
    { unfold g_strstrip.
      assert (g_strchug (" boundary=" +:+ b) = "boundary=" +:+ b) as -> by reflexivity.
      destruct b as [|c b]; [reflexivity|].
      apply (g_strchomp_app "boundary=" (String c b)); [exact Hchomp|discriminate]. }
    unfold g_strsplit. cbn -[g_strstrip].
    rewrite split_on_none by exact Hsemi.
    cbn -[g_strstrip]. f_equal. f_equal. exact Hstrip. }
  rewrite Hparams. reflexivity.
Qed.

Lemma get_boundary_roundtrip_witness :
  get_boundary [("content-type", "multipart/form-data; boundary=" +:+ quoted "AaB03x")]
    = Some (quoted "AaB03x").
Proof.
  apply (get_boundary_roundtrip
           [("content-type", "multipart/form-data; boundary=" +:+ quoted "AaB03x")]
           (quoted "AaB03x")); reflexivity.
Defined.

(** X12: [upload_headers_cb] makes a state machine exactly when the URL
    has a token that the back end accepts, the Content-Type gives a
    boundary, and Content-Length and X-Progress-ID are there; the request
    is then left as it is.  In every other case no state machine is made,
    the world is left as it is (nothing is allocated or registered), and
    the request is answered 400, paused and closed, with the body
    [Invalid URL] for a missing token, [Access denied] for a token that is
    refused (whatever the headers are), and no body for the other
    failures. *)
Theorem upload_headers_cb_outcome env req hdr w :
  (exists fsm w',
     upload_headers_cb env req hdr w = (req, Some fsm, w')
     /\ exists token,
          uri_file req = Some token
          /\ check_access_token env token = Some (repo_id fsm, user fsm)
          /\ get_boundary hdr = Some (boundary fsm)
          /\ is_Some (evhtp_kv_find hdr "Content-Length")
          /\ evhtp_kv_find (uri_query req) "X-Progress-ID" = Some (progress_id fsm))
  \/ (exists req',
        upload_headers_cb env req hdr w = (req', None, w)
        /\ reply req' = Some EVHTP_RES_BADREQ
        /\ keepalive req' = false /\ paused req' = true
        /\ ((uri_file req = None
             /\ buffer_out req' = buffer_out req +:+ "Invalid URL" +:+ NL)
            \/ (exists token,
                  uri_file req = Some token /\ check_access_token env token = None
                  /\ buffer_out req' = buffer_out req +:+ "Access denied" +:+ NL)
            \/ (exists token,
                  uri_file req = Some token
                  /\ is_Some (check_access_token env token)
                  /\ (get_boundary hdr = None
                      \/ evhtp_kv_find hdr "Content-Length" = None
                      \/ evhtp_kv_find (uri_query req) "X-Progress-ID" = None)
                  /\ buffer_out req' = buffer_out req))).
Proof.
  unfold upload_headers_cb, get_progress_info.
  destruct (uri_file req) as [token|].
  2:{ right. eexists. split; [reflexivity|]. repeat split. left. split; reflexivity. }
  destruct (check_access_token env token) as [[repo usr]|] eqn:Htok.
  2:{ right. eexists. split; [reflexivity|]. repeat split.
      right. left. exists token. repeat split. exact Htok. }
  destruct (get_boundary hdr) as [bnd|].
  2:{ right. eexists. split; [reflexivity|]. repeat split.
      right. right. exists token. rewrite Htok. repeat split; [eexists; reflexivity|].
      left. reflexivity. }
  destruct (evhtp_kv_find hdr "Content-Length") as [len|].
  2:{ right. eexists. split; [reflexivity|]. repeat split.
      right. right. exists token. rewrite Htok. repeat split; [eexists; reflexivity|].
      right. left. reflexivity. }
  destruct (evhtp_kv_find (uri_query req) "X-Progress-ID") as [id|].
  2:{ right. eexists. split; [reflexivity|]. repeat split.
      right. right. exists token. rewrite Htok. repeat split; [eexists; reflexivity|].
      right. right. reflexivity. }
  left. eexists. eexists. split; [reflexivity|]. exists token. cbn.
  repeat split; try assumption. eexists. reflexivity.
Qed.

Lemma parse_other_header header colon fsm :
  strchr header ":" = Some colon ->
  str_take colon header <> "Content-Disposition" ->
  parse_mime_header header fsm = (0%Z, fsm).
Proof.
  intros Hcolon Hname. unfold parse_mime_header. rewrite Hcolon.
  apply String.eqb_neq in Hname. rewrite Hname. reflexivity.
Qed.

(** X13: the name of a part header is compared as it is written.  A
    header line whose name (what is before the first colon) is not,
    letter for letter, [Content-Disposition] is accepted and changes
    nothing in the state machine, be it the same name in lower case or
    with a space before the colon: its parameters are not read, and at the
    blank line that follows the content of the part starts with the
    [input_name] that was there, NULL at the start of a part. *)
Theorem part_header_name_exact env fsm w h colon rest :
  state fsm = RECV_HEADERS ->
  g_strcmp0_eq (input_name fsm) "file" = false ->
  line fsm = h +:+ CRLF +:+ CRLF +:+ rest ->
  h <> "" ->
  evbuffer_readln h = None ->
  strchr (cstr h) ":" = Some colon ->
  str_take colon (cstr h) <> "Content-Disposition" ->
  parse_mime_header (cstr h) fsm = (0%Z, fsm)
  /\ steps env fsm w (set_state RECV_CONTENT (set_line rest fsm)) w.
Proof.
  intros Hst Hin Hline Hne Hh Hcolon Hname.
  split; [exact (parse_other_header _ _ _ Hcolon Hname)|].
  eapply steps_step.
  { apply (header_line_step env fsm w h (CRLF +:+ rest) _ Hst Hline Hh Hne).
    exact (parse_other_header _ _ _ Hcolon Hname). }
  apply steps_one.
  apply (blank_line_field_step env (set_line (CRLF +:+ rest) fsm) w rest Hst eq_refl Hin).
Qed.

Lemma part_header_name_exact_witness :
  let h := "content-disposition: form-data; name=" +:+ quoted "parent_dir" in
  let fsm := set_line (h +:+ CRLF +:+ CRLF +:+ "/docs" +:+ CRLF)
               (set_state RECV_HEADERS init_fsm) in
  parse_mime_header (cstr h) fsm = (0%Z, fsm)
  /\ steps test_env fsm started_world
       (set_state RECV_CONTENT (set_line ("/docs" +:+ CRLF) fsm)) started_world.
Proof.
  intros h fsm.
  apply (part_header_name_exact test_env fsm started_world h 19 ("/docs" +:+ CRLF)).
  - reflexivity.
  - reflexivity.
  - reflexivity.
  - discriminate.
  - reflexivity.
  - reflexivity.
  - discriminate.
Defined.

Lemma strchr_None_strrchr s c : strchr s c = None -> strrchr s c = None.
Proof.
  induction s as [|a r IH]; [reflexivity|]. cbn -[Ascii.eqb].
  destruct (Ascii.eqb a c); [discriminate|].
  destruct (strchr r c); [discriminate|]. intros _. rewrite IH; reflexivity.
Qed.

Lemma strrchr_app_last s c post :
  strchr post c = None -> strrchr (s +:+ String c post) c = Some (String.length s).
Proof.
  intros Hpost. induction s as [|x s IH].
  - cbn -[Ascii.eqb]. rewrite (strchr_None_strrchr _ _ Hpost), Ascii.eqb_refl. reflexivity.
  - cbn [String.append strrchr String.length]. rewrite IH. reflexivity.
Qed.

Lemma str_drop_app s t : str_drop (String.length s) (s +:+ t) = t.
Proof. induction s as [|x s IH]; [destruct t; reflexivity|exact IH]. Qed.

(** X14: the value of a parameter of Content-Disposition is what stands
    between the first and the last double quote of the parameter: the text
    before the first quote and after the last one is not looked at, and the
    value may hold quotes itself.  A parameter with no quote, or with one
    only, has no value. *)
Theorem mime_param_value_between_quotes :
  (forall pre v post,
     strchr pre DQUOTE = None -> strchr post DQUOTE = None ->
     get_mime_header_param_value (pre +:+ quoted v +:+ post) = Some v)
  /\ (forall p, strchr p DQUOTE = None -> get_mime_header_param_value p = None)
  /\ (forall pre post,
        strchr pre DQUOTE = None -> strchr post DQUOTE = None ->
        get_mime_header_param_value (pre +:+ String DQUOTE post) = None).
Proof.
  split; [|split].
  - intros pre v post Hpre Hpost. unfold get_mime_header_param_value, quoted.
    assert (Hshape : pre +:+ (String DQUOTE v +:+ String DQUOTE "") +:+ post
                     = (pre +:+ String DQUOTE v) +:+ String DQUOTE post).
    { rewrite !str_app_assoc. reflexivity. }
    assert (Hfirst : strchr (pre +:+ (String DQUOTE v +:+ String DQUOTE "") +:+ post) DQUOTE
                     = Some (String.length pre)).
    { rewrite !str_app_assoc. apply (strchr_app_first pre DQUOTE _ Hpre). }
    rewrite Hfirst, Hshape, (strrchr_app_last _ DQUOTE post Hpost), str_app_length.
    cbn [String.length].
    destruct (Nat.eqb_spec (String.length pre) (String.length pre + S (String.length v)));
      [lia|].
    f_equal. unfold g_strndup.
    replace (String.length pre + S (String.length v) - String.length pre - 1)
      with (String.length v) by lia.
    assert (Hdrop : forall k t, str_drop (S (String.length k)) (k +:+ String DQUOTE t) = t).
    { clear. induction k as [|c k IH]; intros t; [reflexivity|]. exact (IH t). }
    rewrite str_app_assoc.
    change (String DQUOTE v +:+ String DQUOTE post)
      with (String DQUOTE (v +:+ String DQUOTE post)).
    rewrite Hdrop. apply str_take_app.
  - intros p Hp. unfold get_mime_header_param_value. rewrite Hp. reflexivity.
  - intros pre post Hpre Hpost. unfold get_mime_header_param_value.
    rewrite (strchr_app_first pre DQUOTE post Hpre), (strrchr_app_last pre DQUOTE post Hpost).
    rewrite Nat.eqb_refl. reflexivity.
Qed.

Lemma mime_param_value_between_quotes_witness :
  get_mime_header_param_value
    ("filename=" +:+ quoted ("a" +:+ String DQUOTE "b.txt") +:+ " x") =
  Some ("a" +:+ String DQUOTE "b.txt").
Proof.
  apply (proj1 mime_param_value_between_quotes "filename="
           ("a" +:+ String DQUOTE "b.txt") " x"); reflexivity.
Defined.

Lemma find_param_none value key params cur :
  Forall (fun q => starts_with_ci key q = false) params ->
  find_param value key params cur = cur.
Proof.
  induction 1 as [|q params Hq _ IH]; [reflexivity|].
  cbn [find_param]. rewrite strncasecmp_eq_prefix, Hq. exact IH.
Qed.

Lemma set_file_name_same fsm : set_file_name (file_name fsm) fsm = fsm.
Proof. destruct fsm. reflexivity. Qed.

(** X15: the file name outlives its part.  The end of a part clears
    [input_name] and leaves [file_name]; and a Content-Disposition for
    the input [file] that has no [filename] parameter keeps the
    [file_name] that is there.  So such a header is refused for the first
    file part of a body only: after a file part it is accepted, and the
    part is received under the name of the file before. *)
Theorem file_name_outlives_part env :
  (forall fsm rest,
     2 <= length (map g_strstrip (g_strsplit rest ";")) ->
     strcasecmp_eq (nth 0 (map g_strstrip (g_strsplit rest ";")) "") "form-data" = true ->
     find_param get_mime_header_param_value "name"
       (map g_strstrip (g_strsplit rest ";")) (input_name fsm) = Some "file" ->
     Forall (fun q => starts_with_ci "filename" q = false)
       (map g_strstrip (g_strsplit rest ";")) ->
     parse_mime_header ("Content-Disposition:" +:+ rest) fsm =
       (match file_name fsm with Some _ => 0%Z | None => (-1)%Z end,
        set_input_name (Some "file") fsm))
  /\ (forall fsm w fsm' w',
        state fsm = RECV_CONTENT ->
        read_step env fsm w = Continue fsm' w' ->
        file_name fsm' = file_name fsm).
Proof.
  split.
  - intros fsm rest Hlen Hfd Hname Hnone.
    rewrite (parse_content_disposition rest fsm Hlen Hfd). cbv zeta.
    rewrite Hname. cbn [input_name set_input_name].
    change (String.eqb "file" "file") with true. cbv iota.
    rewrite (find_param_none _ _ _ _ Hnone). cbn [file_name set_input_name set_file_name].
    destruct fsm as [st rp us bn inp ln kv cr fname tmp d pid pg]. cbn.
    destruct fname; reflexivity.
  - intros fsm w fsm' w' Hst. unfold read_step. rewrite Hst.
    destruct (g_strcmp0_eq _ _).
    + unfold recv_file_data. repeat case_match; intros; simplify_eq/=; reflexivity.
    + unfold recv_form_field. repeat case_match; intros; simplify_eq/=; reflexivity.
Qed.

Lemma file_name_outlives_part_witness :
  let fsm := set_file_name (Some "a.txt") (set_state RECV_HEADERS init_fsm) in
  parse_mime_header ("Content-Disposition:" +:+ " form-data; name=" +:+ quoted "file") fsm
    = (match file_name fsm with Some _ => 0%Z | None => (-1)%Z end,
        set_input_name (Some "file") fsm).
Proof.
  intros fsm.
  apply (proj1 (file_name_outlives_part test_env) fsm
           (" form-data; name=" +:+ quoted "file")).
  - vm_compute. lia.
  - reflexivity.
  - reflexivity.
  - repeat constructor.
Defined.

(** ** The name given to the uploaded file *)

Lemma gen_unique_filename_found env repo_id parent_dir filename head root dir :
  seaf_repo_manager_get_repo env repo_id = Some head ->
  seaf_commit_manager_get_commit env head = Some root ->
  seaf_fs_manager_get_seafdir_by_path env root parent_dir = Some dir ->
  gen_unique_filename env repo_id parent_dir (Some filename)
    = Done (Some (unique_name_spec dir filename)).
Proof.
  intros Hrepo Hhead Hdir.
  unfold gen_unique_filename. rewrite Hrepo, Hhead, Hdir.
  destruct (split_filename filename) as [name ext] eqn:Hsplit.
  rewrite (unique_name_loop_pick dir name ext 16 17 1 filename) by (reflexivity || lia).
  unfold unique_name_spec, unique_name_candidates. rewrite Hsplit. cbn [fst snd].
  destruct (filename_exists dir filename); [|reflexivity].
  rewrite pick_name_find. change (Z.of_nat 16) with 16%Z.
  destruct (find _ _); reflexivity.
Qed.



(** ** The upload handler *)

Lemma Done_inj {A} (a b : A) : Done a = Done b -> a = b.
Proof. intros H. injection H as H. exact H. Qed.

Lemma success_is_not_error req repo P P' fn err :
  redirect_to_upload_error req repo P' fn err <> redirect_to_success_page req repo P.
Proof. intros H. apply (f_equal location) in H. discriminate H. Qed.

(** X17: [upload_cb] redirects to the success page of a directory exactly
    when that directory is the [parent_dir] field, the temp file is there
    and holds at most [MAX_UPLOAD_FILE_SIZE] (100 MB) bytes, the quota
    check does not fail, the directory is found in the head commit of the
    repo, and the back end stores the file under the unique name without
    an error. *)
Theorem upload_cb_success_iff env req fsm w fn P :
  state fsm <> RECV_ERROR ->
  file_name fsm = Some fn ->
  upload_cb env req (Some fsm) w = Done (redirect_to_success_page req (repo_id fsm) P)
  <->
  form_kvs fsm !! "parent_dir" = Some P
  /\ (0 <= seafile_check_quota env (repo_id fsm))%Z
  /\ exists path content head root dir,
       tmp_file fsm = Some path /\ files w !! path = Some content
       /\ (Z.of_nat (String.length content) <= MAX_UPLOAD_FILE_SIZE)%Z
       /\ seaf_repo_manager_get_repo env (repo_id fsm) = Some head
       /\ seaf_commit_manager_get_commit env head = Some root
       /\ seaf_fs_manager_get_seafdir_by_path env root P = Some dir
       /\ seafile_post_file env (repo_id fsm) path P (unique_name_spec dir fn) (user fsm)
          = None.
Proof.
  intros Hst Hfn. unfold upload_cb.
  rewrite bool_decide_eq_false_2 by exact Hst. split.
  - destruct (form_kvs fsm !! "parent_dir") as [P'|].
    2:{ intros H%Done_inj. apply (f_equal reply) in H. discriminate H. }
    unfold stat. destruct (tmp_file fsm) as [path|] eqn:Htmp.
    2:{ intros H%Done_inj. exfalso. exact (success_is_not_error _ _ _ _ _ _ H). }
    destruct (files w !! path) as [content|] eqn:Hfile.
    2:{ intros H%Done_inj. exfalso. exact (success_is_not_error _ _ _ _ _ _ H). }
    cbn [fmap option_fmap option_map].
    destruct (MAX_UPLOAD_FILE_SIZE <? _)%Z eqn:Hsize.
    { intros H%Done_inj. exfalso. exact (success_is_not_error _ _ _ _ _ _ H). }
    destruct (seafile_check_quota env (repo_id fsm) <? 0)%Z eqn:Hquota.
    { intros H%Done_inj. exfalso. exact (success_is_not_error _ _ _ _ _ _ H). }
    rewrite Hfn. unfold gen_unique_filename.
    destruct (seaf_repo_manager_get_repo env (repo_id fsm)) as [head|] eqn:Hrepo.
    2:{ intros H%Done_inj. exfalso. exact (success_is_not_error _ _ _ _ _ _ H). }
    destruct (seaf_commit_manager_get_commit env head) as [root|] eqn:Hhead.
    2:{ intros H%Done_inj. exfalso. exact (success_is_not_error _ _ _ _ _ _ H). }
    destruct (seaf_fs_manager_get_seafdir_by_path env root P') as [dir|] eqn:Hdir.
    2:{ intros H%Done_inj. exfalso. exact (success_is_not_error _ _ _ _ _ _ H). }
    pose proof (gen_unique_filename_found env _ _ fn _ _ _ Hrepo Hhead Hdir) as Hgen.
    unfold gen_unique_filename in Hgen. rewrite Hrepo, Hhead, Hdir in Hgen.
    rewrite Hgen. cbn [default].
    destruct (seafile_post_file env _ _ _ _ _) as [message|] eqn:Hpost.
    { destruct (String.eqb message "Invalid filename");
        [|destruct (String.eqb message "file already exists")];
        intros H%Done_inj; exfalso; exact (success_is_not_error _ _ _ _ _ _ H). }
    intros H%Done_inj. apply (f_equal location) in H. injection H as <-.
    split; [reflexivity|]. split; [apply Z.ltb_ge; exact Hquota|].
    exists path, content, head, root, dir. repeat split; try assumption.
    apply Z.ltb_ge. exact Hsize.
  - intros (HP & Hquota & path & content & head & root & dir
            & Htmp & Hfile & Hsize & Hrepo & Hhead & Hdir & Hpost).
    rewrite HP, Htmp. unfold stat. rewrite Hfile. cbn [fmap option_fmap option_map].
    assert ((MAX_UPLOAD_FILE_SIZE <? Z.of_nat (String.length content))%Z = false) as ->
      by (apply Z.ltb_ge; exact Hsize).
    assert ((seafile_check_quota env (repo_id fsm) <? 0)%Z = false) as ->
      by (apply Z.ltb_ge; exact Hquota).
    rewrite Hfn, (gen_unique_filename_found env _ _ fn _ _ _ Hrepo Hhead Hdir).
    change (default "" (Some path)) with path. rewrite Hpost. reflexivity.
Qed.

Lemma upload_cb_success_iff_witness :
  let fsm :=
    set_tmp_file (Some "/tmp/seafhttp/a.txt000000")
      (set_file_name (Some "a.txt")
         (set_form_kvs {["parent_dir" := "/docs"]} (set_state RECV_HEADERS init_fsm))) in
  let w := set_files {["/tmp/seafhttp/a.txt000000" := "hello"]} started_world in
  upload_cb test_env (test_request []) (Some fsm) w
    = Done (redirect_to_success_page (test_request []) (repo_id fsm) "/docs")
  <->
  form_kvs fsm !! "parent_dir" = Some "/docs"
  /\ (0 <= seafile_check_quota test_env (repo_id fsm))%Z
  /\ exists path content head root dir,
       tmp_file fsm = Some path /\ files w !! path = Some content
       /\ (Z.of_nat (String.length content) <= MAX_UPLOAD_FILE_SIZE)%Z
       /\ seaf_repo_manager_get_repo test_env (repo_id fsm) = Some head
       /\ seaf_commit_manager_get_commit test_env head = Some root
       /\ seaf_fs_manager_get_seafdir_by_path test_env root "/docs" = Some dir
       /\ seafile_post_file test_env (repo_id fsm) path "/docs"
            (unique_name_spec dir "a.txt") (user fsm) = None.
Proof.
  intros fsm w.
  apply (upload_cb_success_iff test_env (test_request []) fsm w "a.txt" "/docs").
  - discriminate.
  - reflexivity.
Defined.

(** ** A request from its body to its end *)

Lemma upload_read_cb_frame env req buf fsm w req' fsm' w' :
  upload_read_cb env req buf fsm w = Done (req', fsm', w') -> same_request fsm fsm'.
Proof.
  unfold upload_read_cb.
  destruct (bool_decide (state fsm = RECV_ERROR)).
  { intros [= <- <- <-]. apply same_request_refl. }
  destruct (heap w !! progress fsm) as [pg|]; [|discriminate].
  match goal with |- context [read_loop env ?n ?f ?w0] =>
    destruct (read_loop env n f w0) as [[[res f2] w2]| |] eqn:El
  end; [|discriminate..].
  apply read_loop_frame in El as [Hs _].
  unfold read_out. destruct res; cbn; intros [= <- <- <-]; exact Hs.
Qed.

Lemma read_chunks_frame env chunks : forall req fsm w req' fsm' w',
  read_chunks env req chunks fsm w = Done (req', fsm', w') -> same_request fsm fsm'.
Proof.
  induction chunks as [|c cs IH]; intros req fsm w req' fsm' w' H.
  - injection H as <- <- <-. apply same_request_refl.
  - cbn [read_chunks] in H.
    destruct (upload_read_cb env req c fsm w) as [[[r1 f1] w1]| |] eqn:E;
      [|discriminate..].
    eapply same_request_trans; [exact (upload_read_cb_frame _ _ _ _ _ _ _ _ E)|].
    exact (IH _ _ _ _ _ _ H).
Qed.



(** ** The declared length and the registry of progress *)

Lemma digit_val_pretty d : (d < 10)%N -> digit_val (pretty_N_char d) = Some (Z.of_N d).
Proof.
  intros Hd.
  assert (d = 0 \/ d = 1 \/ d = 2 \/ d = 3 \/ d = 4 \/ d = 5 \/ d = 6 \/ d = 7
          \/ d = 8 \/ d = 9)%N as H by lia.
  repeat (destruct H as [->|H]; [reflexivity|]). subst d. reflexivity.
Qed.

(** The digits [pretty] writes are read back by [strtoll_digits]. *)
Lemma strtoll_digits_pretty x : forall s,
  strtoll_digits 0 (pretty_N_go x s) = strtoll_digits (Z.of_N x) s.
Proof.
  induction (N.lt_wf_0 x) as [x _ IH]. intros s.
  destruct (N.eq_dec x 0%N) as [->|Hx]; [reflexivity|].
  rewrite pretty_N_go_step by lia.
  rewrite IH by (apply N.div_lt; lia).
  cbn [strtoll_digits]. rewrite digit_val_pretty by (apply N.mod_lt; lia).
  f_equal. rewrite (N.div_mod x 10) at 3 by lia. lia.
Qed.

Lemma pretty_N_go_head x : forall s,
  (0 < x)%N ->
  exists c t, pretty_N_go x s = String c t /\ is_Some (digit_val c).
Proof.
  induction (N.lt_wf_0 x) as [x _ IH]. intros s Hx.
  rewrite pretty_N_go_step by exact Hx.
  destruct (N.eq_dec (x `div` 10)%N 0%N) as [Hz|Hz].
  - rewrite Hz, pretty_N_go_0. eexists. eexists. split; [reflexivity|].
    rewrite digit_val_pretty by (apply N.mod_lt; lia). eexists. reflexivity.
  - apply IH; [apply N.div_lt; lia|apply N.neq_0_lt_0; exact Hz].
Qed.

Lemma strtoll_pretty n : (0 <= n)%Z -> strtoll (pretty n) = Z.min INT64_MAX n.
Proof.
  intros Hn. destruct n as [|p|p]; [reflexivity| |lia].
  change (pretty (Z.pos p)) with (pretty_N_go (N.pos p) "").
  destruct (pretty_N_go_head (N.pos p) "" ltac:(lia)) as (c & t & Heq & Hc).
  rewrite Heq, (strtoll_digit_head c t Hc), <- Heq, strtoll_digits_pretty.
  reflexivity.
Qed.

(** X19: the declared length is read back from its decimal digits.  For
    a Content-Length written as the decimal digits of a number [n] that is
    not negative, [get_progress_info] gives [n] as the length when [n] is at
    most 2^63 - 1, and 2^63 - 1 for every greater [n]: a greater length is
    not refused but clamped. *)
Theorem content_length_roundtrip req hdr id n :
  (0 <= n)%Z ->
  evhtp_kv_find hdr "Content-Length" = Some (pretty n) ->
  evhtp_kv_find (uri_query req) "X-Progress-ID" = Some id ->
  get_progress_info req hdr = Some (Z.min INT64_MAX n, id).
Proof.
  intros Hn Hlen Hid. unfold get_progress_info.
  rewrite Hlen, Hid, (strtoll_pretty n Hn). reflexivity.
Qed.

Lemma content_length_roundtrip_witness :
  get_progress_info (test_request [("X-Progress-ID", "p1")])
    [("Content-Length", pretty (2 ^ 64)%Z)] = Some (Z.min INT64_MAX (2 ^ 64), "p1").
Proof.
  apply (content_length_roundtrip (test_request [("X-Progress-ID", "p1")])
           [("Content-Length", pretty (2 ^ 64)%Z)] "p1" (2 ^ 64)%Z).
  - lia.
  - reflexivity.
  - reflexivity.
Defined.

Lemma upload_read_cb_dangling env req buf fsm w :
  state fsm <> RECV_ERROR ->
  heap w !! progress fsm = None ->
  upload_read_cb env req buf fsm w = Fault.
Proof.
  intros Hst Hpg. unfold upload_read_cb.
  rewrite bool_decide_eq_false_2 by exact Hst. rewrite Hpg. reflexivity.
Qed.

(** X20: the registry of progress is keyed by the X-Progress-ID of the
    client alone.  When a second request comes with the id of a request
    that is still being received, [upload_headers_cb] puts its own
    [Progress] under the id and the insertion frees the one of the first
    request, which the state machine of the first request still points
    to: the next chunk of the first request makes [upload_read_cb] write
    to freed memory. *)
Theorem progress_id_reuse env req1 hdr1 req2 hdr2 w r1 fsm1 w1 r2 fsm2 w2 :
  registry_ok w ->
  upload_headers_cb env req1 hdr1 w = (r1, Some fsm1, w1) ->
  upload_headers_cb env req2 hdr2 w1 = (r2, Some fsm2, w2) ->
  progress_id fsm2 = progress_id fsm1 ->
  upload_progress w2 !! progress_id fsm1 = Some (progress fsm2)
  /\ is_Some (heap w2 !! progress fsm2)
  /\ progress fsm2 <> progress fsm1
  /\ heap w2 !! progress fsm1 = None
  /\ forall req buf, upload_read_cb env req buf fsm1 w2 = Fault.
Proof.
  intros Hreg H1 H2 Hid.
  destruct (upload_headers_cb_progress env _ _ _ _ _ _ Hreg H1)
    as (v1 & _ & Hheap1 & Hup1 & Hst1).
  revert H2. unfold upload_headers_cb, get_progress_info.
  destruct (uri_file req2); [|discriminate].
  destruct (check_access_token env s) as [[repo usr]|]; [|discriminate].
  destruct (get_boundary hdr2); [|discriminate].
  destruct (evhtp_kv_find hdr2 "Content-Length") as [v|]; [|discriminate].
  destruct (evhtp_kv_find (uri_query req2) "X-Progress-ID") as [id|]; [|discriminate].
  intros [= <- <- <-]. cbn [progress_id progress] in Hid |- *. subst id.
  unfold registry_insert. cbn -[fresh_addr]. rewrite Hup1.
  assert (Hne : fresh_addr (heap w1) <> progress fsm1).
  { intros Heq. rewrite <- Heq, fresh_addr_fresh in Hheap1. discriminate. }
  assert (Hgone : delete (progress fsm1)
                    (<[fresh_addr (heap w1) := Progress.mk 0 (strtoll v)]> (heap w1))
                  !! progress fsm1 = None) by apply lookup_delete_eq.
  split; [apply lookup_insert_eq|]. split.
  { rewrite lookup_delete_ne by congruence. rewrite lookup_insert_eq. eexists. reflexivity. }
  split; [exact Hne|]. split; [exact Hgone|].
  intros req buf. apply upload_read_cb_dangling; [congruence|exact Hgone].
Qed.

Lemma progress_id_reuse_witness :
  exists r1 fsm1 w1 r2 fsm2 w2,
    upload_headers_cb test_env (test_request [("X-Progress-ID", "p1")])
      (test_headers "187") empty_world = (r1, Some fsm1, w1)
    /\ upload_headers_cb test_env (test_request [("X-Progress-ID", "p1")])
         (test_headers "5") w1 = (r2, Some fsm2, w2)
    /\ upload_progress w2 !! progress_id fsm1 = Some (progress fsm2)
    /\ is_Some (heap w2 !! progress fsm2)
    /\ progress fsm2 <> progress fsm1
    /\ heap w2 !! progress fsm1 = None
    /\ forall req buf, upload_read_cb test_env req buf fsm1 w2 = Fault.
Proof.
  eexists. eexists. eexists. eexists. eexists. eexists.
  split; [vm_compute; reflexivity|]. split; [vm_compute; reflexivity|].
  eapply (progress_id_reuse test_env (test_request [("X-Progress-ID", "p1")])
            (test_headers "187") (test_request [("X-Progress-ID", "p1")])
            (test_headers "5") empty_world).
  - exact registry_ok_empty.
  - vm_compute. reflexivity.
  - vm_compute. reflexivity.
  - reflexivity.
Defined.

(** X21: [upload_finish_cb] takes out of the registry whatever is stored
    under the id of its request, and frees it, be it the [Progress] of
    another request that came with the same id: the progress of that
    request can no longer be asked for (the endpoint answers 400), and its
    next chunk makes [upload_read_cb] write to freed memory. *)
Theorem finish_unregisters_by_id env fsm w addr :
  upload_progress w !! progress_id fsm = Some addr ->
  upload_progress (upload_finish_cb (Some fsm) w) !! progress_id fsm = None
  /\ heap (upload_finish_cb (Some fsm) w) !! addr = None
  /\ (forall q,
        evhtp_kv_find (uri_query q) "X-Progress-ID" = Some (progress_id fsm) ->
        evhtp_kv_find (uri_query q) "callback" <> None ->
        upload_progress_cb q (upload_finish_cb (Some fsm) w)
          = Done (evhtp_send_reply EVHTP_RES_BADREQ q))
  /\ (forall req buf other,
        progress other = addr -> state other <> RECV_ERROR ->
        upload_read_cb env req buf other (upload_finish_cb (Some fsm) w) = Fault).
Proof.
  intros Hup.
  assert (Hreg : upload_progress (upload_finish_cb (Some fsm) w) !! progress_id fsm = None
                 /\ heap (upload_finish_cb (Some fsm) w) !! addr = None).
  { unfold upload_finish_cb, registry_remove.
    destruct (tmp_file fsm); cbn [upload_progress heap set_files set_fds]; rewrite Hup;
      cbn; split; apply lookup_delete_eq. }
  destruct Hreg as [Hgone Hfree]. split; [exact Hgone|]. split; [exact Hfree|]. split.
  - intros q Hid Hcb. unfold upload_progress_cb. rewrite Hid.
    destruct (evhtp_kv_find (uri_query q) "callback"); [|congruence].
    rewrite Hgone. reflexivity.
  - intros req buf other Hp Hst. apply upload_read_cb_dangling; [exact Hst|].
    rewrite Hp. exact Hfree.
Qed.

Lemma finish_unregisters_by_id_witness :
  let w := set_heap {[2 := Progress.mk 0 5]}
             (set_upload_progress {["p1" := 2]} empty_world) in
  upload_progress (upload_finish_cb (Some init_fsm) w) !! progress_id init_fsm = None
  /\ heap (upload_finish_cb (Some init_fsm) w) !! 2 = None
  /\ (forall q,
        evhtp_kv_find (uri_query q) "X-Progress-ID" = Some (progress_id init_fsm) ->
        evhtp_kv_find (uri_query q) "callback" <> None ->
        upload_progress_cb q (upload_finish_cb (Some init_fsm) w)
          = Done (evhtp_send_reply EVHTP_RES_BADREQ q))
  /\ (forall req buf other,
        progress other = 2 -> state other <> RECV_ERROR ->
        upload_read_cb test_env req buf other (upload_finish_cb (Some init_fsm) w)
          = Fault).
Proof.
  intros w. apply (finish_unregisters_by_id test_env init_fsm w 2). reflexivity.
Defined.

(** What the delivery of chunks leaves of the heap and the registry. *)
Lemma read_chunks_heap env chunks : forall req fsm w req' fsm' w',
  read_chunks env req chunks fsm w = Done (req', fsm', w') ->
  upload_progress w' = upload_progress w
  /\ (forall a, a <> progress fsm -> heap w' !! a = heap w !! a)
  /\ (is_Some (heap w !! progress fsm) -> is_Some (heap w' !! progress fsm)).
Proof.
  induction chunks as [|c cs IH]; intros req fsm w req' fsm' w' Hr.
  - injection Hr as <- <- <-. repeat split; auto.
  - cbn [read_chunks] in Hr.
    destruct (upload_read_cb env req c fsm w) as [[[r1 f1] w1]| |] eqn:E;
      [|discriminate..].
    destruct (IH _ _ _ _ _ _ Hr) as (Hu & Hh & Hs).
    pose proof (upload_read_cb_frame _ _ _ _ _ _ _ _ E) as (_ & _ & _ & _ & Hp).
    assert (H1 : upload_progress w1 = upload_progress w
                 /\ (forall a, a <> progress fsm -> heap w1 !! a = heap w !! a)
                 /\ (is_Some (heap w !! progress fsm)
                     -> is_Some (heap w1 !! progress fsm))).
    { clear -E. unfold upload_read_cb in E.
      destruct (bool_decide (state fsm = RECV_ERROR)).
      { injection E as <- <- <-. repeat split; auto. }
      destruct (heap w !! progress fsm) as [pg|]; [|discriminate].
      match type of E with context [read_loop env ?n ?f ?w0] =>
        destruct (read_loop env n f w0) as [[[res f2] w2]| |] eqn:El
      end; [|discriminate..].
      apply read_loop_frame in El as [_ [Hh Hu]]. cbn in Hh, Hu.
      assert (w1 = w2) as ->.
      { unfold read_out in E. destruct res; cbn in E; injection E as <- <- <-;
          reflexivity. }
      split; [exact Hu|]. split.
      - intros a Ha. rewrite Hh. apply lookup_insert_ne. congruence.
      - intros _. rewrite Hh, lookup_insert_eq. eexists. reflexivity. }
    destruct H1 as (Hu1 & Hh1 & Hs1). rewrite Hp in Hh, Hs.
    split; [congruence|]. split.
    + intros a Ha. rewrite Hh, Hh1; [reflexivity|exact Ha|exact Ha].
    + intros Hsome. exact (Hs (Hs1 Hsome)).
Qed.

(** X22: a request leaves no trace in the registry.  When a request
    comes with an id that is not registered, then after its headers, any
    chunks of its body and [upload_finish_cb], the registry and the heap of
    [Progress] structs are what they were before the request. *)
Theorem register_unregister env req hdr w chunks req1 fsm w1 req2 fsm2 w2 :
  upload_headers_cb env req hdr w = (req1, Some fsm, w1) ->
  upload_progress w !! progress_id fsm = None ->
  read_chunks env req1 chunks fsm w1 = Done (req2, fsm2, w2) ->
  upload_progress (upload_finish_cb (Some fsm2) w2) = upload_progress w
  /\ heap (upload_finish_cb (Some fsm2) w2) = heap w.
Proof.
  intros Hh Hnew Hr.
  destruct (read_chunks_heap _ _ _ _ _ _ _ _ Hr) as (Hu & Hheap & _).
  destruct (read_chunks_frame _ _ _ _ _ _ _ _ Hr) as (_ & _ & _ & Hid & Hp).
  revert Hh. unfold upload_headers_cb, get_progress_info.
  destruct (uri_file req); [|discriminate].
  destruct (check_access_token env s) as [[repo usr]|]; [|discriminate].
  destruct (get_boundary hdr); [|discriminate].
  destruct (evhtp_kv_find hdr "Content-Length") as [v|]; [|discriminate].
  destruct (evhtp_kv_find (uri_query req) "X-Progress-ID") as [id|]; [|discriminate].
  intros [= <- <- <-]. cbn [progress_id progress] in *.
  unfold registry_insert in Hu, Hheap.
  cbn [upload_progress heap set_heap set_upload_progress] in Hu, Hheap.
  rewrite Hnew in Hheap.
  cbn [upload_progress heap set_heap set_upload_progress] in Hheap.
  assert (Hup2 : upload_progress w2 !! progress_id fsm2 = Some (fresh_addr (heap w))).
  { rewrite Hu, Hid. apply lookup_insert_eq. }
  unfold upload_finish_cb, registry_remove.
  destruct (tmp_file fsm2); cbn [upload_progress heap set_files set_fds]; rewrite Hup2;
    cbn -[fresh_addr]; rewrite Hu, Hid;
    (split; [apply delete_insert_id; exact Hnew|]);
    apply map_eq; intros a;
    (destruct (decide (a = fresh_addr (heap w))) as [->|Ha];
     [rewrite lookup_delete_eq, fresh_addr_fresh; reflexivity|]);
    rewrite lookup_delete_ne by congruence;
    rewrite (Hheap a Ha), lookup_insert_ne by congruence; reflexivity.
Qed.

Lemma register_unregister_witness :
  exists req1 fsm w1 req2 fsm2 w2,
    upload_headers_cb test_env (test_request [("X-Progress-ID", "p1")])
      (test_headers "187") empty_world = (req1, Some fsm, w1)
    /\ read_chunks test_env req1 [simple_body] fsm w1 = Done (req2, fsm2, w2)
    /\ upload_progress (upload_finish_cb (Some fsm2) w2) = upload_progress empty_world
    /\ heap (upload_finish_cb (Some fsm2) w2) = heap empty_world.
Proof.
  eexists. eexists. eexists. eexists. eexists. eexists.
  split; [vm_compute; reflexivity|]. split; [vm_compute; reflexivity|].
  eapply (register_unregister test_env (test_request [("X-Progress-ID", "p1")])
            (test_headers "187") empty_world [simple_body]).
  - vm_compute. reflexivity.
  - reflexivity.
  - vm_compute. reflexivity.
Defined.

(** X23: what the progress endpoint sees during an upload.  After the
    headers of a request and any chunks of its body that did not end in
    the error state, a query with the id of the request and a callback is
    answered 200 with the JSONP body whose [uploaded] is the number of
    bytes of the chunks and whose [length] is the number read from
    Content-Length. *)
Theorem progress_seen_during_upload env req hdr w chunks req1 fsm w1 req2 fsm2 w2
    q callback :
  registry_ok w ->
  upload_headers_cb env req hdr w = (req1, Some fsm, w1) ->
  read_chunks env req1 chunks fsm w1 = Done (req2, fsm2, w2) ->
  state fsm2 <> RECV_ERROR ->
  (total_length chunks <= INT64_MAX)%Z ->
  evhtp_kv_find (uri_query q) "X-Progress-ID" = Some (progress_id fsm) ->
  evhtp_kv_find (uri_query q) "callback" = Some callback ->
  exists v,
    evhtp_kv_find hdr "Content-Length" = Some v
    /\ upload_progress_cb q w2
       = Done (evhtp_send_reply EVHTP_RES_OK
                 (evbuffer_add_printf
                    (jsonp_body callback (total_length chunks) (strtoll v)) q)).
Proof.
  intros Hreg Hh Hr Hst Hmax Hid Hcb.
  destruct (upload_headers_cb_progress env _ _ _ _ _ _ Hreg Hh)
    as (v & Hv & Hheap & Hup & _).
  destruct (read_chunks_uploaded env chunks _ _ _ _ _ _ _ Hheap ltac:(cbn; lia)
              ltac:(cbn; lia) Hr) as (pg' & Hp & Hpg' & Hsize & _ & Hdone).
  destruct (read_chunks_heap _ _ _ _ _ _ _ _ Hr) as (Hu & _ & _).
  exists v. split; [exact Hv|].
  unfold upload_progress_cb. rewrite Hid, Hcb, Hu, Hup, <- Hp, Hpg'.
  destruct pg' as [u sz]. cbn in Hsize, Hdone. rewrite Hsize, (Hdone Hst).
  reflexivity.
Qed.

Lemma progress_seen_during_upload_witness :
  exists req1 fsm w1 req2 fsm2 w2 v,
    upload_headers_cb test_env (test_request [("X-Progress-ID", "p1")])
      (test_headers "187") empty_world = (req1, Some fsm, w1)
    /\ read_chunks test_env req1 [file_part_header "a.txt"; "hello"] fsm w1
       = Done (req2, fsm2, w2)
    /\ evhtp_kv_find (test_headers "187") "Content-Length" = Some v
    /\ upload_progress_cb (test_request [("X-Progress-ID", "p1"); ("callback", "cb")]) w2
       = Done (evhtp_send_reply EVHTP_RES_OK
                 (evbuffer_add_printf
                    (jsonp_body "cb" (total_length [file_part_header "a.txt"; "hello"])
                       (strtoll v))
                    (test_request [("X-Progress-ID", "p1"); ("callback", "cb")]))).
Proof.
  eexists. eexists. eexists. eexists. eexists. eexists.
  assert (Hh : upload_headers_cb test_env (test_request [("X-Progress-ID", "p1")])
                 (test_headers "187") empty_world
               = (test_request [("X-Progress-ID", "p1")], Some init_fsm, started_world))
    by (vm_compute; reflexivity).
  destruct (progress_seen_during_upload test_env (test_request [("X-Progress-ID", "p1")])
              (test_headers "187") empty_world [file_part_header "a.txt"; "hello"]
              _ _ _ _ _ _
              (test_request [("X-Progress-ID", "p1"); ("callback", "cb")]) "cb"
              registry_ok_empty Hh ltac:(vm_compute; reflexivity)
              ltac:(vm_compute; discriminate) ltac:(vm_compute; discriminate)
              eq_refl eq_refl) as (v & Hv & Hq).
  exists v. split; [exact Hh|]. split; [vm_compute; reflexivity|].
  split; [exact Hv|exact Hq].
Defined.

(** ** The route /update/ *)

Lemma string_get_app s c t : String.get (String.length s) (s +:+ String c t) = Some c.
Proof. induction s as [|x s IH]; [reflexivity|exact IH]. Qed.

Lemma last_nonslash_name n :
  n <> "" -> strchr n G_DIR_SEPARATOR = None ->
  last_nonslash n = Some (String.length n - 1).
Proof.
  induction n as [|x n IH]; intros Hne Hn; [congruence|].
  cbn -[Ascii.eqb] in Hn. cbn -[Ascii.eqb G_DIR_SEPARATOR].
  destruct (Ascii.eqb x G_DIR_SEPARATOR); [discriminate|].
  destruct (strchr n G_DIR_SEPARATOR) eqn:E; [discriminate|].
  destruct n as [|y n]; [reflexivity|].
  rewrite IH by (congruence || reflexivity). cbn. f_equal. lia.
Qed.

Lemma last_nonslash_app s n :
  n <> "" -> strchr n G_DIR_SEPARATOR = None ->
  last_nonslash (s +:+ n) = Some (String.length (s +:+ n) - 1).
Proof.
  intros Hne Hn. induction s as [|x s IH]; [exact (last_nonslash_name n Hne Hn)|].
  cbn [String.append last_nonslash String.length]. rewrite IH.
  f_equal. destruct (s +:+ n) eqn:E; [|cbn; lia].
  apply str_app_inv_nil in E as [_ E]. congruence.
Qed.

Lemma str_take_all s : str_take (String.length s) s = s.
Proof. induction s as [|x s IH]; [reflexivity|]. cbn. rewrite IH. reflexivity. Qed.

(** The base name of a path that ends with a name. *)
Lemma basename_of_path s n :
  n <> "" -> strchr n G_DIR_SEPARATOR = None ->
  g_path_get_basename (s +:+ String G_DIR_SEPARATOR n) = n.
Proof.
  intros Hne Hn. unfold g_path_get_basename.
  destruct (s +:+ String G_DIR_SEPARATOR n) eqn:E.
  { apply str_app_inv_nil in E as [_ E]. discriminate. }
  rewrite <- E. clear E.
  assert (Htail : String G_DIR_SEPARATOR n <> "") by discriminate.
  change (s +:+ String G_DIR_SEPARATOR n)
    with (s +:+ (String G_DIR_SEPARATOR "" +:+ n)).
  rewrite <- str_app_assoc, (last_nonslash_app _ n Hne Hn).
  replace (S (String.length ((s +:+ String G_DIR_SEPARATOR "") +:+ n) - 1))
    with (String.length ((s +:+ String G_DIR_SEPARATOR "") +:+ n)).
  2:{ rewrite !str_app_length. destruct n; [congruence|]. cbn. lia. }
  rewrite str_take_all, str_app_assoc.
  change (String G_DIR_SEPARATOR "" +:+ n) with (String G_DIR_SEPARATOR n).
  rewrite (strrchr_app_last s G_DIR_SEPARATOR n Hn).
  change (String G_DIR_SEPARATOR n) with (String G_DIR_SEPARATOR "" +:+ n).
  rewrite <- str_app_assoc.
  replace (S (String.length s)) with (String.length (s +:+ String G_DIR_SEPARATOR "")).
  2:{ rewrite str_app_length. cbn. lia. }
  apply str_drop_app.
Qed.

Lemma basename_of_name n :
  n <> "" -> strchr n G_DIR_SEPARATOR = None -> g_path_get_basename n = n.
Proof.
  intros Hne Hn. unfold g_path_get_basename.
  rewrite (last_nonslash_name n Hne Hn).
  replace (S (String.length n - 1)) with (String.length n)
    by (destruct n; [congruence|cbn; lia]).
  rewrite str_take_all, (strchr_None_strrchr _ _ Hn).
  destruct n; [congruence|reflexivity].
Qed.

(** The directory of a path: a directory that does not end with a
    separator, then a separator and a name. *)
Lemma dirname_of_path d c n :
  c <> G_DIR_SEPARATOR -> strchr n G_DIR_SEPARATOR = None ->
  g_path_get_dirname (d +:+ String c (String G_DIR_SEPARATOR n)) = d +:+ String c "".
Proof.
  intros Hc Hn. unfold g_path_get_dirname.
  assert (Hshape : d +:+ String c (String G_DIR_SEPARATOR n)
                   = (d +:+ String c "") +:+ String G_DIR_SEPARATOR n).
  { rewrite str_app_assoc. reflexivity. }
  rewrite Hshape at 1. rewrite (strrchr_app_last _ G_DIR_SEPARATOR n Hn).
  rewrite str_app_length. cbn [String.length].
  replace (String.length d + 1) with (S (String.length d)) by lia.
  assert (Hend : dirname_end (d +:+ String c (String G_DIR_SEPARATOR n))
                   (S (String.length d)) = String.length d).
  { cbn [dirname_end].
    assert (String.get (S (String.length d)) (d +:+ String c (String G_DIR_SEPARATOR n))
            = Some G_DIR_SEPARATOR) as ->.
    { rewrite Hshape.
      replace (S (String.length d)) with (String.length (d +:+ String c ""))
        by (rewrite str_app_length; cbn; lia).
      apply string_get_app. }
    rewrite Ascii.eqb_refl.
    destruct (String.length d) as [|b] eqn:Hlen; [reflexivity|].
    cbn [dirname_end]. rewrite <- Hlen, string_get_app.
    destruct (Ascii.eqb_spec c G_DIR_SEPARATOR) as [->|_]; [congruence|reflexivity]. }
  rewrite Hend, Hshape.
  replace (S (String.length d)) with (String.length (d +:+ String c ""))
    by (rewrite str_app_length; cbn; lia).
  apply str_take_app.
Qed.

Lemma dirname_of_root n :
  strchr n G_DIR_SEPARATOR = None ->
  g_path_get_dirname (String G_DIR_SEPARATOR n) = String G_DIR_SEPARATOR "".
Proof.
  intros Hn. unfold g_path_get_dirname.
  pose proof (strrchr_app_last "" G_DIR_SEPARATOR n Hn) as Hlast.
  change ("" +:+ String G_DIR_SEPARATOR n) with (String G_DIR_SEPARATOR n) in Hlast.
  rewrite Hlast. destruct n; reflexivity.
Qed.

Lemma dirname_of_name n :
  strchr n G_DIR_SEPARATOR = None -> g_path_get_dirname n = ".".
Proof.
  intros Hn. unfold g_path_get_dirname. rewrite (strchr_None_strrchr _ _ Hn). reflexivity.
Qed.

(** X24: [update_cb] puts the temp file at the path of the field
    [target_file]: with the temp file there and at most 100 MB, and the
    quota check passed, the back end is asked to put the file under the
    last component of the path in the directory before it; the reply is
    the redirect to the success page of that directory when the back end
    gives no error, and else the redirect to the update-error page of the
    whole path, with ERROR_NOT_EXIST for the message [file does not exist]
    and ERROR_INTERNAL for any other.  The directory of a path [dir/name]
    is [dir], that of [/name] is [/], and that of a bare [name] is [.]. *)
Theorem update_cb_puts_at_target env put req fsm w target parent n path content :
  state fsm <> RECV_ERROR ->
  form_kvs fsm !! "target_file" = Some target ->
  n <> "" -> strchr n G_DIR_SEPARATOR = None ->
  (exists d c, c <> G_DIR_SEPARATOR
               /\ target = d +:+ String c (String G_DIR_SEPARATOR n)
               /\ parent = d +:+ String c "")
  \/ (target = String G_DIR_SEPARATOR n /\ parent = String G_DIR_SEPARATOR "")
  \/ (target = n /\ parent = ".") ->
  tmp_file fsm = Some path ->
  files w !! path = Some content ->
  (Z.of_nat (String.length content) <= MAX_UPLOAD_FILE_SIZE)%Z ->
  (0 <= seafile_check_quota env (repo_id fsm))%Z ->
  update_cb env put req (Some fsm) w =
    match put (repo_id fsm) path parent n (user fsm) with
    | None => (redirect_to_success_page req (repo_id fsm) parent, None)
    | Some message =>
        redirect_to_update_error req (repo_id fsm) target
          (if String.eqb message "file does not exist"
           then ERROR_NOT_EXIST else ERROR_INTERNAL)
    end.
Proof.
  intros Hst Hkv Hne Hn Hshape Htmp Hfile Hsize Hquota.
  assert (Hsplit : g_path_get_dirname target = parent /\ g_path_get_basename target = n).
  { destruct Hshape as [(d & c & Hc & -> & ->)|[[-> ->]|[-> ->]]].
    - split; [exact (dirname_of_path d c n Hc Hn)|].
      change (d +:+ String c (String G_DIR_SEPARATOR n))
        with (d +:+ (String c "" +:+ String G_DIR_SEPARATOR n)).
      rewrite <- str_app_assoc. exact (basename_of_path _ n Hne Hn).
    - split; [exact (dirname_of_root n Hn)|exact (basename_of_path "" n Hne Hn)].
    - split; [exact (dirname_of_name n Hn)|exact (basename_of_name n Hne Hn)]. }
  destruct Hsplit as [Hdir Hbase].
  unfold update_cb. rewrite bool_decide_eq_false_2 by exact Hst.
  rewrite Hkv, Htmp. unfold stat. rewrite Hfile. cbn [fmap option_fmap option_map].
  assert ((MAX_UPLOAD_FILE_SIZE <? Z.of_nat (String.length content))%Z = false) as ->
    by (apply Z.ltb_ge; exact Hsize).
  assert ((seafile_check_quota env (repo_id fsm) <? 0)%Z = false) as ->
    by (apply Z.ltb_ge; exact Hquota).
  cbv zeta. rewrite Hdir, Hbase. change (default "" (Some path)) with path.
  destruct (put (repo_id fsm) path parent n (user fsm)) as [message|]; [|reflexivity].
  destruct (String.eqb message "file does not exist"); reflexivity.
Qed.

Lemma update_cb_puts_at_target_witness :
  let fsm :=
    set_tmp_file (Some "/tmp/seafhttp/a.txt000000")
      (set_form_kvs {["target_file" := "/docs/sub/a.txt"]}
         (set_state RECV_HEADERS init_fsm)) in
  let w := set_files {["/tmp/seafhttp/a.txt000000" := "hello"]} started_world in
  let put := fun (repo tmp parent name usr : string) =>
               if String.eqb parent "/docs/sub" then None else Some "file does not exist" in
  update_cb test_env put (test_request []) (Some fsm) w =
    match put (repo_id fsm) "/tmp/seafhttp/a.txt000000" "/docs/sub" "a.txt" (user fsm) with
    | None => (redirect_to_success_page (test_request []) (repo_id fsm) "/docs/sub", None)
    | Some message =>
        redirect_to_update_error (test_request []) (repo_id fsm) "/docs/sub/a.txt"
          (if String.eqb message "file does not exist"
           then ERROR_NOT_EXIST else ERROR_INTERNAL)
    end.
Proof.
  intros fsm w put.
  apply (update_cb_puts_at_target test_env put (test_request []) fsm w
           "/docs/sub/a.txt" "/docs/sub" "a.txt" "/tmp/seafhttp/a.txt000000" "hello").
  - discriminate.
  - reflexivity.
  - discriminate.
  - reflexivity.
  - left. exists "/docs/su", "b"%char. split; [discriminate|]. split; reflexivity.
  - reflexivity.
  - reflexivity.
  - vm_compute. discriminate.
  - vm_compute. discriminate.
Defined.

(** ** A file part after another *)

(** X25: [recved_crlf] is not cleared between parts.  The boundary line
    that ends a part leaves the flag as it is, and [open_temp_file] does
    not touch it; so when a file part starts while the flag is set, as it
    is after a file part of at least one line, the first line of the new
    part is written with a CR LF before it: the temp file of the part
    starts with two bytes that are not in the payload. *)
Theorem later_file_part_gets_crlf env fsm w l rest fn path :
  state fsm = RECV_HEADERS ->
  input_name fsm = Some "file" ->
  file_name fsm = Some fn ->
  recved_crlf fsm = true ->
  line fsm = CRLF +:+ l +:+ CRLF +:+ rest ->
  evbuffer_readln l = None ->
  strstr (cstr l) (boundary fsm) = false ->
  mkstemp_name env (files w) (TEMP_FILE_DIR +:+ "/" +:+ fn +:+ "XXXXXX") = Some path ->
  files w !! path = None ->
  (forall c d, write_ok env path c d = true) ->
  (exists fsm' w',
     steps env fsm w fsm' w'
     /\ state fsm' = RECV_CONTENT /\ tmp_file fsm' = Some path /\ line fsm' = rest
     /\ files w' !! path = Some (CRLF +:+ l))
  /\ (forall f w0 f' w0',
        state f = RECV_CONTENT ->
        read_step env f w0 = Continue f' w0' ->
        state f' = RECV_HEADERS ->
        recved_crlf f' = recved_crlf f).
Proof.
  intros Hst Hin Hfn Hcr Hline Hl Hb Hmk Hfree Hok. split.
  - pose proof (blank_line_file_step env fsm w (l +:+ CRLF +:+ rest) fn path
                  Hst Hline Hin Hfn Hmk Hfree) as Hstep1.
    set (f1 := set_state RECV_CONTENT
                 (set_tmp_file (Some path)
                    (set_fd (fresh_fd (fds w)) (set_line (l +:+ CRLF +:+ rest) fsm))))
      in Hstep1.
    set (w1 := set_fds (<[fresh_fd (fds w) := path]> (fds w))
                 (set_files (<[path := ""]> (files w)) w)) in Hstep1.
    pose proof (file_line_step env f1 w1 l rest path "" eq_refl Hin eq_refl Hl Hb
                  (lookup_insert_eq _ _ _) (lookup_insert_eq _ _ _) Hok) as Hstep2.
    eexists. eexists. split.
    { eapply steps_step; [exact Hstep1|]. apply steps_one. exact Hstep2. }
    split; [reflexivity|]. split; [reflexivity|]. split; [reflexivity|].
    cbn [files set_files]. rewrite lookup_insert_eq.
    change (recved_crlf f1) with (recved_crlf fsm). rewrite Hcr. reflexivity.
  - intros f w0 f' w0' Hs. unfold read_step. rewrite Hs.
    destruct (g_strcmp0_eq _ _).
    + unfold recv_file_data.
      repeat case_match; intros; simplify_eq/=; first [reflexivity | congruence].
    + unfold recv_form_field.
      repeat case_match; intros; simplify_eq/=; first [reflexivity | congruence].
Qed.

Lemma later_file_part_gets_crlf_witness :
  let fsm :=
    set_line (CRLF +:+ "two" +:+ CRLF +:+ closing)
      (set_recved_crlf true
         (set_file_name (Some "a.txt")
            (set_input_name (Some "file") (set_state RECV_HEADERS init_fsm)))) in
  (exists fsm' w',
     steps test_env fsm started_world fsm' w'
     /\ state fsm' = RECV_CONTENT /\ tmp_file fsm' = Some "/tmp/seafhttp/a.txt000000"
     /\ line fsm' = closing
     /\ files w' !! "/tmp/seafhttp/a.txt000000" = Some (CRLF +:+ "two"))
  /\ (forall f w0 f' w0',
        state f = RECV_CONTENT ->
        read_step test_env f w0 = Continue f' w0' ->
        state f' = RECV_HEADERS ->
        recved_crlf f' = recved_crlf f).
Proof.
  intros fsm.
  apply (later_file_part_gets_crlf test_env fsm started_world "two" closing "a.txt"
           "/tmp/seafhttp/a.txt000000");
    first [reflexivity | intros; reflexivity].
Defined.

(** ** The text of the redirects *)

Lemma str_forall_strchr f s c :
  str_forall f s = true -> f c = false -> strchr s c = None.
Proof.
  intros Hs Hc. induction s as [|x s IH]; [reflexivity|].
  cbn [str_forall] in Hs. apply andb_prop in Hs as [Hx Hs].
  cbn -[Ascii.eqb]. destruct (Ascii.eqb_spec x c) as [->|_]; [congruence|].
  rewrite (IH Hs). reflexivity.
Qed.

Lemma hex_digit_unreserved c :
  is_unreserved (hex_digit (N_of_ascii c / 16)) = true
  /\ is_unreserved (hex_digit (N_of_ascii c mod 16)) = true.
Proof. destruct c as [[] [] [] [] [] [] [] []]; split; vm_compute; reflexivity. Qed.

Lemma escape_alphabet s :
  str_forall (fun c => is_unreserved c || Ascii.eqb c "%") (g_uri_escape_string s) = true.
Proof.
  induction s as [|c s IH]; [reflexivity|]. cbn [g_uri_escape_string].
  destruct (is_unreserved c) eqn:Hc.
  - cbn [str_forall]. rewrite Hc, IH. reflexivity.
  - destruct (hex_digit_unreserved c) as [H1 H2].
    cbn [str_forall]. rewrite H1, H2, IH. reflexivity.
Qed.

(** X26: what [g_uri_escape_string] puts in the URL of a redirect is
    inert.  The escaped form of any string is made of letters, digits,
    [-._~] and [%] only, so it holds no [&], [=], [?], [#], [/], space,
    quote, CR or LF: a parent directory or a file name cannot add a
    parameter to the query or a line to the Location header.  A string of
    unreserved characters is left as it is, and no string grows to more
    than three times its length. *)
Theorem escaped_text_is_inert s :
  str_forall (fun c => is_unreserved c || Ascii.eqb c "%") (g_uri_escape_string s) = true
  /\ Forall (fun c => strchr (g_uri_escape_string s) c = None)
       ["&"; "="; "?"; "#"; "/"; " "; DQUOTE; CR; LF]%char
  /\ (str_forall is_unreserved s = true -> g_uri_escape_string s = s)
  /\ String.length s <= String.length (g_uri_escape_string s) <= 3 * String.length s.
Proof.
  split; [apply escape_alphabet|]. split; [|split].
  - repeat constructor;
      apply (str_forall_strchr _ _ _ (escape_alphabet s)); reflexivity.
  - induction s as [|c s IH]; [reflexivity|]. cbn [str_forall g_uri_escape_string].
    intros H. apply andb_prop in H as [Hc Hs]. rewrite Hc, (IH Hs). reflexivity.
  - induction s as [|c s IH]; [cbn; lia|]. cbn [g_uri_escape_string].
    destruct (is_unreserved c); cbn [String.length]; lia.
Qed.

Lemma str_take_length n s : String.length (str_take n s) <= n.
Proof.
  revert s. induction n as [|n IH]; intros s; [reflexivity|].
  destruct s as [|c s]; cbn; [lia|]. specialize (IH s). lia.
Qed.

Lemma str_take_fits n s : String.length s <= n -> str_take n s = s.
Proof.
  revert s. induction n as [|n IH]; intros s Hs.
  - destruct s; [reflexivity|cbn in Hs; lia].
  - destruct s as [|c s]; [reflexivity|]. cbn in Hs |- *. rewrite IH by lia. reflexivity.
Qed.

Lemma str_take_prefix n a b :
  n <= String.length a -> str_take n (a +:+ b) = str_take n a.
Proof.
  revert a. induction n as [|n IH]; intros a Ha.
  - destruct a, b; reflexivity.
  - destruct a as [|c a]; [cbn in Ha; lia|]. cbn in Ha |- *. rewrite IH by lia. reflexivity.
Qed.

(** X27: the Location of a redirect is at most 1023 bytes long.  The URL
    is printed into a buffer of 1024 bytes: a text that fits is sent whole,
    with the error code at its end, and a longer one is cut without
    notice.  When the service URL, the repo id and the escaped parent
    directory take 1023 bytes or more, the Location of the upload-error
    page is cut within them and holds neither the file name nor the error
    code. *)
Theorem location_is_cut seahub_url repo parent_dir fn err :
  String.length (location_url seahub_url (UploadErrorPage repo parent_dir fn err)) <= 1023
  /\ String.length (location_url seahub_url (SuccessPage repo parent_dir)) <= 1023
  /\ String.length (update_location_url seahub_url (UpdateErrorPage repo parent_dir err))
     <= 1023
  /\ (String.length (upload_error_text seahub_url repo parent_dir fn err) <= 1023 ->
      location_url seahub_url (UploadErrorPage repo parent_dir fn err)
      = upload_error_text seahub_url repo parent_dir fn err)
  /\ (1023 <= String.length (seahub_url +:+ "/repo/upload_error/" +:+ repo
                             +:+ "?p=" +:+ g_uri_escape_string parent_dir) ->
      location_url seahub_url (UploadErrorPage repo parent_dir fn err)
      = str_take 1023 (seahub_url +:+ "/repo/upload_error/" +:+ repo
                       +:+ "?p=" +:+ g_uri_escape_string parent_dir)).
Proof.
  split; [apply str_take_length|]. split; [apply str_take_length|].
  split; [apply str_take_length|]. split.
  - intros Hfit. apply str_take_fits, Hfit.
  - intros Hlong. unfold location_url, snprintf_url, upload_error_text.
    assert (Hshape :
      seahub_url +:+ "/repo/upload_error/" +:+ repo +:+ "?p="
        +:+ g_uri_escape_string parent_dir
        +:+ "&fn=" +:+ from_option g_uri_escape_string "(null)" fn
        +:+ "&err=" +:+ pretty (error_code err)
      = (seahub_url +:+ "/repo/upload_error/" +:+ repo +:+ "?p="
           +:+ g_uri_escape_string parent_dir)
        +:+ ("&fn=" +:+ from_option g_uri_escape_string "(null)" fn
             +:+ "&err=" +:+ pretty (error_code err))).
    { rewrite !str_app_assoc. reflexivity. }
    rewrite Hshape. apply str_take_prefix, Hlong.
Qed.

(** ** The handler after the body *)

Lemma parse_mime_header_keeps_name header fsm :
  ((parse_mime_header header fsm).1 <? 0)%Z = false ->
  is_Some (file_name fsm) ->
  is_Some (file_name (parse_mime_header header fsm).2).
Proof.
  unfold parse_mime_header.
  destruct (strchr header ":") as [colon|]; [|discriminate].
  destruct (String.eqb _ "Content-Disposition"); [|cbn; intros _ H; exact H].
  destruct (_ <? 2)%nat; [discriminate|].
  destruct (negb _); [discriminate|].
  cbn [input_name set_input_name].
  destruct (find_param get_mime_header_param_value "name" _ _) as [nm|]; [|discriminate].
  destruct (String.eqb nm "file").
  - cbn [file_name set_file_name set_input_name].
    destruct (find_param get_mime_header_param_value "filename" _ _) as [fn|];
      [|discriminate].
    cbn. intros _ _. eexists. reflexivity.
  - cbn. intros _ H. exact H.
Qed.

(** A turn of the loop keeps the file name of a state machine that has a
    temp file. *)
Lemma read_step_named env fsm w :
  file_part_ready fsm w ->
  temp_file_named fsm ->
  state fsm <> RECV_ERROR ->
  match read_step env fsm w with
  | Continue fsm' w' => temp_file_named fsm'
  | Break res fsm' w' => res = EVHTP_RES_OK -> temp_file_named fsm'
  | Crash => True
  end.
Proof.
  intros [Hname _] Hnamed Hne.
  assert (Hsame : forall f', tmp_file f' = tmp_file fsm -> file_name f' = file_name fsm ->
                             temp_file_named f').
  { intros f' Ht Hn _. rewrite Ht, Hn. apply Hnamed, Hne. }
  unfold read_step. destruct (state fsm) eqn:Hs; [| | |congruence].
  - destruct (evbuffer_readln (line fsm)) as [[l rest]|].
    + destruct (negb _); [discriminate|]. apply Hsame; reflexivity.
    + intros _. exact Hnamed.
  - destruct (evbuffer_readln (line fsm)) as [[l rest]|]; [|intros _; exact Hnamed].
    destruct (String.length l =? 0)%nat.
    + cbn [input_name set_line].
      destruct (g_strcmp0_eq (input_name fsm) "file") eqn:Hin.
      * assert (Hfile : is_Some (file_name fsm)).
        { apply (Hname Hne). unfold g_strcmp0_eq in Hin.
          destruct (input_name fsm) as [k|]; [|discriminate].
          apply String.eqb_eq in Hin. congruence. }
        unfold open_temp_file. cbn [file_name set_line files].
        destruct (mkstemp_name env (files w) _) as [path|]; [|cbn; discriminate].
        destruct (files w !! path); [cbn; discriminate|].
        cbn [Z.ltb Z.compare]. cbv iota. intros _ _. exact Hfile.
      * apply Hsame; reflexivity.
    + pose proof (parse_mime_header_frame (cstr l) (set_line rest fsm)) as Hf.
      pose proof (parse_mime_header_keeps_name (cstr l) (set_line rest fsm)) as Hk.
      destruct (parse_mime_header (cstr l) (set_line rest fsm)) as [r f1].
      cbn [fst snd] in Hf, Hk.
      destruct Hf as (_ & _ & _ & Ht1 & _). cbn in Ht1.
      destruct (r <? 0)%Z; [discriminate|].
      intros _ Htmp. apply Hk; [reflexivity|]. apply Hnamed; [rewrite Hs; discriminate|].
      rewrite <- Ht1. exact Htmp.
  - destruct (g_strcmp0_eq (input_name fsm) "file").
    + unfold recv_file_data.
      repeat case_match; simplify_eq/=; try discriminate;
        try (match goal with |- _ = _ -> _ => intros _ end);
        apply Hsame; reflexivity.
    + unfold recv_form_field.
      repeat case_match; simplify_eq/=; try discriminate; try exact I;
        try (match goal with |- _ = _ -> _ => intros _ end);
        apply Hsame; reflexivity.
Qed.

Lemma read_loop_named env fuel : forall fsm w res fsm' w',
  file_part_ready fsm w ->
  temp_file_named fsm ->
  state fsm <> RECV_ERROR ->
  read_loop env fuel fsm w = Done (res, fsm', w') ->
  res = EVHTP_RES_OK -> temp_file_named fsm'.
Proof.
  induction fuel as [|fuel IH]; intros fsm w res fsm' w' Hready Hnamed Hne H;
    [discriminate|].
  cbn [read_loop] in H.
  pose proof (read_step_named env fsm w Hready Hnamed Hne) as Hstep.
  pose proof (read_step_ready env fsm w Hready Hne) as Hstep'.
  destruct (read_step env fsm w) as [f1 w1|r f1 w1|] eqn:E; [| |discriminate].
  - destruct Hstep' as [Hr1 _].
    destruct (read_step_shrinks _ _ _ _ _ Hne E) as [_ Hne1].
    exact (IH _ _ _ _ _ Hr1 Hstep Hne1 H).
  - injection H as <- <- <-. exact Hstep.
Qed.

Lemma upload_read_cb_named env req buf fsm w req' fsm' w' :
  file_part_ready fsm w ->
  temp_file_named fsm ->
  upload_read_cb env req buf fsm w = Done (req', fsm', w') ->
  temp_file_named fsm'.
Proof.
  intros Hready Hnamed. unfold upload_read_cb.
  destruct (bool_decide (state fsm = RECV_ERROR)) eqn:Hst.
  { intros [= <- <- <-]. exact Hnamed. }
  apply bool_decide_eq_false in Hst.
  destruct (heap w !! progress fsm) as [pg|]; [|discriminate].
  match goal with |- context [read_loop env ?n ?f ?w1] =>
    destruct (read_loop env n f w1) as [[[res f2] w2]| |] eqn:E
  end; [|discriminate..].
  pose proof (read_loop_named env _ (set_line (line fsm +:+ buf) fsm) (set_heap _ w)
                _ _ _ Hready Hnamed Hst E) as Hn.
  unfold read_out. destruct res; cbn; intros [= <- <- <-];
    [exact (Hn eq_refl)|..]; intros Hs; cbn in Hs; congruence.
Qed.

Lemma read_chunks_named env chunks : forall req fsm w req' fsm' w',
  file_part_ready fsm w ->
  temp_file_named fsm ->
  read_chunks env req chunks fsm w = Done (req', fsm', w') ->
  temp_file_named fsm'.
Proof.
  induction chunks as [|c cs IH]; intros req fsm w req' fsm' w' Hready Hnamed H.
  - injection H as <- <- <-. exact Hnamed.
  - cbn [read_chunks] in H.
    destruct (upload_read_cb env req c fsm w) as [[[r1 f1] w1]| |] eqn:E;
      [|discriminate..].
    destruct (upload_read_cb_ready _ _ _ _ _ _ _ _ Hready E) as [Hr1 _].
    pose proof (upload_read_cb_named _ _ _ _ _ _ _ _ Hready Hnamed E) as Hn1.
    exact (IH _ _ _ _ _ _ Hr1 Hn1 H).
Qed.

(** The loop of [gen_unique_filename] ends within the fuel of the model. *)
Lemma gen_unique_filename_returns env repo_id parent_dir filename :
  exists r, gen_unique_filename env repo_id parent_dir (Some filename) = Done r.
Proof.
  unfold gen_unique_filename.
  destruct (seaf_repo_manager_get_repo env repo_id) as [head|]; [|eexists; reflexivity].
  destruct (seaf_commit_manager_get_commit env head) as [root|]; [|eexists; reflexivity].
  destruct (seaf_fs_manager_get_seafdir_by_path env root parent_dir) as [dir|];
    [|eexists; reflexivity].
  destruct (split_filename filename) as [name ext].
  rewrite (unique_name_loop_pick dir name ext 16 17 1 filename) by (reflexivity || lia).
  eexists. reflexivity.
Qed.

(** X28: [upload_cb] is safe after any body.  For the state machine made
    by [upload_headers_cb] and any chunks delivered to it, [upload_cb]
    returns without a fault: it never passes a NULL file name to
    [gen_unique_filename], whose loop ends.  In the error state it leaves
    the request as it is; outside it the request gets exactly one reply,
    400 or the redirect 302. *)
Theorem upload_cb_is_safe env req hdr chunks w req1 fsm w1 req2 fsm2 w2 :
  upload_headers_cb env req hdr w = (req1, Some fsm, w1) ->
  read_chunks env req1 chunks fsm w1 = Done (req2, fsm2, w2) ->
  exists req3,
    upload_cb env req2 (Some fsm2) w2 = Done req3
    /\ (state fsm2 = RECV_ERROR -> req3 = req2)
    /\ (state fsm2 <> RECV_ERROR ->
        reply req3 = Some EVHTP_RES_BADREQ \/ reply req3 = Some EVHTP_RES_FOUND).
Proof.
  intros Hh Hr.
  assert (Hnamed0 : temp_file_named fsm).
  { revert Hh. unfold upload_headers_cb.
    destruct (uri_file req); [|discriminate].
    destruct (check_access_token env s) as [[repo usr]|]; [|discriminate].
    destruct (get_boundary hdr); [|discriminate].
    destruct (get_progress_info req hdr) as [[len id]|]; [|discriminate].
    intros [= <- <- <-] _ [x Hx]. discriminate Hx. }
  apply upload_headers_cb_ready in Hh as [Hready _].
  pose proof (read_chunks_named _ _ _ _ _ _ _ _ Hready Hnamed0 Hr) as Hnamed.
  unfold upload_cb.
  destruct (bool_decide (state fsm2 = RECV_ERROR)) eqn:Hst.
  { apply bool_decide_eq_true in Hst. eexists. split; [reflexivity|].
    split; [reflexivity|congruence]. }
  apply bool_decide_eq_false in Hst.
  assert (Hnoerr : forall x : Request, (state fsm2 = RECV_ERROR -> x = req2))
    by (intros x H; congruence).
  destruct (form_kvs fsm2 !! "parent_dir") as [P|].
  2:{ eexists. split; [reflexivity|]. split; [apply Hnoerr|]. intros _. left. reflexivity. }
  unfold stat. destruct (tmp_file fsm2) as [path|] eqn:Htmp.
  2:{ eexists. split; [reflexivity|]. split; [apply Hnoerr|]. intros _. right. reflexivity. }
  destruct (files w2 !! path) as [content|].
  2:{ eexists. split; [reflexivity|]. split; [apply Hnoerr|]. intros _. right. reflexivity. }
  cbn [fmap option_fmap option_map].
  destruct (MAX_UPLOAD_FILE_SIZE <? _)%Z.
  { eexists. split; [reflexivity|]. split; [apply Hnoerr|]. intros _. right. reflexivity. }
  destruct (seafile_check_quota env (repo_id fsm2) <? 0)%Z.
  { eexists. split; [reflexivity|]. split; [apply Hnoerr|]. intros _. right. reflexivity. }
  destruct (Hnamed Hst (ex_intro _ path Htmp)) as [fn Hfn]. rewrite Hfn.
  destruct (gen_unique_filename_returns env (repo_id fsm2) P fn) as [[u|] ->].
  2:{ eexists. split; [reflexivity|]. split; [apply Hnoerr|]. intros _. right. reflexivity. }
  destruct (seafile_post_file env _ _ _ _ _) as [message|].
  2:{ eexists. split; [reflexivity|]. split; [apply Hnoerr|]. intros _. right. reflexivity. }
  destruct (String.eqb message "Invalid filename");
    [|destruct (String.eqb message "file already exists")];
    (eexists; split; [reflexivity|]; split; [apply Hnoerr|]; intros _; right; reflexivity).
Qed.

Lemma upload_cb_is_safe_witness :
  exists req1 fsm w1 req2 fsm2 w2 req3,
    upload_headers_cb test_env (test_request [("X-Progress-ID", "p1")])
      (test_headers "187") empty_world = (req1, Some fsm, w1)
    /\ read_chunks test_env req1 [file_part_header "a.txt"; "hello"] fsm w1
       = Done (req2, fsm2, w2)
    /\ upload_cb test_env req2 (Some fsm2) w2 = Done req3
    /\ (state fsm2 = RECV_ERROR -> req3 = req2)
    /\ (state fsm2 <> RECV_ERROR ->
        reply req3 = Some EVHTP_RES_BADREQ \/ reply req3 = Some EVHTP_RES_FOUND).
Proof.
  eexists. eexists. eexists. eexists. eexists. eexists.
  assert (Hh : upload_headers_cb test_env (test_request [("X-Progress-ID", "p1")])
                 (test_headers "187") empty_world
               = (test_request [("X-Progress-ID", "p1")], Some init_fsm, started_world))
    by (vm_compute; reflexivity).
  destruct (upload_cb_is_safe test_env (test_request [("X-Progress-ID", "p1")])
              (test_headers "187") [file_part_header "a.txt"; "hello"] empty_world
              _ _ _ _ _ _ Hh ltac:(vm_compute; reflexivity)) as (req3 & H3 & He & Hn).
  exists req3. split; [exact Hh|]. split; [vm_compute; reflexivity|].
  split; [exact H3|]. split; [exact He|exact Hn].
Defined.

(** ** The update handler *)

(** X29: for a state machine outside the error state, [update_cb] sends
    the redirect to the success page of a directory exactly when the field
    [target_file] is there and that directory is the directory of its
    path, the temp file is there and holds at most 100 MB, the quota check
    does not fail, and the back end puts the file under the last component
    of the path without an error.  The fields [parent_dir] and the file
    name of the part are not looked at. *)
Theorem update_cb_success_iff env put req fsm w P :
  state fsm <> RECV_ERROR ->
  update_cb env put req (Some fsm) w
    = (redirect_to_success_page req (repo_id fsm) P, None)
  <->
  exists target path content,
    form_kvs fsm !! "target_file" = Some target
    /\ g_path_get_dirname target = P
    /\ tmp_file fsm = Some path /\ files w !! path = Some content
    /\ (Z.of_nat (String.length content) <= MAX_UPLOAD_FILE_SIZE)%Z
    /\ (0 <= seafile_check_quota env (repo_id fsm))%Z
    /\ put (repo_id fsm) path P (g_path_get_basename target) (user fsm) = None.
Proof.
  intros Hst. unfold update_cb, redirect_to_update_error.
  rewrite bool_decide_eq_false_2 by exact Hst. split.
  - destruct (form_kvs fsm !! "target_file") as [target|].
    2:{ intros H. apply (f_equal fst) in H. apply (f_equal reply) in H. discriminate H. }
    unfold stat. destruct (tmp_file fsm) as [path|] eqn:Htmp; [|discriminate].
    destruct (files w !! path) as [content|] eqn:Hfile; [|discriminate].
    cbn [fmap option_fmap option_map].
    destruct (MAX_UPLOAD_FILE_SIZE <? _)%Z eqn:Hsize; [discriminate|].
    destruct (seafile_check_quota env (repo_id fsm) <? 0)%Z eqn:Hquota; [discriminate|].
    cbv zeta. change (default "" (Some path)) with path.
    destruct (put _ _ _ _ _) as [message|] eqn:Hput.
    { destruct (String.eqb message "file does not exist"); discriminate. }
    intros H. apply (f_equal fst) in H. apply (f_equal location) in H.
    injection H as HP.
    exists target, path, content. rewrite <- HP.
    repeat split; try assumption; try reflexivity; apply Z.ltb_ge; assumption.
  - intros (target & path & content & Hkv & Hdir & Htmp & Hfile & Hsize & Hquota & Hput).
    rewrite Hkv, Htmp. unfold stat. rewrite Hfile. cbn [fmap option_fmap option_map].
    assert ((MAX_UPLOAD_FILE_SIZE <? Z.of_nat (String.length content))%Z = false) as ->
      by (apply Z.ltb_ge; exact Hsize).
    assert ((seafile_check_quota env (repo_id fsm) <? 0)%Z = false) as ->
      by (apply Z.ltb_ge; exact Hquota).
    cbv zeta. change (default "" (Some path)) with path.
    rewrite Hdir, Hput. reflexivity.
Qed.

Lemma update_cb_success_iff_witness :
  let fsm :=
    set_tmp_file (Some "/tmp/seafhttp/a.txt000000")
      (set_form_kvs {["target_file" := "/docs/a.txt"]}
         (set_state RECV_HEADERS init_fsm)) in
  let w := set_files {["/tmp/seafhttp/a.txt000000" := "hello"]} started_world in
  let put := fun (repo tmp parent name usr : string) => @None string in
  update_cb test_env put (test_request []) (Some fsm) w
    = (redirect_to_success_page (test_request []) (repo_id fsm) "/docs", None)
  <->
  exists target path content,
    form_kvs fsm !! "target_file" = Some target
    /\ g_path_get_dirname target = "/docs"
    /\ tmp_file fsm = Some path /\ files w !! path = Some content
    /\ (Z.of_nat (String.length content) <= MAX_UPLOAD_FILE_SIZE)%Z
    /\ (0 <= seafile_check_quota test_env (repo_id fsm))%Z
    /\ put (repo_id fsm) path "/docs" (g_path_get_basename target) (user fsm) = None.
Proof.
  intros fsm w put.
  apply (update_cb_success_iff test_env put (test_request []) fsm w "/docs").
  discriminate.
Defined.
